(** * Perlite vault normalizer: link resolution, normalization and metadata

    A shallow embedding of the Python sources

    - [normalizer/links.py]   (class [Resolver] and its helpers),
    - [normalizer/parse.py]   ([parse_frontmatter_and_tags],
                               [extract_headings]),
    - [normalizer/indexer.py] ([process_file], [build_metadata]),
    - [deploy/webhook.py]     ([verify], [webhook]),

    together with the properties of these functions.

    Conventions of the embedding.
    - A Python [str] is a [string]; a character is a code point below 256.
      [len] is [String.length].
    - A [pathlib] path is a record of its root and its segments; absolute,
      resolved paths are lists of segments below [/]. The library
      functions are those of CPython 3.11 on POSIX.
    - The file system is an explicit value: regular files with their text
      as [read_text] returns it, in the order in which a directory walk
      yields them, and directories. There are no symbolic links, and
      every file may be read and every directory searched.
    - The operating system is Linux: a segment of a path has at most
      [NAME_MAX] = 255 bytes and a path less than [PATH_MAX] = 4096
      bytes, both counted in UTF-8, and a path with a null character is
      no path. The paths of what is in the file system respect this;
      the paths that are looked up need not, and [Path.exists],
      [Path.resolve] and [Path.rglob] raise for them as they do in
      CPython.
    - Code that can raise returns a [result]; code that writes files passes
      the file system along.
    - Of a request to the webhook, the signature header, the body and
      whether the body is form data are kept; whether the deploy script
      can be started is a parameter.
    - Left out: the key [headings] of an item (the function
      [extract_headings] that computes it is modelled on its own) and the
      JSON text of the metadata document, of which only the list of items
      and its order are kept. *)

From Stdlib Require Import Ascii NArith.
From stdpp Require Import gmap strings list sorting.

Local Open Scope char_scope.
Local Open Scope stdpp_scope.

(** ** Exceptions *)

Inductive exn : Type :=
  | ValueError
  | IndexError
  | TypeError
  | OSError.

Inductive result (A : Type) : Type :=
  | Ok (a : A)
  | Raise (e : exn).
Arguments Ok {A} a.
Arguments Raise {A} e.

#[global] Instance result_ret : MRet result := fun A a => Ok a.

#[global] Instance result_bind : MBind result := fun A B k m =>
  match m with
  | Ok a => k a
  | Raise e => Raise e
  end.

Definition is_ok {A} (m : result A) : bool :=
  match m with Ok _ => true | Raise _ => false end.

(** ** Python string primitives *)

Module Py.

Definition ord (c : ascii) : N := N_of_ascii c.

Definition in_range (lo hi : N) (c : ascii) : bool :=
  ((lo <=? ord c) && (ord c <=? hi))%N.

(** [str.isspace] on one character; also the class [\s] of [re]. *)
Definition isspace (c : ascii) : bool :=
  in_range 9 13 c || in_range 28 32 c || (ord c =? 133)%N || (ord c =? 160)%N.

Definition isdigit (c : ascii) : bool := in_range 48 57 c.
Definition isupper_ascii (c : ascii) : bool := in_range 65 90 c.
Definition islower_ascii (c : ascii) : bool := in_range 97 122 c.
Definition isalpha_ascii (c : ascii) : bool := isupper_ascii c || islower_ascii c.

(** The class [\w] of [re] on [str]: alphanumeric or underscore. *)
Definition isword (c : ascii) : bool :=
  isdigit c || isalpha_ascii c || Ascii.eqb c "_"
  || (ord c =? 170)%N || (ord c =? 178)%N || (ord c =? 179)%N
  || (ord c =? 181)%N || (ord c =? 185)%N || (ord c =? 186)%N
  || in_range 188 190 c
  || in_range 192 214 c || in_range 216 246 c || in_range 248 255 c.

Definition lower_char (c : ascii) : ascii :=
  if isupper_ascii c || in_range 192 214 c || in_range 216 222 c
  then ascii_of_N (ord c + 32)
  else c.

Fixpoint lower (s : string) : string :=
  match s with
  | EmptyString => EmptyString
  | String c s' => String (lower_char c) (lower s')
  end.

Definition len (s : string) : nat := String.length s.

(** [c in s] for a one-character [c]. *)
Fixpoint contains (c : ascii) (s : string) : bool :=
  match s with
  | EmptyString => false
  | String d s' => Ascii.eqb c d || contains c s'
  end.

(** [s.split(c, 1)]: the text before the first [c] and the text after it;
    without a [c], the whole text and nothing. *)
Fixpoint split1 (c : ascii) (s : string) : string * option string :=
  match s with
  | EmptyString => (EmptyString, None)
  | String d s' =>
      if Ascii.eqb c d then (EmptyString, Some s')
      else let '(a, b) := split1 c s' in (String d a, b)
  end.

(** [s.split(c)] *)
Fixpoint split (c : ascii) (s : string) : list string :=
  match s with
  | EmptyString => [EmptyString]
  | String d s' =>
      if Ascii.eqb c d then EmptyString :: split c s'
      else match split c s' with
           | [] => [String d EmptyString]
           | x :: xs => String d x :: xs
           end
  end.

Definition join (sep : string) (l : list string) : string := String.concat sep l.

(** [s.startswith(p)] *)
Fixpoint startswith (s p : string) {struct p} : bool :=
  match p with
  | EmptyString => true
  | String a p' =>
      match s with
      | String b s' => Ascii.eqb a b && startswith s' p'
      | EmptyString => false
      end
  end.

(** [s.endswith(p)] *)
Definition endswith (s p : string) : bool :=
  startswith (String.rev s) (String.rev p).

Fixpoint lstrip_with (f : ascii -> bool) (s : string) : string :=
  match s with
  | EmptyString => EmptyString
  | String c s' => if f c then lstrip_with f s' else s
  end.

Definition rstrip_with (f : ascii -> bool) (s : string) : string :=
  String.rev (lstrip_with f (String.rev s)).

Definition lstrip (s : string) : string := lstrip_with isspace s.
Definition rstrip (s : string) : string := rstrip_with isspace s.
Definition strip (s : string) : string := rstrip (lstrip s).

(** [s.lstrip(c)] for a one-character [c]. *)
Definition lstrip_char (c : ascii) (s : string) : string :=
  lstrip_with (Ascii.eqb c) s.

Fixpoint count (c : ascii) (s : string) : nat :=
  match s with
  | EmptyString => 0
  | String d s' => (if Ascii.eqb c d then 1 else 0) + count c s'
  end.

(** [s.rfind(c)] *)
Fixpoint rfind_from (i : nat) (c : ascii) (s : string) : option nat :=
  match s with
  | EmptyString => None
  | String d s' =>
      match rfind_from (S i) c s' with
      | Some j => Some j
      | None => if Ascii.eqb c d then Some i else None
      end
  end.
Definition rfind (c : ascii) (s : string) : option nat := rfind_from 0 c s.

(** Slices [s[:n]] and [s[n:]] for [0 <= n]. *)
Fixpoint take (n : nat) (s : string) : string :=
  match n, s with
  | S n', String c s' => String c (take n' s')
  | _, _ => EmptyString
  end.

Fixpoint drop (n : nat) (s : string) : string :=
  match n, s with
  | S n', String _ s' => drop n' s'
  | _, _ => s
  end.

(** [s.replace(a, b)] for one-character [a] and [b]. *)
Fixpoint replace_char (a b : ascii) (s : string) : string :=
  match s with
  | EmptyString => EmptyString
  | String c s' => String (if Ascii.eqb c a then b else c) (replace_char a b s')
  end.

(** A truthy [str]: not empty. *)
Definition truthy (s : string) : bool := negb (String.eqb s "").

(** Line boundaries of [str.splitlines] below code point 256. *)
Definition is_linebreak (c : ascii) : bool :=
  in_range 10 13 c || in_range 28 30 c || (ord c =? 133)%N.

(** [s.splitlines()]: a [\r\n] pair is one boundary, and a final boundary
    opens no empty last line. *)
Fixpoint splitlines_go (cur : string) (s : string) : list string :=
  match s with
  | EmptyString =>
      match cur with EmptyString => [] | _ => [String.rev cur] end
  | String c s' =>
      if is_linebreak c then
        String.rev cur ::
          match s' with
          | String d s'' =>
              if Ascii.eqb c "013" && Ascii.eqb d "010"
              then splitlines_go EmptyString s''
              else splitlines_go EmptyString s'
          | EmptyString => []
          end
      else splitlines_go (String c cur) s'
  end.
Definition splitlines (s : string) : list string := splitlines_go EmptyString s.

(** [list(dict.fromkeys(l))]: the first occurrence of each element, in order. *)
Fixpoint dedup_go {A} `{EqDecision A} (seen : list A) (l : list A) : list A :=
  match l with
  | [] => []
  | x :: l' =>
      if bool_decide (x ∈ seen) then dedup_go seen l'
      else x :: dedup_go (x :: seen) l'
  end.
Definition fromkeys {A} `{EqDecision A} (l : list A) : list A := dedup_go [] l.

(** Code-point order on [str]. *)
Definition str_ltb (a b : string) : bool :=
  match String.compare a b with Lt => true | _ => false end.

(** [sorted] / [list.sort]: a stable insertion sort for a strict order. *)
Fixpoint insert_sorted {A} (ltb : A -> A -> bool) (x : A) (l : list A) : list A :=
  match l with
  | [] => [x]
  | y :: l' => if ltb y x then y :: insert_sorted ltb x l' else x :: l
  end.

Definition sorted {A} (ltb : A -> A -> bool) (l : list A) : list A :=
  foldr (fun x acc => insert_sorted ltb x acc) [] l.

End Py.

(** ** [pathlib] on POSIX *)

Module Pathlib.

(** A pure path: its root ([""], ["/"] or ["//"]) and its segments. *)
Record PurePath : Type := mkPath { root : string; segs : list string }.

#[global] Instance PurePath_eq_dec : EqDecision PurePath.
Proof. solve_decision. Defined.

(** [Path(s)]: leading slashes make the root (exactly two are kept as
    two), empty segments and ["."] are dropped, [".."] is kept. *)
Definition parse (s : string) : PurePath :=
  let stripped := Py.lstrip_char "/" s in
  let nslash := Py.len s - Py.len stripped in
  {| root := if Nat.eqb nslash 0 then ""
             else if Nat.eqb nslash 2 then "//" else "/";
     segs := List.filter (fun x => negb (String.eqb x "") && negb (String.eqb x "."))
                         (Py.split "/" stripped) |}.

(** [p.parts] *)
Definition parts (p : PurePath) : list string :=
  if String.eqb (root p) "" then segs p else root p :: segs p.

(** [str(p)] and [p.as_posix()] *)
Definition as_posix (p : PurePath) : string :=
  let s := root p +:+ Py.join "/" (segs p) in
  if String.eqb s "" then "." else s.

Definition is_absolute (p : PurePath) : bool := negb (String.eqb (root p) "").

(** [a / b] *)
Definition joinpath (a b : PurePath) : PurePath :=
  if is_absolute b then b else {| root := root a; segs := segs a ++ segs b |}.

(** [Path( *l )] *)
Definition of_parts (l : list string) : PurePath :=
  foldl (fun acc s => joinpath acc (parse s)) (mkPath "" []) l.

(** [p.name] *)
Definition name (p : PurePath) : string := default "" (last (segs p)).

(** The suffix of a file name: from its last dot on, unless that dot is
    the first or the last character. *)
Definition name_suffix (n : string) : string :=
  match Py.rfind "." n with
  | Some i => if Nat.ltb 0 i && Nat.ltb i (Py.len n - 1) then Py.drop i n else ""
  | None => ""
  end.

Definition name_stem (n : string) : string :=
  match Py.rfind "." n with
  | Some i => if Nat.ltb 0 i && Nat.ltb i (Py.len n - 1) then Py.take i n else n
  | None => n
  end.

Definition suffix (p : PurePath) : string := name_suffix (name p).
Definition stem (p : PurePath) : string := name_stem (name p).

(** The path with the suffix of its last segment removed. *)
Definition drop_suffix (p : PurePath) : PurePath :=
  match segs p with
  | [] => p
  | _ => {| root := root p; segs := removelast (segs p) ++ [name_stem (name p)] |}
  end.

(** [p.with_suffix("")]: raises on an empty name. *)
Definition with_suffix_empty (p : PurePath) : result PurePath :=
  if String.eqb (name p) "" then Raise ValueError else Ok (drop_suffix p).

(** Absolute, resolved paths: the segments below [/]. *)
Definition AbsPath : Type := list string.

Definition abs_name (p : AbsPath) : string := default "" (last p).
Definition abs_stem (p : AbsPath) : string := name_stem (abs_name p).
Definition abs_suffix (p : AbsPath) : string := name_suffix (abs_name p).
Definition parent (p : AbsPath) : AbsPath := removelast p.

(** Lexical normalisation, as [os.path.normpath] and, without symbolic
    links, [Path.resolve] do it on an absolute path. *)
Definition normalize (l : list string) : AbsPath :=
  foldl (fun acc s => if String.eqb s ".." then removelast acc else acc ++ [s]) [] l.

(** The path that [(base / p).resolve()] returns, when it returns. *)
Definition join_resolve (base : AbsPath) (p : PurePath) : AbsPath :=
  normalize (if is_absolute p then segs p else base ++ segs p).

(** A null character in a segment. *)
Definition has_nul (s : string) : bool := Py.contains "000" s.

(** [(base / p).resolve()], for a directory [base] of the file system:
    every segment of [p] but [".."] is looked up, also one that a later
    [".."] cancels and one below a missing directory, and the lookup of
    a segment with a null character raises [ValueError]. A segment that
    is missing or too long is no error here. *)
Definition resolve (base : AbsPath) (p : PurePath) : result AbsPath :=
  if existsb has_nul (segs p) then Raise ValueError
  else Ok (join_resolve base p).

Fixpoint is_prefix (a b : list string) : bool :=
  match a, b with
  | [], _ => true
  | x :: a', y :: b' => String.eqb x y && is_prefix a' b'
  | _ :: _, [] => false
  end.

(** [p.relative_to(base)]: raises when [p] is not below [base]. *)
Definition relative_to (base p : AbsPath) : result PurePath :=
  if is_prefix base p then Ok (mkPath "" (drop (length base) p))
  else Raise ValueError.

Fixpoint common_prefix_len (a b : list string) : nat :=
  match a, b with
  | x :: a', y :: b' => if String.eqb x y then S (common_prefix_len a' b') else 0
  | _, _ => 0
  end.

(** [os.path.relpath(p, start)] on normalised absolute paths. *)
Definition relpath (p start : AbsPath) : string :=
  let i := common_prefix_len start p in
  let rel := replicate (length start - i) ".." ++ drop i p in
  match rel with
  | [] => "."
  | _ => Py.join "/" rel
  end.

(** The order of [Path] values: their parts, compared as tuples. *)
Fixpoint path_ltb (a b : list string) : bool :=
  match a, b with
  | [], [] => false
  | [], _ :: _ => true
  | _ :: _, [] => false
  | x :: a', y :: b' =>
      if String.eqb x y then path_ltb a' b' else Py.str_ltb x y
  end.

End Pathlib.

(** ** The file system *)

Module Fs.
Import Pathlib.

(** Regular files with their text, in the order in which a directory walk
    yields them, and the directories that are listed on their own (the
    ancestors of every entry are directories as well). *)
Record FS : Type := mkFS {
  files : list (AbsPath * string);
  dirs : list AbsPath
}.

Definition file_paths (fs : FS) : list AbsPath := (files fs).*1.

Definition is_file (fs : FS) (p : AbsPath) : bool :=
  bool_decide (p ∈ file_paths fs).

Definition strict_prefix (a b : AbsPath) : bool :=
  is_prefix a b && negb (Nat.eqb (length a) (length b)).

Definition is_dir (fs : FS) (p : AbsPath) : bool :=
  bool_decide (p ∈ dirs fs)
  || existsb (strict_prefix p) (file_paths fs ++ dirs fs)
  || bool_decide (p = []).

(** There is a file or a directory at the resolved path [p]. *)
Definition present (fs : FS) (p : AbsPath) : bool := is_file fs p || is_dir fs p.

(** The limits of the operating system, in bytes: the length of one
    segment, and the length of a path with its terminator. *)
Definition NAME_MAX : nat := 255.
Definition PATH_MAX : nat := 4096.

(** The length of the UTF-8 encoding: two bytes from code point 128 on. *)
Fixpoint byte_len (s : string) : nat :=
  match s with
  | EmptyString => 0
  | String c s' => (if (Py.ord c <? 128)%N then 1 else 2) + byte_len s'
  end.

(** The length in bytes of the text of an absolute path. *)
Definition path_len (l : list string) : nat :=
  match l with
  | [] => 1
  | _ => foldr (fun s n => 1 + byte_len s + n) 0 l
  end.

(** [Path.exists] after [stat] has walked along the segments [l] from
    [cur], where [".."] leads to the directory above. A segment that is
    not there is looked up in an existing directory, and is refused with
    [ENAMETOOLONG] when it is longer than [NAME_MAX], which [exists]
    lets through as [OSError]; every other miss is [ENOENT] or
    [ENOTDIR], for which [exists] answers [False]. *)
Fixpoint lookup (fs : FS) (cur : AbsPath) (l : list string) : result bool :=
  match l with
  | [] => Ok (present fs cur)
  | s :: l' =>
      if is_dir fs cur then
        if String.eqb s ".." then lookup fs (removelast cur) l'
        else if present fs (cur ++ [s]) then lookup fs (cur ++ [s]) l'
        else if Nat.ltb NAME_MAX (byte_len s) then Raise OSError
        else Ok false
      else Ok false
  end.

(** [Path.exists] on the segments [l] below [/]: a null character makes
    [stat] raise [ValueError], which [exists] turns into [False]; a path
    of [PATH_MAX] bytes or more is refused with [ENAMETOOLONG] before
    any lookup. *)
Definition stat_exists (fs : FS) (l : list string) : result bool :=
  if existsb has_nul l then Ok false
  else if Nat.leb PATH_MAX (path_len l) then Raise OSError
  else lookup fs [] l.

(** [p.exists()] for a resolved path. What is in the file system is
    found: its paths have no null character and respect the limits. *)
Definition exists_ (fs : FS) (p : AbsPath) : result bool :=
  if present fs p then Ok true else stat_exists fs p.

(** [p.exists()] for a path that was joined but not resolved. *)
Definition exists_unresolved (fs : FS) (l : list string) : result bool :=
  stat_exists fs l.

(** [p.read_text(...)] of an existing file. *)
Definition read_text (fs : FS) (p : AbsPath) : string :=
  default "" (snd <$> List.find (fun e => bool_decide (e.1 = p)) (files fs)).

(** [p.write_text(t)]: the text of [p] is replaced, in place. *)
Definition write_text (fs : FS) (p : AbsPath) (t : string) : FS :=
  {| files := (fun '(q, c) => if bool_decide (q = p) then (q, t) else (q, c)) <$> files fs;
     dirs := dirs fs |}.

(** [root.rglob("*")] restricted to regular files: in walk order. *)
Definition rglob_files (fs : FS) (root : AbsPath) : list AbsPath :=
  List.filter (strict_prefix root) (file_paths fs).

(** The paths above [l], from [/] down. *)
Fixpoint ancestors (l : list string) : list (list string) :=
  match l with
  | [] => []
  | x :: l' => [] :: (cons x <$> ancestors l')
  end.

(** The directories: those listed, and the ancestors of every entry. *)
Definition all_dirs (fs : FS) : list AbsPath :=
  dirs fs ++ mjoin (ancestors <$> (file_paths fs ++ dirs fs)).

(** The directories that a recursive search from [root] visits: [root],
    when it is a directory, and every directory below it. *)
Definition dirs_from (fs : FS) (root : AbsPath) : list AbsPath :=
  if is_dir fs root then root :: List.filter (strict_prefix root) (all_dirs fs)
  else [].

End Fs.

(** ** [fnmatch] and [Path.rglob] with a one-segment pattern *)

Module Glob.
Import Pathlib Fs.

(** The text of a bracket expression that opens before [l]: up to the
    closing bracket, where a leading ["!"] and a bracket right after the
    opening do not close it. Without a closing bracket there is none. *)
Fixpoint until_close (l : list ascii) : option (list ascii * list ascii) :=
  match l with
  | [] => None
  | "]"%char :: l' => Some ([], l')
  | c :: l' => '(a, b) ← until_close l'; Some (c :: a, b)
  end.

(** The text between the brackets, with its leading ["!"], and what
    follows the closing bracket. *)
Definition bracket (l : list ascii) : option (list ascii * list ascii) :=
  match l with
  | "!"%char :: "]"%char :: l2 =>
      '(a, b) ← until_close l2; Some ("!"%char :: "]"%char :: a, b)
  | "!"%char :: l1 => '(a, b) ← until_close l1; Some ("!"%char :: a, b)
  | "]"%char :: l2 => '(a, b) ← until_close l2; Some ("]"%char :: a, b)
  | _ => until_close l
  end.

(** The chunks into which [fnmatch.translate] cuts the text of a bracket
    expression at the hyphens that can stand between the two ends of a
    range: a hyphen is looked for after [skip] characters, and after a
    hyphen was found, from the third character behind it on. A hyphen at
    the very end goes to the last chunk. *)
Fixpoint chunks_go (skip : nat) (acc l : list ascii) : list (list ascii) :=
  match l with
  | [] => [acc]
  | c :: l' =>
      match skip with
      | 0 =>
          if Ascii.eqb c "-" then
            match l' with
            | [] => [acc ++ ["-"%char]]
            | _ => acc :: chunks_go 2 [] l'
            end
          else chunks_go 0 (acc ++ [c]) l'
      | S n => chunks_go n (acc ++ [c]) l'
      end
  end.

Definition chunks (stuff : list ascii) : list (list ascii) :=
  match stuff with
  | "!"%char :: _ => chunks_go 2 [] stuff
  | _ => chunks_go 1 [] stuff
  end.

(** The removal of the empty ranges, from the last chunk down: where the
    end of a chunk is above the start of the next one, both characters
    go and the two chunks become one. *)
Fixpoint merge_chunks (cs : list (list ascii)) : list (list ascii) :=
  match cs with
  | [] => []
  | x :: rest =>
      match merge_chunks rest with
      | [] => [x]
      | y :: rest' =>
          match last x, y with
          | Some a, b :: y' =>
              if (Py.ord b <? Py.ord a)%N then (removelast x ++ y') :: rest'
              else x :: y :: rest'
          | _, _ => x :: y :: rest'
          end
      end
  end.

(** What the regular expression of a bracket expression is made of: a
    character of a chunk, taken literally, or the hyphen that joins two
    chunks. *)
Inductive token : Type :=
  | Atom (c : ascii)
  | Hyphen.

Definition token_char (t : token) : ascii :=
  match t with
  | Atom c => c
  | Hyphen => "-"
  end.

(** The chunks, joined with hyphens. *)
Definition tokens (cs : list (list ascii)) : list token :=
  match cs with
  | [] => []
  | x :: rest => (Atom <$> x) ++ mjoin ((fun y => Hyphen :: (Atom <$> y)) <$> rest)
  end.

(** One item of a character set. *)
Inductive class_item : Type :=
  | CChar (c : ascii)
  | CRange (lo hi : ascii).

(** The items that [re] reads from the tokens: a joining hyphen with a
    token before it and one behind it makes a range. *)
Fixpoint class_items (l : list token) : list class_item :=
  match l with
  | t :: Hyphen :: t' :: l' => CRange (token_char t) (token_char t') :: class_items l'
  | t :: l' => CChar (token_char t) :: class_items l'
  | [] => []
  end.

Definition class_item_matches (c : ascii) (it : class_item) : bool :=
  match it with
  | CChar d => Ascii.eqb c d
  | CRange lo hi => (Py.ord lo <=? Py.ord c)%N && (Py.ord c <=? Py.ord hi)%N
  end.

(** The character [c] matches the bracket expression with the text
    [stuff]. What is left of the text after the removal of the empty
    ranges decides: nothing matches no character, a lone ["!"] matches
    every character, and a leading ["!"] negates the set. *)
Definition class_matches (stuff : list ascii) (c : ascii) : bool :=
  match tokens (merge_chunks (chunks stuff)) with
  | [] => false
  | [Atom "!"%char] => true
  | Atom "!"%char :: l => negb (existsb (class_item_matches c) (class_items l))
  | l => existsb (class_item_matches c) (class_items l)
  end.

(** [fnmatch.fnmatchcase(name, pat)] *)
Fixpoint fnmatch_go (fuel : nat) (pat name : list ascii) : bool :=
  match fuel with
  | 0 => false
  | S fuel' =>
      match pat with
      | [] => match name with [] => true | _ => false end
      | "*"%char :: pat' =>
          fnmatch_go fuel' pat' name
          || match name with
             | [] => false
             | _ :: name' => fnmatch_go fuel' pat name'
             end
      | "?"%char :: pat' =>
          match name with
          | [] => false
          | _ :: name' => fnmatch_go fuel' pat' name'
          end
      | "["%char :: pat' =>
          match bracket pat' with
          | Some (stuff, pat'') =>
              match name with
              | [] => false
              | c :: name' => class_matches stuff c && fnmatch_go fuel' pat'' name'
              end
          | None =>
              match name with
              | "["%char :: name' => fnmatch_go fuel' pat' name'
              | _ => false
              end
          end
      | p :: pat' =>
          match name with
          | c :: name' => Ascii.eqb p c && fnmatch_go fuel' pat' name'
          | [] => false
          end
      end
  end.

Definition fnmatch (pat name : string) : bool :=
  let p := String.list_ascii_of_string pat in
  let n := String.list_ascii_of_string name in
  fnmatch_go (S (length p + length n)) p n.

Fixpoint has_double_star (s : string) : bool :=
  match s with
  | String "*" (String "*" _) => true
  | String _ s' => has_double_star s'
  | EmptyString => false
  end.

(** A segment with one of the characters that make a pattern of it. *)
Definition is_wildcard (pat : string) : bool :=
  Py.contains "*" pat || Py.contains "?" pat || Py.contains "[" pat.

(** The regular files among what [root.rglob(pat)] yields, for a pattern
    [pat] of one segment, that is, without ["/"].
    - An empty pattern, ["."], [".."] and ["**"] select directories
      only.
    - A ["**"] inside a longer segment is refused.
    - A segment with a wildcard is matched against the names of the
      entries of every directory below [root].
    - Any other segment is looked up by its name, with [exists], in
      [root] and in every directory below it; what one of these lookups
      raises leaves the search. *)
Definition rglob (fs : FS) (root : AbsPath) (pat : string) : result (list AbsPath) :=
  if bool_decide (pat ∈ [""; "."; ".."; "**"]) then Ok []
  else if has_double_star pat then Raise ValueError
  else if is_wildcard pat then
    Ok (List.filter (fun p => fnmatch pat (abs_name p)) (rglob_files fs root))
  else
    _ ← mapM (fun d => exists_ fs (d ++ [pat])) (dirs_from fs root);
    Ok (List.filter (fun p => String.eqb (abs_name p) pat) (rglob_files fs root)).

End Glob.

(** ** The regular expressions of [links.py] and [parse.py] *)

Module Re.

(** The longest prefix of characters that satisfy [f], and the rest. *)
Fixpoint span (f : ascii -> bool) (s : string) : string * string :=
  match s with
  | String c s' =>
      if f c then let '(a, b) := span f s' in (String c a, b)
      else (EmptyString, s)
  | EmptyString => (EmptyString, EmptyString)
  end.

(** An optional ["!"] in front: [(!?)]. The greedy choice is the only one
    that can succeed, since what follows starts with a bracket. *)
Definition opt_bang (s : string) : string * string :=
  match s with
  | String "!" s' => ("!", s')
  | _ => ("", s)
  end.

(** The groups of a match of [MD_LINK]. *)
Record MdMatch : Type := mkMd {
  md_bang : string;
  md_text : string;
  md_url : string;
  md_all : string
}.

(** [MD_LINK] at the start of a subject: an optional ["!"], a bracketed
    text without a closing bracket in it, and a parenthesised, non-empty
    url without a closing parenthesis in it. Both texts may hold newlines.
    First the part after the ["!"]. *)
Definition md_link_after_bang (bang s1 : string) : option MdMatch :=
  match s1 with
  | String "[" s2 =>
      let '(text, s3) := span (fun c => negb (Ascii.eqb c "]")) s2 in
      match s3 with
      | String "]" (String "(" s4) =>
          let '(url, s5) := span (fun c => negb (Ascii.eqb c ")")) s4 in
          match s5 with
          | String ")" _ =>
              if String.eqb url "" then None
              else Some (mkMd bang text url
                           (bang +:+ "[" +:+ text +:+ "](" +:+ url +:+ ")"))
          | _ => None
          end
      | _ => None
      end
  | _ => None
  end.

Definition md_link_match (s : string) : option MdMatch :=
  let '(bang, s1) := opt_bang s in md_link_after_bang bang s1.

(** The groups of a match of [WIKI_LINK]. *)
Record WikiMatch : Type := mkWiki {
  wiki_bang : string;
  wiki_body : string;
  wiki_all : string
}.

(** The lazy [.+?] in front of ["]]"]: the shortest non-empty text without
    a newline after which the two closing brackets follow. *)
Fixpoint lazy_body (s : string) : option string :=
  match s with
  | EmptyString => None
  | String c s' =>
      if Ascii.eqb c "010" then None
      else if Py.startswith s' "]]" then Some (String c EmptyString)
      else String c <$> lazy_body s'
  end.

(** [WIKI_LINK] at the start of a subject: an optional ["!"], two opening
    brackets, the lazy body and two closing brackets. First the part after
    the ["!"]. *)
Definition wiki_link_after_bang (bang s1 : string) : option WikiMatch :=
  match s1 with
  | String "[" (String "[" s2) =>
      body ← lazy_body s2;
      Some (mkWiki bang body (bang +:+ "[[" +:+ body +:+ "]]"))
  | _ => None
  end.

Definition wiki_link_match (s : string) : option WikiMatch :=
  let '(bang, s1) := opt_bang s in wiki_link_after_bang bang s1.

Section Scan.
Context {M : Type}.
Variable matcher : string -> option M.
Variable whole : M -> string.

(** [pattern.sub(repl, s)] for a pattern without empty matches: the
    matches are found from left to right and do not overlap. [skip]
    counts the characters of the last match that are still to pass. *)
Fixpoint sub_go (repl : M -> result string) (skip : nat) (s : string)
    : result string :=
  match s with
  | EmptyString => Ok EmptyString
  | String c s' =>
      match skip with
      | S k => sub_go repl k s'
      | 0 =>
          match matcher s with
          | Some m =>
              r ← repl m;
              rest ← sub_go repl (Py.len (whole m) - 1) s';
              Ok (r +:+ rest)
          | None => rest ← sub_go repl 0 s'; Ok (String c rest)
          end
      end
  end.

Definition sub (repl : M -> result string) (s : string) : result string :=
  sub_go repl 0 s.

(** [pattern.sub(t, s)] with a constant replacement. *)
Fixpoint sub_const_go (t : string) (skip : nat) (s : string) : string :=
  match s with
  | EmptyString => EmptyString
  | String c s' =>
      match skip with
      | S k => sub_const_go t k s'
      | 0 =>
          match matcher s with
          | Some m => t +:+ sub_const_go t (Py.len (whole m) - 1) s'
          | None => String c (sub_const_go t 0 s')
          end
      end
  end.

Definition sub_const (t s : string) : string := sub_const_go t 0 s.

(** [pattern.finditer(s)] *)
Fixpoint finditer_go (skip : nat) (s : string) : list M :=
  match s with
  | EmptyString => []
  | String c s' =>
      match skip with
      | S k => finditer_go k s'
      | 0 =>
          match matcher s with
          | Some m => m :: finditer_go (Py.len (whole m) - 1) s'
          | None => finditer_go 0 s'
          end
      end
  end.

Definition finditer (s : string) : list M := finditer_go 0 s.
End Scan.

(** The characters of a tag: [[A-Za-z0-9/_-]]. *)
Definition is_tag_char (c : ascii) : bool :=
  Py.isdigit c || Py.isalpha_ascii c
  || Ascii.eqb c "/" || Ascii.eqb c "_" || Ascii.eqb c "-".

(** [INLINE_TAG]: a ["#"] that no word character precedes, followed by
    one or more tag characters; group 1 of every match. The character
    before the current position is [prev]. *)
Fixpoint inline_tags_go (prev : option ascii) (skip : nat) (s : string)
    : list string :=
  match s with
  | EmptyString => []
  | String c s' =>
      match skip with
      | S k => inline_tags_go (Some c) k s'
      | 0 =>
          let tag := (span is_tag_char s').1 in
          if Ascii.eqb c "#"
             && negb (from_option Py.isword false prev)
             && Py.truthy tag
          then tag :: inline_tags_go (Some c) (Py.len tag) s'
          else inline_tags_go (Some c) 0 s'
      end
  end.

Definition inline_tags (s : string) : list string := inline_tags_go None 0 s.

End Re.

(** ** [links.py]: the resolver *)

Module Links.
Import Pathlib Fs.

Definition MD_EXTS : list string := [".md"; ".markdown"; ".mdown"].
Definition IMG_EXTS : list string :=
  [".png"; ".jpg"; ".jpeg"; ".gif"; ".webp"; ".svg"; ".pdf"].
Definition ASSET_EXTS : list string :=
  IMG_EXTS ++ [".mp4"; ".m4a"; ".webm"; ".mov"; ".mp3"; ".wav"; ".ogg"].

Definition mem (x : string) (l : list string) : bool := existsb (String.eqb x) l.

Definition is_md (p : AbsPath) : bool := mem (Py.lower (abs_suffix p)) MD_EXTS.

Definition strip_md_ext (path_str : string) : string :=
  let p := parse path_str in
  if mem (Py.lower (suffix p)) MD_EXTS
  then as_posix (drop_suffix p)
  else as_posix p.

(** [os.path.relpath(abs_file, start=base).replace("\\", "/")] *)
Definition to_rel (base abs_file : AbsPath) : string :=
  Py.replace_char "\" "/" (relpath abs_file base).

Inductive Mode : Type := Vault | Relative.

Record Resolver : Type := mkResolver {
  ROOT : AbsPath;
  mode : Mode;
  ALL_MD : list AbsPath;
  BASENAME_INDEX : gmap string (list AbsPath)
}.

(** [index.setdefault(k, []).append(p)] *)
Definition setdefault_append (k : string) (p : AbsPath)
    (index : gmap string (list AbsPath)) : gmap string (list AbsPath) :=
  <[k := default [] (index !! k) ++ [p]]> index.

Definition build_index (all_md : list AbsPath) : gmap string (list AbsPath) :=
  foldl (fun index p =>
           setdefault_append (abs_stem p) p (setdefault_append (abs_name p) p index))
        ∅ all_md.

(** [Resolver.__init__], for a resolved [root] *)
Definition init (fs : FS) (root : AbsPath) (shortest_mode : Mode) : Resolver :=
  let all_md := Py.sorted path_ltb (List.filter is_md (rglob_files fs root)) in
  {| ROOT := root; mode := shortest_mode;
     ALL_MD := all_md; BASENAME_INDEX := build_index all_md |}.

Section WithResolver.
Variable R : Resolver.

(** [BASENAME_INDEX.get(k, [])] *)
Definition index_get (k : string) : list AbsPath :=
  default [] (BASENAME_INDEX R !! k).

Definition rel_from_root (path : AbsPath) : result string :=
  p ← relative_to (ROOT R) path; Ok (as_posix p).

(** [strip_md_ext(self.rel_from_root(p))] *)
Definition rel_noext (p : AbsPath) : result string :=
  s ← rel_from_root p; Ok (strip_md_ext s).

Definition _collect_conflicts (stem_or_name : string) : list AbsPath :=
  Py.fromkeys (index_get stem_or_name ++ index_get (stem (parse stem_or_name))).

(** [out += f"#{anchor}"] under [if anchor:] *)
Definition with_anchor (out : string) (anchor : option string) : string :=
  match anchor with
  | Some a => if Py.truthy a then out +:+ "#" +:+ a else out
  | None => out
  end.

(** The candidate path of [find_target_path]: the typed path, taken as
    relative when it was typed as absolute. *)
Definition candidate_of (raw : string) : PurePath :=
  let candidate := parse raw in
  if is_absolute candidate
  then parse (Py.lstrip_char "/" (as_posix candidate))
  else candidate.

(** The files that the basename index has under the name of the
    candidate or under that name without its Markdown extension, each
    once. *)
Definition basename_matches (candidate : PurePath) : list AbsPath :=
  let bn := name candidate in
  let matches := index_get bn ++ index_get (strip_md_ext bn) in
  Py.fromkeys matches.

Definition find_target_path (fs : FS) (current_file : AbsPath) (raw : string)
    : result string :=
  let '(raw, anchor) := Py.split1 "#" raw in
  let raw := Py.strip raw in
  if String.eqb raw "" then Ok (with_anchor "" anchor)
  else
    let candidate := candidate_of raw in
    let base := parent current_file in
    abs_path ← resolve base candidate;
    found ← exists_ fs abs_path;
    out ← (if (found : bool) then rel_noext abs_path
           else
             let uniq := basename_matches candidate in
             match uniq with
             | [u] => rel_noext u
             | _ => Ok (strip_md_ext (as_posix candidate))
             end);
    Ok (with_anchor out anchor).

(** The set [conflict_noext] of [_shortest_suffix_from_vault]. *)
Definition conflict_noext (stem : string) : result (list string) :=
  l ← mapM rel_noext (_collect_conflicts stem);
  Ok (Py.fromkeys l).

(** [c.endswith('/' + sfx) or c == sfx] *)
Definition suffix_matches (sfx c : string) : bool :=
  Py.endswith c ("/" +:+ sfx) || String.eqb c sfx.

(** The inner function [unique] of [_shortest_suffix_from_vault]. *)
Definition unique (conflicts : list string) (target_abs_no_ext sfx : string) : bool :=
  let matches := List.filter (suffix_matches sfx) conflicts in
  match matches with
  | [m] => String.eqb m target_abs_no_ext
  | _ => false
  end.

(** The sort key [(s.count('/') + 1, len(s))], compared as a tuple. *)
Definition suffix_key_ltb (a b : string) : bool :=
  let ka := Py.count "/" a + 1 in
  let kb := Py.count "/" b + 1 in
  Nat.ltb ka kb || (Nat.eqb ka kb && Nat.ltb (Py.len a) (Py.len b)).

(** [parts[-take:]] for [take] in [range(2, len(parts) + 1)] *)
Definition suffix_candidates (parts : list string) : list string :=
  Py.sorted suffix_key_ltb
    ((fun take => as_posix (of_parts (drop (length parts - take) parts)))
       <$> seq 2 (length parts - 1)).

Definition _shortest_suffix_from_vault (target_abs_no_ext : string) : result string :=
  let target_path := parse target_abs_no_ext in
  let parts := parts target_path in
  let stem := name target_path in
  conflicts ← conflict_noext stem;
  if Nat.eqb (length parts) 1 then Ok stem
  else
    match suffix_candidates parts with
    | [] => Raise IndexError
    | c0 :: rest =>
        if unique conflicts target_abs_no_ext c0 then Ok c0
        else match List.find (unique conflicts target_abs_no_ext) rest with
             | Some c => Ok c
             | None => Ok target_abs_no_ext
             end
    end.

Definition _shortest_relative_from_current (current_file : AbsPath)
    (target_abs_no_ext : string) : string :=
  let base := parent current_file in
  let target := joinpath (mkPath "/" (ROOT R)) (parse (target_abs_no_ext +:+ ".md")) in
  match with_suffix_empty (parse (to_rel base (normalize (segs target)))) with
  | Ok rel => as_posix rel
  | Raise _ => as_posix (parse target_abs_no_ext)
  end.

(** Returns [(text_target_no_ext[#anchor], meta_relpath_with_md)]. *)
Definition resolve_target_for_text_and_meta (fs : FS) (current_file : AbsPath)
    (raw : string) : result (string * option string) :=
  let target := (Py.split1 "|" raw).1 in
  let '(target, anchor) := Py.split1 "#" target in
  let target := Py.strip target in
  if String.eqb target "" then Ok (raw, None)
  else
    abs_no_ext ← find_target_path fs current_file target;
    let abs_no_ext_clean := (Py.split1 "#" abs_no_ext).1 in
    shortest ← match mode R with
               | Relative => Ok (_shortest_relative_from_current current_file abs_no_ext_clean)
               | Vault => _shortest_suffix_from_vault abs_no_ext_clean
               end;
    let text_target := with_anchor shortest anchor in
    Ok (text_target, Some (abs_no_ext_clean +:+ ".md")).


(** *** Attachments *)

(** The sort key [rank(p) = (same_dir, len(rel), rel)]. *)
Definition rank (base p : AbsPath) : nat * nat * string :=
  let same_dir := if bool_decide (parent p = base) then 0 else 1 in
  let rel := to_rel base p in
  (same_dir, Py.len rel, rel).

Definition rank_ltb (a b : nat * nat * string) : bool :=
  let '(a1, a2, a3) := a in
  let '(b1, b2, b3) := b in
  Nat.ltb a1 b1
  || (Nat.eqb a1 b1 && (Nat.ltb a2 b2 || (Nat.eqb a2 b2 && Py.str_ltb a3 b3))).

(** The candidates of [resolve_asset_for_text] for the basename [name]. *)
Definition asset_candidates (fs : FS) (name : string) : result (list AbsPath) :=
  if Py.contains "." name then Glob.rglob fs (ROOT R) name
  else
    ll ← mapM (fun ext => Glob.rglob fs (ROOT R) (name +:+ ext)) ASSET_EXTS;
    Ok (mjoin ll).

(** The last step of [resolve_asset_for_text]: a path into a
    subdirectory gets an explicit ["./"]. *)
Definition dot_slash (rel : string) : string :=
  if negb (Py.startswith rel "./" || Py.startswith rel "../")
     && Py.contains "/" rel
     && negb (Py.startswith rel "/")
  then "./" +:+ rel
  else rel.

Definition resolve_asset_for_text (fs : FS) (current_file : AbsPath) (raw : string)
    : result string :=
  let target := Py.strip (Py.split1 "|" raw).1 in
  if String.eqb target "" then Ok raw
  else
    let base := parent current_file in
    let name := name (parse target) in
    candidates ← asset_candidates fs name;
    match Py.sorted (fun p q => rank_ltb (rank base p) (rank base q)) candidates with
    | [] => Ok name
    | best :: _ => Ok (dot_slash (to_rel base best))
    end.

(** *** Normalization passes *)

(** [re.match(r'^(?:[a-zA-Z][a-zA-Z0-9+.-]*:|//)', url)]: a scheme and a
    colon, or two slashes, in front. *)
Definition is_external (url : string) : bool :=
  Py.startswith url "//"
  || match url with
     | String c url' =>
         Py.isalpha_ascii c
         && match (Re.span (fun d => Py.isalpha_ascii d || Py.isdigit d
                                     || Ascii.eqb d "+" || Ascii.eqb d "."
                                     || Ascii.eqb d "-") url').2 with
            | String ":" _ => true
            | _ => false
            end
     | EmptyString => false
     end.

Definition md_repl (fs : FS) (current_file : AbsPath) (m : Re.MdMatch)
    : result string :=
  let bang := Re.md_bang m in
  let url := Py.strip (Re.md_url m) in
  if Py.startswith url "#" then Ok (Re.md_all m)
  else if is_external url then Ok (Re.md_all m)
  else
    target ← find_target_path fs current_file url;
    let suffix := Py.lower (suffix (parse url)) in
    if String.eqb bang "!" || mem suffix IMG_EXTS || mem suffix ASSET_EXTS then
      asset_rel ← resolve_asset_for_text fs current_file url;
      Ok ("![[" +:+ asset_rel +:+ "]]")
    else Ok ("[[" +:+ target +:+ "]]").

(** Convert standard Markdown links to wikilinks where appropriate. *)
Definition normalize_md_links_to_wikilinks (fs : FS) (current_file : AbsPath)
    (text : string) : result string :=
  Re.sub Re.md_link_match Re.md_all (md_repl fs current_file) text.

Definition wiki_repl (fs : FS) (current_file : AbsPath) (m : Re.WikiMatch)
    : result string :=
  let bang := Re.wiki_bang m in
  let body := Re.wiki_body m in
  let '(target_part, alias) := Py.split1 "|" body in
  if String.eqb bang "!" then
    asset_rel ← resolve_asset_for_text fs current_file target_part;
    Ok (match alias with
        | Some a => "![[" +:+ asset_rel +:+ "|" +:+ a +:+ "]]"
        | None => "![[" +:+ asset_rel +:+ "]]"
        end)
  else
    '(text_target, _meta) ← resolve_target_for_text_and_meta fs current_file body;
    if negb (Py.truthy text_target)
       || String.eqb (Py.strip text_target) (Py.strip body)
    then Ok (Re.wiki_all m)
    else Ok (match alias with
             | Some a => "[[" +:+ text_target +:+ "|" +:+ a +:+ "]]"
             | None => "[[" +:+ text_target +:+ "]]"
             end).

(** Normalize wikilinks, preserving alias and anchor. *)
Definition normalize_wikilinks_in_text (fs : FS) (current_file : AbsPath)
    (text : string) : result string :=
  Re.sub Re.wiki_link_match Re.wiki_all (wiki_repl fs current_file) text.

(** Both passes, in the order in which [process_file] applies them. *)
Definition normalize_body (fs : FS) (current_file : AbsPath) (body0 : string)
    : result string :=
  stage1 ← normalize_md_links_to_wikilinks fs current_file body0;
  normalize_wikilinks_in_text fs current_file stage1.

End WithResolver.

End Links.

(** ** [parse.py]: frontmatter and inline tags *)

Module Parse.

(** A value of the frontmatter dictionary: a list under a bare [tags:] or
    [aliases:] key, a string under a [key: value] line. *)
Inductive FmVal : Type :=
  | FmList (l : list string)
  | FmStr (s : string).

Definition all_space (s : string) : bool := String.eqb (Py.lstrip s) "".

(** [FM_START]: three dashes between optional white space. *)
Definition fm_start (line : string) : bool :=
  match Py.lstrip line with
  | String "-" (String "-" (String "-" rest)) => all_space rest
  | _ => false
  end.

(** [FM_END]: three dashes or three dots between optional white space. *)
Definition fm_end (line : string) : bool :=
  match Py.lstrip line with
  | String "-" (String "-" (String "-" rest)) => all_space rest
  | String "." (String "." (String "." rest)) => all_space rest
  | _ => false
  end.

(** A bare list key: [tags] or [aliases], a colon, nothing else. *)
Definition list_key_line (ln : string) : bool :=
  let s := Py.lstrip ln in
  let after k :=
    if Py.startswith s k then
      match Py.lstrip (Py.drop (Py.len k) s) with
      | String ":" rest => all_space rest
      | _ => false
      end
    else false in
  after "tags" || after "aliases".

(** A list item: a dash and a non-empty text; group 1 is the text without
    the white space around it, or the last blank when there is only
    white space after the dash. *)
Definition item_line (ln : string) : option string :=
  match Py.lstrip ln with
  | String "-" r =>
      if String.eqb r "" then None
      else if all_space r then Some (Py.drop (Py.len r - 1) r)
      else Some (Py.strip r)
  | _ => None
  end.

Definition is_key_char (c : ascii) : bool :=
  Py.isdigit c || Py.isalpha_ascii c
  || Ascii.eqb c "_" || Ascii.eqb c "." || Ascii.eqb c "-".

(** A [key: value] line: groups 1 and 2. *)
Definition kv_line (ln : string) : option (string * string) :=
  let '(key, rest) := Re.span is_key_char (Py.lstrip ln) in
  if String.eqb key "" then None
  else match Py.lstrip rest with
       | String ":" v => Some (key, Py.lstrip v)
       | _ => None
       end.

(** The loop over the lines of the frontmatter block. *)
Definition block_step (st : gmap string FmVal * option string) (ln : string)
    : gmap string FmVal * option string :=
  let '(fm, cur_key) := st in
  if list_key_line ln then
    let k := Py.strip (default "" (head (Py.split ":" ln))) in
    (<[k := FmList []]> fm, Some k)
  else
    match item_line ln, cur_key with
    | Some x, Some k =>
        (alter (fun v => match v with FmList l => FmList (l ++ [x]) | _ => v end) k fm,
         cur_key)
    | _, _ =>
        match kv_line ln with
        | Some (k, v) => (<[k := FmStr v]> fm, None)
        | None => (fm, cur_key)
        end
    end.

(** [list(dict.fromkeys(fm.get(k, [])))]: over a string value the
    iteration is over its characters. *)
Definition fm_list (fm : gmap string FmVal) (k : string) : list string :=
  Py.fromkeys
    match fm !! k with
    | Some (FmList l) => l
    | Some (FmStr s) => (fun c => String c EmptyString) <$> String.list_ascii_of_string s
    | None => []
    end.

(** The lines of the block after the opening line, and the index of the
    closing line. *)
Fixpoint take_block (i : nat) (lines : list string) : list string * nat :=
  match lines with
  | [] => ([], i)
  | ln :: rest =>
      if fm_end ln then ([], i)
      else let '(b, j) := take_block (S i) rest in (ln :: b, j)
  end.

Record Parsed : Type := mkParsed {
  fm : gmap string FmVal;
  tags : list string;
  aliases : list string;
  body : string;
  (** [body is not text]: the body was joined anew from the lines. *)
  body_is_new : bool
}.

Definition nl : string := String "010" EmptyString.

(** The scan for inline tags, after the links are blanked out. *)
Definition scan_inline_tags (body : string) : list string :=
  let body_for_tags := Re.sub_const Re.wiki_link_match Re.wiki_all " " body in
  let body_for_tags := Re.sub_const Re.md_link_match Re.md_all " " body_for_tags in
  Re.inline_tags body_for_tags.

Definition parse_frontmatter_and_tags (text : string) : Parsed :=
  let lines := Py.splitlines text in
  let '(fm, tags, aliases, body_start) :=
    match lines with
    | l0 :: rest =>
        if fm_start l0 then
          let '(block, i) := take_block 1 rest in
          let body_start := if Nat.ltb i (length lines) then i + 1 else 0 in
          let fm := (foldl block_step (∅, None) block).1 in
          (fm, fm_list fm "tags", fm_list fm "aliases", body_start)
        else (∅, [], [], 0)
    | [] => (∅, [], [], 0)
    end in
  let body := if Nat.eqb body_start 0 then text
              else Py.join nl (drop body_start lines) in
  let inline := scan_inline_tags body in
  let tags :=
    match inline with
    | [] => tags
    | _ => Py.fromkeys (tags ++ List.filter (fun t => negb (Links.mem t tags)) inline)
    end in
  mkParsed fm tags aliases body (negb (Nat.eqb body_start 0)).

End Parse.

(** ** [parse.py]: headings *)

Module Headings.

Record Heading : Type := mkHeading {
  heading : string;
  level : nat
}.

#[global] Instance Heading_eq_dec : EqDecision Heading.
Proof. solve_decision. Defined.

(** The end of an ATX line after the text: white space, closing hashes,
    white space, and nothing else. *)
Definition closes (s : string) : bool :=
  Parse.all_space (Py.lstrip_char "#" (Py.lstrip s)).

(** The lazy text of an ATX heading: the shortest non-empty text without a
    newline after which the line closes. *)
Fixpoint lazy_text (s : string) : option string :=
  match s with
  | EmptyString => None
  | String c s' =>
      if Ascii.eqb c "010" then None
      else if closes s' then Some (String c EmptyString)
      else String c <$> lazy_text s'
  end.

(** The greedy white space in front of the text: all of it first, then
    one character less at every retry. *)
Fixpoint text_after_space (r : string) (n : nat) : option string :=
  match lazy_text (Py.drop n r) with
  | Some t => Some t
  | None =>
      match n with
      | 0 => None
      | S n' => text_after_space r n'
      end
  end.

(** [ATX.match(line)] with [h] hashes, then with one less at every retry:
    the number of hashes and the text. *)
Fixpoint atx_with (line : string) (h : nat) : option (nat * string) :=
  match h with
  | 0 => None
  | S h' =>
      let r := Py.drop h line in
      match text_after_space r (Py.len (Re.span Py.isspace r).1) with
      | Some t => Some (h, t)
      | None => atx_with line h'
      end
  end.

(** [ATX.match(line)]: one to six hashes, as many as there are first. *)
Definition atx_match (line : string) : option (nat * string) :=
  atx_with line (Nat.min (Py.len (Re.span (Ascii.eqb "#") line).1) 6).

(** [SETEXT_H1] with ["="] and [SETEXT_H2] with ["-"]: three or more of
    the character between optional white space. *)
Definition setext (c : ascii) (line : string) : bool :=
  let '(run, rest) := Re.span (Ascii.eqb c) (Py.lstrip line) in
  Nat.leb 3 (Py.len run) && Parse.all_space rest.

(** The body of the loop of [extract_headings]: the heading of one line,
    if it has one, given the line before it. *)
Definition heading_of (prev line : string) : option Heading :=
  match atx_match line with
  | Some (lvl, text) =>
      let text := Py.strip text in
      if Py.truthy text then Some (mkHeading text lvl) else None
  | None =>
      if setext "=" line then
        let t := Py.strip prev in
        if Py.truthy t then Some (mkHeading t 1) else None
      else if setext "-" line then
        let t := Py.strip prev in
        if Py.truthy t then Some (mkHeading t 2) else None
      else None
  end.

Fixpoint extract_headings_from (prev : string) (lines : list string) : list Heading :=
  match lines with
  | [] => []
  | line :: rest =>
      match heading_of prev line with
      | Some h => h :: extract_headings_from line rest
      | None => extract_headings_from line rest
      end
  end.

Definition extract_headings (lines : list string) : list Heading :=
  extract_headings_from "" lines.

End Headings.

(** ** [indexer.py]: per-file processing and the metadata graph *)

Module Indexer.
Import Pathlib Fs Links.

Record LinkEntry : Type := mkLink {
  link : string;
  relativePath : string;
  cleanLink : option string;
  displayText : option string
}.

#[global] Instance LinkEntry_eq_dec : EqDecision LinkEntry.
Proof. solve_decision. Defined.

Record BacklinkEntry : Type := mkBacklink {
  bl_fileName : string;
  bl_link : string;
  bl_relativePath : string;
  bl_displayText : string
}.

#[global] Instance BacklinkEntry_eq_dec : EqDecision BacklinkEntry.
Proof. solve_decision. Defined.

(** A metadata item. A key that the code leaves out of the dictionary is
    an empty list here, or [None] for [links] and [backlinks]. The
    headings play no part in what follows and are left out. *)
Record Item : Type := mkItem {
  fileName : string;
  item_relativePath : string;
  item_tags : list string;
  item_aliases : list string;
  item_frontmatter : gmap string Parse.FmVal;
  item_links : option (list LinkEntry);
  item_backlinks : option (list BacklinkEntry)
}.

(** [display] under [if display:] *)
Definition truthy_opt (o : option string) : option string :=
  match o with
  | Some s => if Py.truthy s then Some s else None
  | None => None
  end.

Section WithResolver.
Variable R : Resolver.

(** [(R.ROOT / meta_rel_with_md).exists()] *)
Definition meta_exists (fs : FS) (meta_rel_with_md : string) : result bool :=
  exists_unresolved fs (segs (joinpath (mkPath "/" (ROOT R)) (parse meta_rel_with_md))).

(** The body of the loop over the wikilinks of the normalized text: the
    entry of one match, if it has one. *)
Definition wiki_entry (fs : FS) (p : AbsPath) (m : Re.WikiMatch)
    : result (option LinkEntry) :=
  if String.eqb (Re.wiki_bang m) "!" then Ok None
  else
    let body := Re.wiki_body m in
    let '(target_part, display) := Py.split1 "|" body in
    '(_, meta_rel_with_md) ← resolve_target_for_text_and_meta R fs p body;
    match meta_rel_with_md with
    | None => Ok None
    | Some meta =>
        found ← meta_exists fs meta;
        if negb found then Ok None
        else
          match Py.split1 "#" target_part with
          | (_, Some a) =>
              Ok (Some {| link := "#" +:+ a; relativePath := meta;
                          cleanLink := Some (stem (parse meta));
                          displayText := truthy_opt display |})
          | (_, None) =>
              Ok (Some {| link := name (parse target_part); relativePath := meta;
                          cleanLink := None;
                          displayText := truthy_opt display |})
          end
    end.

(** The body of the loop over the Markdown links of the normalized
    text: only pure anchors make an entry. *)
Definition anchor_entry (rel : string) (m : Re.MdMatch) : option LinkEntry :=
  let url := Py.strip (Re.md_url m) in
  if Py.startswith url "#" then
    let text := Py.strip (Re.md_text m) in
    let display := if Py.truthy text then text else Py.lstrip_char "#" url in
    Some {| link := url; relativePath := rel;
            cleanLink := Some (stem (parse rel));
            displayText := Some display |}
  else None.

Definition link_key (L : LinkEntry) : string * string * option string :=
  (link L, relativePath L, displayText L).

(** The deduplication by [(link, relativePath, displayText)]. *)
Fixpoint dedup_links (seen : list (string * string * option string))
    (links : list LinkEntry) : list LinkEntry :=
  match links with
  | [] => []
  | L :: rest =>
      if bool_decide (link_key L ∈ seen) then dedup_links seen rest
      else L :: dedup_links (link_key L :: seen) rest
  end.

(** The text that [process_file] writes, when it writes. *)
Definition rebuilt_text (original : string) (parsed : Parse.Parsed) (norm : string)
    : string :=
  if Parse.body_is_new parsed then
    let head_len := Py.len original - Py.len (Parse.body parsed) in
    Py.take head_len original +:+ norm
  else norm.

(** The link entries that [process_file] collects from the normalized
    text. *)
Definition collect_links (fs : FS) (p : AbsPath) (rel norm : string)
    : result (list LinkEntry) :=
  wiki ← mapM (wiki_entry fs p) (Re.finditer Re.wiki_link_match Re.wiki_all norm);
  let anchors := omap (anchor_entry rel) (Re.finditer Re.md_link_match Re.md_all norm) in
  Ok (dedup_links [] (omap id wiki ++ anchors)).

Definition process_file (fs : FS) (p : AbsPath) : result (Item * FS) :=
  rel ← rel_from_root R p;
  let original := read_text fs p in
  let parsed := Parse.parse_frontmatter_and_tags original in
  let body0 := Parse.body parsed in
  stage1 ← normalize_md_links_to_wikilinks R fs p body0;
  norm ← normalize_wikilinks_in_text R fs p stage1;
  let fs' := if negb (String.eqb norm body0)
             then write_text fs p (rebuilt_text original parsed norm)
             else fs in
  links ← collect_links fs' p rel norm;
  Ok ({| fileName := abs_stem p;
         item_relativePath := rel;
         item_tags := Parse.tags parsed;
         item_aliases := Parse.aliases parsed;
         item_frontmatter := Parse.fm parsed;
         item_links := match links with [] => None | _ => Some links end;
         item_backlinks := None |}, fs').

(** [[process_file(p, R) for p in all_md]] *)
Fixpoint process_all (fs : FS) (all_md : list AbsPath) : result (list Item * FS) :=
  match all_md with
  | [] => Ok ([], fs)
  | p :: rest =>
      '(it, fs1) ← process_file fs p;
      '(its, fs2) ← process_all fs1 rest;
      Ok (it :: its, fs2)
  end.

End WithResolver.

(** *** Backlinks *)

Definition links_of (it : Item) : list LinkEntry := default [] (item_links it).

(** [forward.setdefault(k, []).append(src)] *)
Definition forward_add (forward : gmap string (list string)) (k src : string)
    : gmap string (list string) :=
  <[k := default [] (forward !! k) ++ [src]]> forward.

(** The first loop: target path to the paths of the files that link to
    it, one for every link entry. *)
Definition build_forward (items : list Item) : gmap string (list string) :=
  foldl (fun forward it =>
           foldl (fun forward ln => forward_add forward (relativePath ln) (item_relativePath it))
                 forward (links_of it))
        ∅ items.

(** [it["backlinks"] = b] *)
Definition with_backlinks (it : Item) (b : option (list BacklinkEntry)) : Item :=
  {| fileName := fileName it;
     item_relativePath := item_relativePath it;
     item_tags := item_tags it;
     item_aliases := item_aliases it;
     item_frontmatter := item_frontmatter it;
     item_links := item_links it;
     item_backlinks := b |}.

Definition backlink_entry (this_name src : string) : BacklinkEntry :=
  {| bl_fileName := stem (parse src);
     bl_link := this_name;
     bl_relativePath := src;
     bl_displayText := this_name |}.

(** The second loop, for one item. *)
Definition add_backlinks (forward : gmap string (list string)) (it : Item) : Item :=
  match default [] (forward !! item_relativePath it) with
  | [] => it
  | srcs =>
      let this_name := stem (parse (item_relativePath it)) in
      with_backlinks it (Some (backlink_entry this_name <$> srcs))
  end.

Definition invert (items : list Item) : list Item :=
  add_backlinks (build_forward items) <$> items.

(** [build_metadata], for a resolved [root]: the items in the order of the
    JSON document, and the file system after the rewrites. *)
Definition build_metadata (fs : FS) (root : AbsPath) (shortest_mode : Mode)
    : result (list Item * FS) :=
  let R := init fs root shortest_mode in
  let all_md := List.filter is_md (rglob_files fs root) in
  '(items, fs') ← process_all R fs all_md;
  Ok (invert items, fs').

End Indexer.

(** ** [deploy/webhook.py] *)

Module Webhook.

Definition DEPLOY : string := "./deploy/deploy.sh".

Definition is_ascii (s : string) : bool :=
  forallb (fun c => (Py.ord c <? 128)%N) (String.list_ascii_of_string s).

(** [hmac.compare_digest(a, b)] on two [str]: only ASCII text can be
    compared. *)
Definition compare_digest (a b : string) : result bool :=
  if is_ascii a && is_ascii b then Ok (String.eqb a b) else Raise TypeError.

(** What the handler reads of a request: the header
    [X-Hub-Signature-256], whether the content type is one of the form
    types, and the body as it was sent. *)
Record Request : Type := mkRequest {
  req_signature : option string;
  req_is_form : bool;
  req_body : string
}.

(** [request.data]: the body, unless it was parsed as form data, after
    which it is empty. *)
Definition request_data (r : Request) : string :=
  if req_is_form r then "" else req_body r.

(** What one request does: the status of the answer and the commands
    that were started. *)
Record Outcome : Type := mkOutcome {
  status : nat;
  launched : list string
}.

Section WithSecret.
(** [hmac.new(key, msg, hashlib.sha256).hexdigest()] *)
Variable hmac_sha256_hexdigest : string -> string -> string.

(** [os.environ.get("GITHUB_WEBHOOK_SECRET")] *)
Variable env_secret : option string.

(** [subprocess.Popen(args)]: whether the command could be started, which
    it cannot when the script is missing or may not be executed. *)
Variable popen : list string -> result unit.

Definition SECRET : string := default "" env_secret.

Definition verify (sig_header : option string) (body : string) : result bool :=
  if negb (Py.truthy SECRET) then Ok false
  else
    match sig_header with
    | None => Ok false
    | Some sig =>
        if negb (Py.truthy sig) || negb (Py.startswith sig "sha256=") then Ok false
        else
          let digest := "sha256=" +:+ hmac_sha256_hexdigest SECRET body in
          compare_digest digest sig
    end.

(** The handler of [POST /webhook]. An exception that leaves the handler
    is answered with status 500. *)
Definition webhook (r : Request) : Outcome :=
  match verify (req_signature r) (request_data r) with
  | Ok true =>
      match popen [DEPLOY] with
      | Ok _ => mkOutcome 200 [DEPLOY]
      | Raise _ => mkOutcome 500 []
      end
  | Ok false => mkOutcome 403 []
  | Raise _ => mkOutcome 500 []
  end.

End WithSecret.

End Webhook.

(** ** Example vaults *)

Module Examples.
Import Pathlib Fs Links.

Definition nl : string := Parse.nl.

(** A note [x.md] in the root, and a folder [d/x] next to the note
    [d/cur.md] that refers to [x]. *)
Definition folder_vault : FS :=
  mkFS [ (["v"; "x.md"], "about x");
         (["v"; "d"; "cur.md"], "see [[x]]");
         (["v"; "d"; "x"; "img.png"], "") ] [].
Definition folder_R : Resolver := init folder_vault ["v"] Vault.
Definition folder_cur : AbsPath := ["v"; "d"; "cur.md"].

(** A vault with one note and nothing to resolve to. *)
Definition lone_vault : FS := mkFS [ (["v"; "cur.md"], "") ] [].
Definition lone_R : Resolver := init lone_vault ["v"] Vault.
Definition lone_cur : AbsPath := ["v"; "cur.md"].

(** Two notes with the stem [x] in sibling folders. *)
Definition twin_vault : FS :=
  mkFS [ (["v"; "cur.md"], "");
         (["v"; "d"; "a"; "x.md"], "");
         (["v"; "d"; "b"; "x.md"], "") ] [].
Definition twin_R : Resolver := init twin_vault ["v"] Vault.

(** Two notes with the stem [x], the path of one a suffix of the other. *)
Definition nested_vault : FS :=
  mkFS [ (["v"; "a"; "x.md"], ""); (["v"; "b"; "a"; "x.md"], "") ] [].
Definition nested_R : Resolver := init nested_vault ["v"] Vault.

(** A note with a frontmatter block, a Markdown link and a final newline. *)
Definition fm_header : string := "---" +:+ nl +:+ "a: b" +:+ nl +:+ "---" +:+ nl.
Definition fm_text : string := fm_header +:+ "[x](y)" +:+ nl.
Definition fm_note : AbsPath := ["v"; "n.md"].
Definition fm_vault : FS := mkFS [ (fm_note, fm_text) ] [].
Definition fm_R : Resolver := init fm_vault ["v"] Vault.

(** A note that links to [B] twice, with and without an alias. *)
Definition twice_vault : FS :=
  mkFS [ (["v"; "A.md"], "[[B]] and [[B|the b]]"); (["v"; "B.md"], "") ] [].

(** A note that refers to a file above the root of the vault. *)
Definition outside_vault : FS :=
  mkFS [ (["v"; "cur.md"], "[[../x]]"); (["x.md"], "") ] [].

(** A note that refers to [B], where [B.md] is a folder. *)
Definition folder_md_vault : FS :=
  mkFS [ (["v"; "cur.md"], "[[B]]"); (["v"; "B.md"; "pic.png"], "") ] [].

(** A note in [notes/sub] and an image in [assets]. *)
Definition asset_vault : FS :=
  mkFS [ (["v"; "notes"; "sub"; "a.md"], "![[img.png]]");
         (["v"; "assets"; "img.png"], "") ] [].
Definition asset_R : Resolver := init asset_vault ["v"] Vault.
Definition asset_note : AbsPath := ["v"; "notes"; "sub"; "a.md"].

(** A vault whose directory walk yields [b.md] before [a.md]. *)
Definition unsorted_vault : FS :=
  mkFS [ (["v"; "b.md"], ""); (["v"; "a.md"], "") ] [].

(** The vault of the worked example: [Root.md] links to [Sub/Child.md]. *)
Definition worked_vault : FS :=
  mkFS [ (["v"; "Notes"; "A.md"], "[text](#Intro)");
         (["v"; "Root.md"], "[Link](Sub/Child.md)");
         (["v"; "Sub"; "Child.md"], "") ] [].

(** The items of the vault in which [A.md] links to [B] twice, the second
    of them, and the file system after the run. *)
Definition twice_run : list Indexer.Item * FS :=
  match Indexer.build_metadata twice_vault ["v"] Vault with
  | Ok r => r
  | Raise _ => ([], twice_vault)
  end.
Definition twice_items : list Indexer.Item := twice_run.1.
Definition twice_B : Indexer.Item :=
  default (Indexer.mkItem "" "" [] [] ∅ None None) (twice_items !! 1).


(** A signature header with the right prefix and a character outside
    ASCII. *)
Definition latin_sig : string := "sha256=" +:+ String (ascii_of_N 233) EmptyString.

End Examples.

(** ** Notions used in the statements *)

Module Props.
Import Pathlib Fs Links Indexer.

(** A reference that [find_target_path] reads as it stands: not empty, no
    anchor, no white space around it, in the normal form of a relative
    path, and without a Markdown extension. *)
Definition canonical_ref (s : string) : bool :=
  Py.truthy s && negb (Py.contains "#" s) && String.eqb (Py.strip s) s
  && String.eqb (as_posix (candidate_of s)) s && String.eqb (strip_md_ext s) s.

(** A path within the limits of the operating system: no segment longer
    than [NAME_MAX] bytes, and the whole shorter than [PATH_MAX]. *)
Definition within_limits (l : list string) : bool :=
  forallb (fun s => Nat.leb (byte_len s) NAME_MAX) l
  && Nat.ltb (path_len l) PATH_MAX.

(** The suffix [s] is accepted for the target [t]: it is one of the
    candidate suffixes, and among the extension-stripped paths of the
    files that share the name or stem of the target, the only one that
    ends with it is [t] itself. *)
Definition accepted (R : Resolver) (t s : string) : Prop :=
  s ∈ suffix_candidates (parts (parse t))
  ∧ (∀ p c, p ∈ _collect_conflicts R (name (parse t)) →
            rel_noext R p = Ok c → suffix_matches s c = true → c = t)
  ∧ (∃ p, p ∈ _collect_conflicts R (name (parse t))
          ∧ rel_noext R p = Ok t ∧ suffix_matches s t = true).

(** [s] is the first accepted suffix of [t], in the order of the
    candidates: by the number of segments, then by the length. *)
Definition first_accepted (R : Resolver) (t s : string) : Prop :=
  ∃ before after,
    suffix_candidates (parts (parse t)) = before ++ s :: after
    ∧ accepted R t s
    ∧ Forall (λ c, ¬ accepted R t c) before.

(** The name [n] matches the one-segment pattern [pat] as [rglob] reads
    it: by [fnmatch] when the pattern has a wildcard character, and as
    the same name otherwise. The patterns that select directories match
    no file. *)
Definition segment_matches (pat n : string) : bool :=
  if bool_decide (pat ∈ [""; "."; ".."; "**"]) then false
  else if Glob.is_wildcard pat then Glob.fnmatch pat n
  else String.eqb n pat.

(** The file [p] has the name [nm] that was typed for an attachment:
    that name when it has a dot, and that name followed by one of the
    attachment extensions when it has none. *)
Definition matches_name (nm : string) (p : AbsPath) : bool :=
  if Py.contains "." nm then segment_matches nm (abs_name p)
  else existsb (fun ext => segment_matches (nm +:+ ext) (abs_name p)) ASSET_EXTS.

(** A regular file below the root of the vault that has the name that
    was typed for an attachment. *)
Definition asset_match (R : Resolver) (fs : FS) (nm : string) (p : AbsPath) : Prop :=
  is_file fs p = true ∧ strict_prefix (ROOT R) p = true ∧ matches_name nm p = true.

(** The order of the ranks, read from [rank_ltb]: by the first
    components, then the second, then the third. *)
Definition rank_le (a b : nat * nat * string) : Prop :=
  a.1.1 < b.1.1
  ∨ (a.1.1 = b.1.1 ∧ (a.1.2 < b.1.2 ∨ (a.1.2 = b.1.2 ∧ String.le a.2 b.2))).

(** The sources of the target path [k], as a comprehension: the path of
    [A] once for every entry of the link list of [A] that points to [k],
    for the items [A] in their order. *)
Definition sources_of (items : list Item) (k : string) : list string :=
  it ← items;
  ln ← links_of it;
  if String.eqb (relativePath ln) k then [item_relativePath it] else [].

(** The backlinks that the comprehension gives to an item. *)
Definition backlinks_of (items : list Item) (B : Item) : option (list BacklinkEntry) :=
  match sources_of items (item_relativePath B) with
  | [] => None
  | srcs => Some (backlink_entry (stem (parse (item_relativePath B))) <$> srcs)
  end.

(** The path that a relative metadata path names, below [/]. *)
Definition named_path (R : Resolver) (rp : string) : AbsPath :=
  normalize (segs (joinpath (mkPath "/" (ROOT R)) (parse rp))).

(** [rp] names a regular file below the root of the vault that has a
    Markdown extension. *)
Definition names_note_under_root (R : Resolver) (fs : FS) (rp : string) : bool :=
  let p := named_path R rp in
  is_file fs p && strict_prefix (ROOT R) p && is_md p.

(** The paths of the items, in the order of the document. *)
Definition item_paths (items : list Item) : list string :=
  item_relativePath <$> items.

(** The link lists of the items, in the order of the document. *)
Definition link_lists (items : list Item) : list (option (list LinkEntry)) :=
  item_links <$> items.

(** A list of resolved paths is in the order of [sorted]. *)
Fixpoint is_sorted (l : list AbsPath) : bool :=
  match l with
  | a :: (b :: _) as l' => negb (path_ltb b a) && is_sorted l'
  | _ => true
  end.

End Props.

(** ** Further notions and example vaults *)

Module Cases.
Import Pathlib Fs Links Indexer.

(** Every character of [s] satisfies [f]. *)
Fixpoint str_all (f : ascii → bool) (s : string) : bool :=
  match s with
  | EmptyString => true
  | String c s' => f c && str_all f s'
  end.

(** [k] hashes. *)
Fixpoint hashes (k : nat) : string :=
  match k with
  | 0 => EmptyString
  | S k' => String "#" (hashes k')
  end.

(** Neither white space nor a hash. *)
Definition is_plain (c : ascii) : bool := negb (Py.isspace c) && negb (Ascii.eqb c "#").

(** The last character of [t] is plain. *)
Fixpoint ends_plain (t : string) : bool :=
  match t with
  | EmptyString => false
  | String c EmptyString => is_plain c
  | String _ t' => ends_plain t'
  end.

(** A heading text as it is written on an ATX line: no newline in it, and
    a plain character first and last. *)
Definition plain_text (t : string) : bool :=
  negb (Py.contains "010" t)
  && match t with String a _ => is_plain a | EmptyString => false end
  && ends_plain t.

(** The order in which [sorted] leaves two paths: the second is not below
    the first. *)
Definition path_le (a b : AbsPath) : Prop := path_ltb b a = false.

(** A regular Markdown file below the root. *)
Definition scanned (fs : FS) (root p : AbsPath) : Prop :=
  strict_prefix root p = true ∧ is_file fs p = true ∧ is_md p = true.

(** The scanned note [p] has the name of the candidate, with or without
    its Markdown extension, as its name or as its stem. *)
Definition answers (fs : FS) (root : AbsPath) (candidate : PurePath) (p : AbsPath) : Prop :=
  scanned fs root p
  ∧ (abs_name p = name candidate ∨ abs_stem p = name candidate
     ∨ abs_name p = strip_md_ext (name candidate)
     ∨ abs_stem p = strip_md_ext (name candidate)).

(** The resolver with another mode. *)
Definition with_mode (R : Resolver) (m : Mode) : Resolver :=
  {| ROOT := ROOT R; mode := m; ALL_MD := ALL_MD R; BASENAME_INDEX := BASENAME_INDEX R |}.

(** What a wikilink shows after its target: the alias behind a bar. *)
Definition alias_suffix (alias : option string) : string :=
  match alias with
  | Some a => "|" +:+ a
  | None => ""
  end.

(** Both passes return every link of the body as they found it. *)
Definition stable_body (R : Resolver) (fs : FS) (p : AbsPath) (body : string) : Prop :=
  Forall (λ m, md_repl R fs p m = Ok (Re.md_all m))
         (Re.finditer Re.md_link_match Re.md_all body)
  ∧ Forall (λ m, wiki_repl R fs p m = Ok (Re.wiki_all m))
           (Re.finditer Re.wiki_link_match Re.wiki_all body).

(** The path whose existence decides whether a wikilink with the
    metadata path [meta] gets a link entry: the root joined with it. *)
Definition entry_path (R : Resolver) (meta : string) : list string :=
  segs (joinpath (mkPath "/" (ROOT R)) (parse meta)).

(** The metadata path of every wikilink of the body, joined with the
    root, is within the limits of the operating system. *)
Definition links_within_limits (R : Resolver) (fs : FS) (p : AbsPath) (body : string)
    : Prop :=
  Forall (λ m, ∀ t meta,
            resolve_target_for_text_and_meta R fs p (Re.wiki_body m) = Ok (t, Some meta) →
            Props.within_limits (entry_path R meta) = true)
         (Re.finditer Re.wiki_link_match Re.wiki_all body).

(** The body of the note [p], as the parser returns it. *)
Definition note_body (fs : FS) (p : AbsPath) : string :=
  Parse.body (Parse.parse_frontmatter_and_tags (read_text fs p)).

(** The worked vault after its first run: the Markdown link of [Root.md]
    has become a wikilink. *)
Definition settled_vault : FS :=
  mkFS [ (["v"; "Notes"; "A.md"], "[text](#Intro)");
         (["v"; "Root.md"], "[[Sub/Child]]");
         (["v"; "Sub"; "Child.md"], "") ] [].

(** A note with an image next to it and another one in a folder. *)
Definition near_vault : FS :=
  mkFS [ (["v"; "n"; "a.md"], "![[img.png]]");
         (["v"; "assets"; "img.png"], "");
         (["v"; "n"; "img.png"], "") ] [].
Definition near_R : Resolver := init near_vault ["v"] Vault.
Definition near_note : AbsPath := ["v"; "n"; "a.md"].

(** A line: a text without a line boundary in it. *)
Definition is_line (l : string) : bool :=
  str_all (λ c, negb (Py.is_linebreak c)) l.

(** The text of some lines, each closed by a newline. *)
Definition unlines (lines : list string) : string :=
  foldr (λ l acc, l +:+ Parse.nl +:+ acc) EmptyString lines.

(** A digest function for the examples of the webhook: it returns the
    same hexadecimal text for every key and message. *)
Definition fixed_digest (key msg : string) : string := "00ff".

(** A machine on which every command can be started. *)
Definition starts (args : list string) : result unit := Ok tt.

(** A character that [fnmatch] reads as itself. *)
Definition is_literal (c : ascii) : bool :=
  negb (Ascii.eqb c "*") && negb (Ascii.eqb c "?") && negb (Ascii.eqb c "[").

(** A name without a wildcard character. *)
Definition literal (n : string) : bool := str_all is_literal n.

(** A segment that a path can be written with and read back from: not
    empty, not [.], and without a slash. *)
Definition segment_ok (x : string) : bool :=
  negb (String.eqb x "") && negb (String.eqb x ".") && negb (Py.contains "/" x).

(** A segment of a resolved path on a POSIX file system, without a
    backslash in it. *)
Definition plain_segment (x : string) : bool :=
  segment_ok x && negb (String.eqb x "..") && negb (Py.contains "\" x).

Definition plain_path (p : AbsPath) : bool := forallb plain_segment p.

(** No lookup of the name [pat] in a directory that the search from
    [root] visits leaves the limits of the operating system. *)
Definition searchable (fs : FS) (root : AbsPath) (pat : string) : Prop :=
  Forall (λ d, Props.within_limits (d ++ [pat]) = true) (dirs_from fs root).

(** The segments of the relative path from the directory [start] to [p]:
    up to the common ancestor, then down. *)
Definition rel_segments (p start : AbsPath) : list string :=
  replicate (length start - common_prefix_len start p) ".."
  ++ drop (common_prefix_len start p) p.

End Cases.

(** * Properties *)

(** A case split over the 256 characters, closing what computes. *)
Ltac char_cases c := destruct c as [[] [] [] [] [] [] [] []]; try done.

(** ** Lists without repetitions *)

Section Fromkeys.
Context {A : Type} `{EqDecision A}.

Lemma elem_of_dedup_go (seen l : list A) (x : A) :
  x ∈ Py.dedup_go seen l ↔ x ∈ l ∧ x ∉ seen.
Proof.
  revert seen. induction l as [|y l IH]; intros seen; simpl.
  - split; [intros H%elem_of_nil; done | intros [H%elem_of_nil _]; done].
  - case_bool_decide as Hy.
    + rewrite IH. split.
      * intros [? ?]. split; [by right | done].
      * intros [[->|?]%elem_of_cons ?]; [done | by split].
    + rewrite elem_of_cons, IH. split.
      * intros [->|[? Hn]]; [split; [by left | done] |].
        split; [by right |]. intros ?. apply Hn. by right.
      * intros [[->|?]%elem_of_cons Hn]; [by left |].
        destruct (decide (x = y)) as [->|Hne]; [by left | right].
        split; [done |]. by intros [?|?]%elem_of_cons.
Qed.

Lemma elem_of_fromkeys (l : list A) (x : A) : x ∈ Py.fromkeys l ↔ x ∈ l.
Proof.
  unfold Py.fromkeys. rewrite elem_of_dedup_go. split; [by intros [? _] |].
  intros ?. split; [done | apply not_elem_of_nil].
Qed.

Lemma NoDup_dedup_go (seen l : list A) : NoDup (Py.dedup_go seen l).
Proof.
  revert seen. induction l as [|y l IH]; intros seen; simpl; [constructor |].
  case_bool_decide; [apply IH |].
  constructor; [| apply IH].
  rewrite elem_of_dedup_go. intros [_ Hn]. apply Hn. by left.
Qed.

Lemma NoDup_fromkeys (l : list A) : NoDup (Py.fromkeys l).
Proof. apply NoDup_dedup_go. Qed.

(** Two different elements make a list of keys longer than one. *)
Lemma fromkeys_two (l : list A) (x y : A) :
  x ≠ y → x ∈ l → y ∈ l → length (Py.fromkeys l) ≠ 1.
Proof.
  intros Hne Hx%elem_of_fromkeys Hy%elem_of_fromkeys.
  destruct (Py.fromkeys l) as [|a [|b k]]; simpl; [done | | done].
  apply list_elem_of_singleton in Hx, Hy. congruence.
Qed.
End Fromkeys.

(** A list without repetition whose elements are all [p] is [[p]]. *)
Lemma NoDup_all_equal {A} (l : list A) (p : A) :
  NoDup l → p ∈ l → (∀ q, q ∈ l → q = p) → l = [p].
Proof.
  intros Hnd Hp Hall. destruct l as [|a [|b l]].
  - by apply elem_of_nil in Hp.
  - f_equal. apply Hall. by left.
  - exfalso. apply NoDup_cons in Hnd as [Hnotin _]. apply Hnotin.
    rewrite (Hall a) by (by left). rewrite (Hall b) by (right; by left). by left.
Qed.

(** The first element that [find] returns. *)
Lemma find_first {A} (f : A → bool) (l : list A) :
  match List.find f l with
  | Some c => ∃ before after, l = before ++ c :: after ∧ f c = true
                              ∧ Forall (λ x, f x = false) before
  | None => Forall (λ x, f x = false) l
  end.
Proof.
  induction l as [|x l IH]; simpl; [constructor |].
  destruct (f x) eqn:Hx.
  - exists [], l. by repeat split.
  - destruct (List.find f l) as [c|].
    + destruct IH as (before & after & -> & Hc & Hb).
      exists (x :: before), after. repeat split; [done |]. by constructor.
    + by constructor.
Qed.

(** ** The error monad *)

Lemma mapM_Ok {A B} (f : A → result B) (l : list A) (k : list B) :
  mapM f l = Ok k → Forall2 (λ x y, f x = Ok y) l k.
Proof.
  revert k. induction l as [|x l IH]; intros k; simpl.
  - intros [= <-]. constructor.
  - destruct (f x) as [y|e] eqn:Hx; simpl; [| discriminate].
    destruct (mapM f l) as [k'|e] eqn:Hl; simpl; [| discriminate].
    intros [= <-]. constructor; [done | by apply IH].
Qed.

Lemma mapM_Ok_elem {A B} (f : A → result B) (l : list A) (k : list B) (y : B) :
  mapM f l = Ok k → y ∈ k ↔ ∃ x, x ∈ l ∧ f x = Ok y.
Proof.
  intros H%mapM_Ok. induction H as [|x y' l k Hxy _ IH].
  - split; [intros ?%elem_of_nil; done | intros (? & ?%elem_of_nil & _); done].
  - rewrite elem_of_cons, IH. split.
    + intros [->|(x' & ? & ?)]; [exists x | exists x']; (split; [| done]);
        [by left | by right].
    + intros (x' & [->|?]%elem_of_cons & Hx').
      * left. congruence.
      * right. by exists x'.
Qed.

(** ** The existence test and the limits of the operating system *)

Section Limits.
Import Pathlib Fs Props.
Variable fs : FS.



(** Without a segment over [NAME_MAX], the lookup returns. *)
Lemma lookup_within (cur : AbsPath) (l : list string) :
  forallb (λ s, Nat.leb (byte_len s) NAME_MAX) l = true →
  ∃ b, lookup fs cur l = Ok b.
Proof.
  revert cur. induction l as [|s l IH]; intros cur; simpl; [by eexists |].
  intros [Hs Hl]%andb_prop.
  destruct (is_dir fs cur); [| by eexists].
  destruct (String.eqb s ".."); [by apply IH |].
  destruct (present fs (cur ++ [s])); [by apply IH |].
  apply Nat.leb_le in Hs.
  destruct (Nat.ltb_spec NAME_MAX (byte_len s)); [lia | by eexists].
Qed.

Lemma stat_exists_within (l : list string) :
  within_limits l = true → ∃ b, stat_exists fs l = Ok b.
Proof.
  unfold within_limits, stat_exists. intros [Hseg Hlen]%andb_prop.
  destruct (existsb has_nul l); [by eexists |].
  apply Nat.ltb_lt in Hlen.
  destruct (Nat.leb_spec PATH_MAX (path_len l)); [lia |].
  by apply lookup_within.
Qed.

(** What the lookup finds along a path without [".."] is there. *)
Lemma lookup_true (cur : AbsPath) (l : list string) :
  Forall (λ s, s ≠ "..") l → lookup fs cur l = Ok true → present fs (cur ++ l) = true.
Proof.
  revert cur. induction l as [|s l IH]; intros cur Hl; simpl.
  - rewrite app_nil_r. by intros [= ->].
  - apply Forall_cons in Hl as [Hs Hl].
    destruct (is_dir fs cur); [| discriminate].
    destruct (String.eqb_spec s "..") as [|_]; [done |].
    destruct (present fs (cur ++ [s])).
    + intros H. apply (IH _ Hl) in H. by rewrite <- app_assoc in H.
    + destruct (Nat.ltb NAME_MAX (byte_len s)); discriminate.
Qed.

Lemma Forall_removelast {A} (P : A → Prop) (l : list A) :
  Forall P l → Forall P (removelast l).
Proof.
  induction 1 as [|x l Hx Hl IH]; [constructor |].
  destruct l as [|y l]; [constructor |].
  change (removelast (x :: y :: l)) with (x :: removelast (y :: l)).
  by constructor.
Qed.

(** A resolved path has no [".."] left. *)
Lemma normalize_no_parent (l : list string) : Forall (λ s, s ≠ "..") (normalize l).
Proof.
  unfold normalize.
  assert (H : ∀ acc, Forall (λ s, s ≠ "..") acc →
          Forall (λ s, s ≠ "..")
            (foldl (λ acc s, if String.eqb s ".." then removelast acc else acc ++ [s])
                   acc l)).
  { induction l as [|s l IH]; intros acc Hacc; simpl; [done |].
    apply IH. destruct (String.eqb_spec s "..") as [->|Hs].
    - by apply Forall_removelast.
    - apply Forall_app. split; [done |]. by constructor. }
  apply H. constructor.
Qed.

(** The existence test on a resolved path answers [True] exactly for
    what is there. *)
Lemma exists_true_iff (base : AbsPath) (p : PurePath) :
  exists_ fs (join_resolve base p) = Ok true ↔ present fs (join_resolve base p) = true.
Proof.
  unfold exists_. destruct (present fs (join_resolve base p)) eqn:Hp; [done |].
  split; [| discriminate]. unfold stat_exists.
  destruct (existsb has_nul _); [discriminate |].
  destruct (Nat.leb PATH_MAX _); [discriminate |].
  intros H. apply lookup_true in H; [| apply normalize_no_parent].
  simpl in H. congruence.
Qed.

(** Within the limits, it answers [False] for what is not there. *)
Lemma exists_within (base : AbsPath) (p : PurePath) :
  within_limits (join_resolve base p) = true →
  present fs (join_resolve base p) = false →
  exists_ fs (join_resolve base p) = Ok false.
Proof.
  intros Hlim Hp.
  destruct (stat_exists_within _ Hlim) as [b Hb].
  destruct b.
  - assert (H : exists_ fs (join_resolve base p) = Ok true)
      by (unfold exists_; by rewrite Hp).
    apply exists_true_iff in H. congruence.
  - unfold exists_. by rewrite Hp.
Qed.

End Limits.

Lemma mapM_Ok_elem_l {A B} (f : A → result B) (l : list A) (k : list B) (x : A) :
  mapM f l = Ok k → x ∈ l → ∃ y, f x = Ok y ∧ y ∈ k.
Proof.
  intros H%mapM_Ok. induction H as [|x' y' l k Hxy _ IH].
  - by intros ?%elem_of_nil.
  - intros [->|Hx]%elem_of_cons.
    + exists y'. split; [done | by left].
    + destruct (IH Hx) as (y & ? & ?). exists y. split; [done | by right].
Qed.

(** ** Resolution of note links *)

Section Resolution.
Import Pathlib Fs Links Props.
Variable R : Resolver.
Variable fs : FS.
Variable current_file : AbsPath.

(** The steps of [find_target_path] for a target that is not empty. *)
Lemma find_target_path_steps (raw : string) :
  let typed := Py.strip (Py.split1 "#" raw).1 in
  let anchor := (Py.split1 "#" raw).2 in
  let candidate := candidate_of typed in
  typed ≠ "" →
  find_target_path R fs current_file raw
  = (abs_path ← resolve (parent current_file) candidate;
     found ← exists_ fs abs_path;
     out ← (if (found : bool) then rel_noext R abs_path
            else match basename_matches R candidate with
                 | [u] => rel_noext R u
                 | _ => Ok (strip_md_ext (as_posix candidate))
                 end);
     Ok (with_anchor out anchor)).
Proof.
  intros typed anchor candidate Hne. unfold find_target_path.
  subst typed anchor candidate.
  destruct (Py.split1 "#" raw) as [raw1 a]. simpl in *.
  by destruct (String.eqb_spec (Py.strip raw1) "").
Qed.

(** The fallback of [find_target_path]: the typed path, as it stands. *)
Lemma find_target_path_literal (raw : string) :
  let typed := Py.strip (Py.split1 "#" raw).1 in
  typed ≠ "" →
  existsb has_nul (segs (candidate_of typed)) = false →
  exists_ fs (join_resolve (parent current_file) (candidate_of typed)) = Ok false →
  length (basename_matches R (candidate_of typed)) ≠ 1 →
  find_target_path R fs current_file raw
  = Ok (with_anchor (strip_md_ext (as_posix (candidate_of typed))) (Py.split1 "#" raw).2).
Proof.
  intros typed Hne Hnul Hex Hlen.
  rewrite find_target_path_steps by done. fold typed.
  unfold resolve. rewrite Hnul. simpl. rewrite Hex. simpl.
  destruct (basename_matches R (candidate_of typed)) as [|u [|u' l]]; done.
Qed.

(** A canonical reference with no file at its place next to the current
    file, and whose name the index does not decide, resolves to itself. *)
Lemma find_target_path_canonical (s : string) :
  canonical_ref s = true →
  existsb has_nul (segs (candidate_of s)) = false →
  exists_ fs (join_resolve (parent current_file) (candidate_of s)) = Ok false →
  length (basename_matches R (candidate_of s)) ≠ 1 →
  find_target_path R fs current_file s = Ok s.
Proof.
  unfold canonical_ref. intros Hc Hnul Hex Hlen.
  repeat (apply andb_prop in Hc as [Hc ?]).
  assert (Hsplit : Py.split1 "#" s = (s, None)).
  { clear -H2. apply negb_true_iff in H2.
    induction s as [|c s' IH]; simpl in *; [done |].
    apply orb_false_iff in H2 as [-> Hs']. by rewrite (IH Hs'). }
  apply String.eqb_eq in H, H0, H1.
  assert (Htyped : Py.strip (Py.split1 "#" s).1 = s) by (by rewrite Hsplit).
  rewrite find_target_path_literal; rewrite ?Htyped; try done.
  - rewrite Hsplit. simpl. by rewrite H0, H.
  - intros ->. done.
Qed.

Lemma unique_filter (conflicts : list string) (t s : string) :
  unique conflicts t s = true → List.filter (suffix_matches s) conflicts = [t].
Proof.
  unfold unique.
  destruct (List.filter (suffix_matches s) conflicts) as [|m [|m' l]]; try done.
  by intros ->%String.eqb_eq.
Qed.

(** The test [unique] of the code is the acceptance of the suffix. *)
Lemma unique_accepted (t c : string) (l : list string) :
  mapM (rel_noext R) (_collect_conflicts R (name (parse t))) = Ok l →
  c ∈ suffix_candidates (parts (parse t)) →
  unique (Py.fromkeys l) t c = true ↔ accepted R t c.
Proof.
  intros Hl Hc. split.
  - intros Hu%unique_filter. unfold accepted.
    split; [done |]. split.
    + intros p c' Hp Hpc Hm.
      assert (Hin : c' ∈ List.filter (suffix_matches c) (Py.fromkeys l)).
      { apply list_elem_of_In, filter_In. split; [| done].
        apply list_elem_of_In, elem_of_fromkeys.
        apply (mapM_Ok_elem _ _ _ _ Hl). eauto. }
      rewrite Hu in Hin. by apply list_elem_of_singleton in Hin.
    + assert (Hin : t ∈ List.filter (suffix_matches c) (Py.fromkeys l))
        by (rewrite Hu; by left).
      apply list_elem_of_In, filter_In in Hin as [Hin%list_elem_of_In Hm].
      rewrite elem_of_fromkeys in Hin.
      apply (mapM_Ok_elem _ _ _ _ Hl) in Hin as (p & ? & ?). eauto.
  - intros (_ & Honly & p & Hp & Hpt & Hm). unfold unique.
    rewrite (NoDup_all_equal (List.filter (suffix_matches c) (Py.fromkeys l)) t).
    + apply String.eqb_refl.
    + apply NoDup_ListNoDup, List.NoDup_filter, NoDup_ListNoDup, NoDup_fromkeys.
    + apply list_elem_of_In, filter_In. split; [| done].
      apply list_elem_of_In, elem_of_fromkeys, (mapM_Ok_elem _ _ _ _ Hl). eauto.
    + intros q [Hq%list_elem_of_In Hqm]%list_elem_of_In%filter_In.
      apply elem_of_fromkeys, (mapM_Ok_elem _ _ _ _ Hl) in Hq as (p' & Hp' & Hq).
      by eapply Honly.
Qed.

(** What [_shortest_suffix_from_vault] returns: the bare name of a target
    with one segment; else the first accepted suffix; else, when no
    suffix is accepted, the target itself. *)
Lemma shortest_suffix_cases (t s : string) :
  _shortest_suffix_from_vault R t = Ok s →
  (length (parts (parse t)) = 1 ∧ s = name (parse t))
  ∨ (length (parts (parse t)) ≠ 1 ∧ first_accepted R t s)
  ∨ (length (parts (parse t)) ≠ 1 ∧ s = t ∧ ∀ c, ¬ accepted R t c).
Proof.
  unfold _shortest_suffix_from_vault, conflict_noext.
  destruct (mapM (rel_noext R) (_collect_conflicts R (name (parse t))))
    as [l|e] eqn:Hl; simpl; [| discriminate].
  destruct (Nat.eqb_spec (length (parts (parse t))) 1) as [Hlen|Hlen].
  { intros [= <-]. by left. }
  pose proof (unique_accepted t) as Hua.
  destruct (suffix_candidates (parts (parse t))) as [|c0 rest] eqn:Hcands;
    [discriminate |].
  assert (Hno : ∀ cs, cs ⊆ c0 :: rest →
                Forall (λ x, unique (Py.fromkeys l) t x = false) cs →
                Forall (λ c, ¬ accepted R t c) cs).
  { intros cs Hsub HF. apply Forall_forall. intros c Hc Hacc.
    rewrite Forall_forall in HF. specialize (HF c Hc).
    apply (Hua c l Hl (Hsub c Hc)) in Hacc. congruence. }
  destruct (unique (Py.fromkeys l) t c0) eqn:Hu0.
  { intros [= <-]. right. left. split; [done |].
    unfold first_accepted. rewrite Hcands.
    exists [], rest. split; [done |]. split; [| constructor].
    apply (Hua c0 l Hl); [by left | done]. }
  pose proof (find_first (unique (Py.fromkeys l) t) rest) as Hfind.
  destruct (List.find (unique (Py.fromkeys l) t) rest) as [c|].
  - intros [= <-]. destruct Hfind as (before & after & Hrest & Hu & Hb).
    right. left. split; [done |]. unfold first_accepted. rewrite Hcands.
    exists (c0 :: before), after. rewrite Hrest. split; [done |]. split.
    + apply (Hua c l Hl); [| done]. rewrite Hrest.
      apply elem_of_cons. right. apply elem_of_app. right. by left.
    + apply Hno; [| by constructor]. rewrite Hrest.
      intros x [->|Hx]%elem_of_cons; [by left |].
      right. apply elem_of_app. by left.
  - intros [= <-]. right. right. split; [done |]. split; [done |].
    intros c Hacc.
    assert (HF : Forall (λ c, ¬ accepted R t c) (c0 :: rest))
      by (apply Hno; [done | by constructor]).
    rewrite Forall_forall in HF. apply (HF c); [| done].
    destruct Hacc as [Hc _]. by rewrite Hcands in Hc.
Qed.
End Resolution.

Section ShortestReference.
Import Pathlib Fs Links Props Examples.




(** C2, as stated, fails in a vault with [d/a/x.md] and [d/b/x.md]: the
    shortest reference to the first is [a/x], and [find_target_path]
    does not resolve it back to [d/a/x]. *)
Lemma shortest_suffix_not_resolved_back :
  ¬ (∀ s, _shortest_suffix_from_vault twin_R "d/a/x" = Ok s →
          find_target_path twin_R twin_vault ["v"; "cur.md"] s = Ok "d/a/x").
Proof.
  intros H. specialize (H "a/x" ltac:(vm_compute; reflexivity)).
  vm_compute in H. discriminate.
Qed.

(** In a vault with [a/x.md] and [b/a/x.md], the reference to the first is
    its full path, which the path of the second ends with as well. *)
Lemma shortest_suffix_not_unique :
  _shortest_suffix_from_vault nested_R "a/x" = Ok "a/x"
  ∧ suffix_matches "a/x" "b/a/x" = true
  ∧ rel_noext nested_R ["v"; "b"; "a"; "x.md"] = Ok "b/a/x".
Proof. vm_compute. done. Qed.

(** C2 (amended). The reference [s] that the vault mode returns for the
    target [t] is the bare name of [t] when [t] has one segment;
    otherwise it is the first accepted suffix of [t], in the order of
    the candidates by number of segments and length, where a suffix is
    accepted when the only extension-stripped path among the files
    sharing the name or stem of the target that ends with it is [t]; and
    when no suffix is accepted, it is the full path [t]. Resolving [s]
    again, when two different files share its name, when it is canonical
    and has no null character, and when the existence test finds nothing
    at its place next to the current file, returns [s] itself, not
    [t]. *)
Theorem vault_shortest_reference
    (R : Resolver) (fs : FS) (current_file : AbsPath) (t s : string)
    (p1 p2 : AbsPath) :
  _shortest_suffix_from_vault R t = Ok s →
  ((length (parts (parse t)) = 1 ∧ s = name (parse t))
   ∨ (length (parts (parse t)) ≠ 1 ∧ first_accepted R t s)
   ∨ (length (parts (parse t)) ≠ 1 ∧ s = t ∧ ∀ c, ¬ accepted R t c))
  ∧ (canonical_ref s = true →
     p1 ≠ p2 →
     p1 ∈ index_get R (name (candidate_of s)) →
     p2 ∈ index_get R (name (candidate_of s)) →
     existsb has_nul (segs (candidate_of s)) = false →
     exists_ fs (join_resolve (parent current_file) (candidate_of s)) = Ok false →
     find_target_path R fs current_file s = Ok s).
Proof.
  intros Hs. split; [by apply shortest_suffix_cases |].
  intros Hc Hne H1 H2 Hnul Hex.
  apply find_target_path_canonical; [done..|].
  unfold basename_matches.
  apply (fromkeys_two _ p1 p2); [done | |]; apply elem_of_app; by left.
Qed.

(** C2 (amended), at the vault with [d/a/x.md] and [d/b/x.md]: the
    reference to the first is [a/x], its first accepted suffix, and
    resolving it again returns [a/x]. *)
Lemma vault_shortest_reference_witness :
  ((length (parts (parse "d/a/x")) = 1 ∧ "a/x" = name (parse "d/a/x"))
   ∨ (length (parts (parse "d/a/x")) ≠ 1 ∧ first_accepted twin_R "d/a/x" "a/x")
   ∨ (length (parts (parse "d/a/x")) ≠ 1 ∧ "a/x" = "d/a/x"
      ∧ ∀ c, ¬ accepted twin_R "d/a/x" c))
  ∧ find_target_path twin_R twin_vault ["v"; "cur.md"] "a/x" = Ok "a/x".
Proof.
  destruct (vault_shortest_reference twin_R twin_vault ["v"; "cur.md"] "d/a/x" "a/x"
              ["v"; "d"; "a"; "x.md"] ["v"; "d"; "b"; "x.md"]) as [Ha Hb].
  - vm_compute. reflexivity.
  - split; [exact Ha |]. apply Hb.
    + vm_compute. reflexivity.
    + discriminate.
    + vm_compute. apply list_elem_of_here.
    + vm_compute. apply list_elem_of_further, list_elem_of_here.
    + vm_compute. reflexivity.
    + vm_compute. reflexivity.
Defined.
End ShortestReference.

(** ** Backlinks *)

Lemma bind_Ok {A B} (m : result A) (k : A → result B) (b : B) :
  (x ← m; k x) = Ok b ↔ ∃ a, m = Ok a ∧ k a = Ok b.
Proof.
  destruct m as [a|e]; simpl; split.
  - intros H. by exists a.
  - by intros (a' & [= <-] & H).
  - discriminate.
  - by intros (a' & [=] & _).
Qed.

Section Backlinks.
Import Pathlib Fs Links Indexer Props.

Lemma forward_add_lookup (forward : gmap string (list string)) (k src k' : string) :
  default [] (forward_add forward k src !! k')
  = default [] (forward !! k') ++ (if String.eqb k k' then [src] else []).
Proof.
  unfold forward_add. destruct (String.eqb_spec k k') as [->|Hne].
  - by rewrite lookup_insert_eq.
  - rewrite lookup_insert_ne by done. by rewrite app_nil_r.
Qed.

(** The inner loop of the first pass, over the links of one item. *)
Lemma forward_links_lookup (links : list LinkEntry) (src : string)
    (forward : gmap string (list string)) (k : string) :
  default [] (foldl (λ f ln, forward_add f (relativePath ln) src) forward links !! k)
  = default [] (forward !! k)
    ++ (ln ← links; if String.eqb (relativePath ln) k then [src] else []).
Proof.
  revert forward. induction links as [|ln links IH]; intros forward; simpl.
  - by rewrite app_nil_r.
  - by rewrite IH, forward_add_lookup, <- app_assoc.
Qed.

(** The first pass, started from any dictionary. *)
Lemma forward_items_lookup (items : list Item)
    (forward : gmap string (list string)) (k : string) :
  default []
    (foldl (λ f it, foldl (λ f ln, forward_add f (relativePath ln) (item_relativePath it))
                          f (links_of it))
           forward items !! k)
  = default [] (forward !! k) ++ sources_of items k.
Proof.
  revert forward. induction items as [|it items IH]; intros forward; simpl.
  - by rewrite app_nil_r.
  - rewrite IH, forward_links_lookup, <- app_assoc. done.
Qed.

(** The dictionary of the first pass holds the comprehension. *)
Lemma build_forward_lookup (items : list Item) (k : string) :
  default [] (build_forward items !! k) = sources_of items k.
Proof. unfold build_forward. by rewrite forward_items_lookup, lookup_empty. Qed.

Lemma add_backlinks_spec (items : list Item) (B : Item) :
  item_backlinks B = None →
  add_backlinks (build_forward items) B = with_backlinks B (backlinks_of items B).
Proof.
  intros HB. unfold add_backlinks, backlinks_of. rewrite build_forward_lookup.
  destruct (sources_of items (item_relativePath B)); [| done].
  destruct B; simpl in *; by subst.
Qed.

(** The second pass changes neither the paths nor the link lists. *)
Lemma sources_of_invert (items : list Item) (k : string) :
  sources_of (invert items) k = sources_of items k.
Proof.
  unfold invert. generalize (build_forward items) as forward. intros forward.
  unfold sources_of.
  induction items as [|it items IH]; simpl; [done |].
  f_equal; [| exact IH].
  unfold add_backlinks. by destruct (default [] (forward !! item_relativePath it)).
Qed.

Lemma process_file_no_backlinks (R : Resolver) (fs fs' : FS) (p : AbsPath) (it : Item) :
  process_file R fs p = Ok (it, fs') → item_backlinks it = None.
Proof.
  unfold process_file. intros H.
  repeat (apply bind_Ok in H as (? & _ & H)).
  by injection H as <- _.
Qed.

Lemma process_all_no_backlinks (R : Resolver) (all_md : list AbsPath)
    (fs fs' : FS) (items : list Item) :
  process_all R fs all_md = Ok (items, fs') →
  Forall (λ it, item_backlinks it = None) items.
Proof.
  revert fs items. induction all_md as [|p l IH]; intros fs items; simpl.
  - intros [= <- _]. constructor.
  - intros H. apply bind_Ok in H as ([it fs1] & Hp & H).
    apply bind_Ok in H as ([its fs2] & Hl & H). injection H as <- <-.
    constructor; [by eapply process_file_no_backlinks | by eapply IH].
Qed.

Lemma invert_backlinks (items : list Item) (B : Item) :
  Forall (λ it, item_backlinks it = None) items →
  B ∈ invert items → item_backlinks B = backlinks_of (invert items) B.
Proof.
  intros Hnone HB. unfold invert in HB.
  apply list_elem_of_fmap in HB as (B0 & -> & HB0).
  rewrite Forall_forall in Hnone.
  rewrite add_backlinks_spec by (by apply Hnone).
  unfold backlinks_of. simpl. by rewrite sources_of_invert.
Qed.

Lemma elem_of_sources_of (items : list Item) (k src : string) :
  src ∈ sources_of items k
  ↔ ∃ A ln, A ∈ items ∧ ln ∈ links_of A
            ∧ relativePath ln = k ∧ item_relativePath A = src.
Proof.
  unfold sources_of. rewrite list_elem_of_bind. split.
  - intros (A & [ln [Hsrc Hln]]%list_elem_of_bind & HA).
    destruct (String.eqb_spec (relativePath ln) k) as [Hk|Hk];
      [| by apply elem_of_nil in Hsrc].
    apply list_elem_of_singleton in Hsrc. eauto 10.
  - intros (A & ln & HA & Hln & Hk & <-). exists A. split; [| done].
    apply list_elem_of_bind. exists ln. split; [| done].
    rewrite <- Hk, String.eqb_refl. by left.
Qed.

(** Backlink symmetry: an entry of the link list of [A] that points to [B]
    gives [B] a backlink entry with the path of [A]. The converse link need
    not exist. *)
Lemma backlink_symmetry (fs fs' : FS) (root : AbsPath) (shortest_mode : Mode)
    (items : list Item) (A B : Item) (ln : LinkEntry) :
  build_metadata fs root shortest_mode = Ok (items, fs') →
  A ∈ items → B ∈ items → ln ∈ links_of A →
  relativePath ln = item_relativePath B →
  ∃ e, e ∈ default [] (item_backlinks B)
       ∧ bl_relativePath e = item_relativePath A
       ∧ bl_fileName e = stem (parse (item_relativePath A))
       ∧ bl_link e = stem (parse (item_relativePath B))
       ∧ bl_displayText e = stem (parse (item_relativePath B)).
Proof.
  intros Hrun HA HB Hln Hk.
  assert (Hsrc : item_relativePath A ∈ sources_of items (item_relativePath B))
    by (apply elem_of_sources_of; eauto 10).
  assert (Hb : item_backlinks B = backlinks_of items B).
  { unfold build_metadata in Hrun.
    apply bind_Ok in Hrun as ([items0 fs0] & Hall & Hrun). injection Hrun as <- _.
    apply invert_backlinks; [| done]. by eapply process_all_no_backlinks. }
  rewrite Hb. unfold backlinks_of.
  destruct (sources_of items (item_relativePath B)) as [|s0 srcs] eqn:Hs;
    [by apply elem_of_nil in Hsrc |].
  exists (backlink_entry (stem (parse (item_relativePath B))) (item_relativePath A)).
  split; [| done]. simpl. by apply (list_elem_of_fmap_2 _ (s0 :: srcs)).
Qed.

(** C5, as stated, fails in a vault where [A.md] links to [B] twice, once
    with an alias: the item of [B] gets two backlink entries for the one
    source [A.md]. *)
Lemma backlinks_repeat_source :
  item_backlinks <$> Examples.twice_items
  = [None; Some [mkBacklink "A" "B" "A.md" "B"; mkBacklink "A" "B" "A.md" "B"]].
Proof. vm_compute. reflexivity. Qed.

(** C5 (amended). After the inversion, the backlink list of every item [B]
    has one entry for every entry of the link list of any item [A] whose
    [relativePath] is the path of [B], in the order of the items and of
    their link lists: a source with several such entries is repeated. Each
    entry has the stem and the path of [A], and the stem of [B] as [link]
    and [displayText]. An item that no link entry points to has no
    backlinks. *)
Theorem backlinks_one_per_link_entry
    (fs fs' : FS) (root : AbsPath) (shortest_mode : Mode) (items : list Item) (B : Item) :
  build_metadata fs root shortest_mode = Ok (items, fs') →
  B ∈ items →
  item_backlinks B = backlinks_of items B.
Proof.
  unfold build_metadata. intros H HB.
  apply bind_Ok in H as ([items0 fs0] & Hall & H). injection H as <- _.
  apply invert_backlinks; [| done].
  by eapply process_all_no_backlinks.
Qed.

(** C5 (amended), at the item of [B] in the vault where [A.md] links to it
    twice. *)
Lemma backlinks_one_per_link_entry_witness :
  item_backlinks Examples.twice_B = backlinks_of Examples.twice_items Examples.twice_B.
Proof.
  apply (backlinks_one_per_link_entry Examples.twice_vault Examples.twice_run.2
           ["v"] Vault Examples.twice_items Examples.twice_B).
  - vm_compute. reflexivity.
  - vm_compute. apply list_elem_of_further, list_elem_of_here.
Defined.
End Backlinks.

(** ** Attachments *)

Section Sorting.
Context {A : Type} (ltb : A → A → bool).

Lemma elem_of_insert_sorted (x y : A) (l : list A) :
  y ∈ Py.insert_sorted ltb x l ↔ y = x ∨ y ∈ l.
Proof.
  induction l as [|z l IH]; simpl.
  - rewrite list_elem_of_singleton. split; [by left | intros [?|?%elem_of_nil]; done].
  - destruct (ltb z x); rewrite !elem_of_cons; [rewrite IH |]; tauto.
Qed.

Lemma elem_of_sorted (y : A) (l : list A) : y ∈ Py.sorted ltb l ↔ y ∈ l.
Proof.
  unfold Py.sorted. induction l as [|x l IH]; simpl; [done |].
  rewrite elem_of_insert_sorted, elem_of_cons, IH. done.
Qed.

Lemma sorted_nil_inv (l : list A) : Py.sorted ltb l = [] → l = [].
Proof.
  destruct l as [|x l]; [done |]. intros H.
  assert (Hx : x ∈ Py.sorted ltb (x :: l)) by (apply elem_of_sorted; by left).
  rewrite H in Hx. by apply elem_of_nil in Hx.
Qed.

(** For a strict order whose complement is transitive, no element of the
    sorted list comes before its head. *)
Lemma insert_sorted_head_min (x : A) (l : list A) :
  (∀ a, ltb a a = false) →
  (∀ a b, ltb a b = true → ltb b a = false) →
  (∀ a b c, ltb b a = false → ltb c b = false → ltb c a = false) →
  match l with [] => True | h :: _ => Forall (λ z, ltb z h = false) l end →
  match Py.insert_sorted ltb x l with
  | [] => True
  | h :: _ => Forall (λ z, ltb z h = false) (Py.insert_sorted ltb x l)
  end.
Proof.
  intros Hirr Hasym Htrans. destruct l as [|y l]; simpl; [by repeat constructor |].
  intros Hy. destruct (ltb y x) eqn:Hyx.
  - apply Forall_forall. intros z Hz.
    apply elem_of_cons in Hz as [->|Hz]; [done |].
    apply elem_of_insert_sorted in Hz as [->|Hz]; [by apply Hasym |].
    rewrite Forall_forall in Hy. apply Hy. by right.
  - constructor; [done |]. eapply Forall_impl; [exact Hy |].
    intros z Hz. simpl in Hz. by apply (Htrans x y z).
Qed.

Lemma sorted_head_min (l : list A) :
  (∀ a, ltb a a = false) →
  (∀ a b, ltb a b = true → ltb b a = false) →
  (∀ a b c, ltb b a = false → ltb c b = false → ltb c a = false) →
  match Py.sorted ltb l with
  | [] => True
  | h :: _ => Forall (λ z, ltb z h = false) (Py.sorted ltb l)
  end.
Proof.
  intros Hirr Hasym Htrans. unfold Py.sorted.
  induction l as [|x l IH]; simpl; [done |].
  by apply insert_sorted_head_min.
Qed.
End Sorting.

Lemma str_ltb_false (a b : string) : Py.str_ltb b a = false ↔ String.le a b.
Proof.
  unfold Py.str_ltb, String.le, String.leb. rewrite (String.compare_antisym a b).
  destruct (String.compare b a); simpl; split; done.
Qed.

Lemma str_ltb_true (a b : string) : Py.str_ltb a b = true → String.le a b.
Proof.
  unfold Py.str_ltb, String.le, String.leb. by destruct (String.compare a b).
Qed.

Section Ranks.
Import Links Props.

Lemma rank_ltb_false (a b : nat * nat * string) : rank_ltb b a = false ↔ rank_le a b.
Proof.
  destruct a as [[a1 a2] a3], b as [[b1 b2] b3]. unfold rank_ltb, rank_le. simpl.
  rewrite <- (str_ltb_false a3 b3).
  destruct (Nat.ltb_spec b1 a1), (Nat.eqb_spec b1 a1),
    (Nat.ltb_spec b2 a2), (Nat.eqb_spec b2 a2), (Py.str_ltb b3 a3);
    simpl; split; (done || lia || intuition (lia || done)).
Qed.

Lemma rank_ltb_true (a b : nat * nat * string) : rank_ltb a b = true → rank_le a b.
Proof.
  destruct a as [[a1 a2] a3], b as [[b1 b2] b3]. unfold rank_ltb, rank_le. simpl.
  pose proof (str_ltb_true a3 b3).
  destruct (Nat.ltb_spec a1 b1), (Nat.eqb_spec a1 b1),
    (Nat.ltb_spec a2 b2), (Nat.eqb_spec a2 b2), (Py.str_ltb a3 b3);
    simpl; intros; (done || lia || intuition (lia || done)).
Qed.

Lemma rank_le_refl (a : nat * nat * string) : rank_le a a.
Proof. unfold rank_le. right. split; [done |]. right. split; [done |]. done. Qed.

Lemma rank_le_trans (a b c : nat * nat * string) :
  rank_le a b → rank_le b c → rank_le a c.
Proof.
  unfold rank_le.
  intros [?|[? [?|[? Hab]]]] [?|[? [?|[? Hbc]]]]; try (left; lia);
    right; (split; [lia |]); try (left; lia).
  right. split; [lia |]. by etrans.
Qed.

(** No element of a list sorted by rank comes before its head. *)
Lemma sorted_by_rank_head (base : Pathlib.AbsPath) (l : list Pathlib.AbsPath) :
  match Py.sorted (λ p q, rank_ltb (rank base p) (rank base q)) l with
  | [] => True
  | best :: _ => ∀ c, c ∈ l → rank_ltb (rank base c) (rank base best) = false
  end.
Proof.
  pose proof (sorted_head_min (λ p q, rank_ltb (rank base p) (rank base q)) l) as H.
  destruct (Py.sorted _ l) as [|best rest] eqn:Hs; [done |].
  intros c Hc.
  assert (HF : Forall (λ z, rank_ltb (rank base z) (rank base best) = false)
                 (best :: rest)).
  { apply H.
    - intros a. apply rank_ltb_false, rank_le_refl.
    - intros a b Hab. by apply rank_ltb_false, rank_ltb_true.
    - intros a b c'. rewrite !rank_ltb_false. intros ? ?. by eapply rank_le_trans. }
  rewrite Forall_forall in HF. apply HF. rewrite <- Hs. by apply elem_of_sorted.
Qed.
End Ranks.

Section Attachments.
Import Pathlib Fs Links Props.

(** What [rglob] yields are regular files below the root. *)
Lemma rglob_files_spec (fs : FS) (root p : AbsPath) :
  p ∈ rglob_files fs root → is_file fs p = true ∧ strict_prefix root p = true.
Proof.
  unfold rglob_files. intros [Hin Hp]%list_elem_of_In%filter_In. split; [| done].
  unfold is_file. apply bool_decide_eq_true. by apply list_elem_of_In.
Qed.

(** What [rglob] returns, when it returns: the regular files below the
    root whose name matches the pattern. *)
Lemma glob_rglob_spec (fs : FS) (root p : AbsPath) (pat : string) (l : list AbsPath) :
  Glob.rglob fs root pat = Ok l →
  p ∈ l ↔ is_file fs p = true ∧ strict_prefix root p = true
          ∧ segment_matches pat (abs_name p) = true.
Proof.
  unfold Glob.rglob, segment_matches.
  destruct (bool_decide (pat ∈ [""; "."; ".."; "**"])).
  { intros [= <-]. split; [by intros ?%elem_of_nil | by intros (_ & _ & ?)]. }
  destruct (Glob.has_double_star pat); [discriminate |].
  assert (Hfilter : ∀ f : AbsPath → bool,
            p ∈ List.filter f (rglob_files fs root)
            ↔ is_file fs p = true ∧ strict_prefix root p = true ∧ f p = true).
  { intros f. rewrite list_elem_of_In, filter_In, <- list_elem_of_In. split.
    - intros [[? ?]%rglob_files_spec ?]. done.
    - intros (Hf & Hp & ?). split; [| done]. unfold rglob_files.
      apply list_elem_of_In, filter_In. split; [| done].
      apply list_elem_of_In. by apply bool_decide_eq_true in Hf. }
  destruct (Glob.is_wildcard pat).
  - intros [= <-]. apply Hfilter.
  - destruct (mapM _ (dirs_from fs root)); simpl; [| discriminate].
    intros [= <-]. apply Hfilter.
Qed.

(** The candidates of an attachment, when the search returns: the
    regular files below the root that have the typed name. *)
Lemma asset_candidates_match (R : Resolver) (fs : FS) (nm : string)
    (l : list AbsPath) (p : AbsPath) :
  asset_candidates R fs nm = Ok l → p ∈ l ↔ asset_match R fs nm p.
Proof.
  unfold asset_candidates, asset_match, matches_name. destruct (Py.contains "." nm).
  - apply glob_rglob_spec.
  - intros H. apply bind_Ok in H as (ll & Hll & [= <-]).
    rewrite list_elem_of_join. split.
    + intros (l' & Hp & Hl').
      apply (mapM_Ok_elem _ _ _ _ Hll) in Hl' as (ext & Hext & Hglob).
      destruct (proj1 (glob_rglob_spec _ _ p _ _ Hglob) Hp) as (? & ? & Hm).
      split; [done |]. split; [done |].
      apply existsb_exists. exists ext. split; [by apply list_elem_of_In | done].
    + intros (Hf & Hpre & Hm). apply existsb_exists in Hm as (ext & Hext & Hm).
      apply list_elem_of_In in Hext.
      destruct (mapM_Ok_elem_l _ _ _ _ Hll Hext) as (l' & Hglob & Hl').
      exists l'. split; [| done].
      by apply (glob_rglob_spec _ _ p _ _ Hglob).
Qed.

Lemma asset_candidates_spec (R : Resolver) (fs : FS) (nm : string)
    (l : list AbsPath) (p : AbsPath) :
  asset_candidates R fs nm = Ok l → p ∈ l →
  is_file fs p = true ∧ strict_prefix (ROOT R) p = true.
Proof.
  intros H Hp. apply (asset_candidates_match _ _ _ _ p H) in Hp as (? & ? & _). done.
Qed.

(** What [resolve_asset_for_text] returns for a target that is not
    empty: the bare name without a candidate, and else the path to the
    candidate before which no other one ranks. *)
Lemma resolve_asset_cases (R : Resolver) (fs : FS) (current_file : AbsPath)
    (raw r : string) :
  let target := Py.strip (Py.split1 "|" raw).1 in
  let base := parent current_file in
  target ≠ "" →
  resolve_asset_for_text R fs current_file raw = Ok r →
  ∃ candidates,
    asset_candidates R fs (name (parse target)) = Ok candidates
    ∧ ((candidates = [] ∧ r = name (parse target))
       ∨ ∃ best, best ∈ candidates
                 ∧ (∀ c, c ∈ candidates →
                         rank_ltb (rank base c) (rank base best) = false)
                 ∧ r = dot_slash (to_rel base best)).
Proof.
  intros target base Hne. unfold resolve_asset_for_text. fold target base.
  destruct (String.eqb_spec target "") as [|_]; [done |].
  intros H. apply bind_Ok in H as (candidates & Hc & H).
  exists candidates. split; [done |].
  pose proof (sorted_by_rank_head base candidates) as Hmin.
  destruct (Py.sorted _ candidates) as [|best rest] eqn:Hsort.
  - left. injection H as <-. by rewrite (sorted_nil_inv _ _ Hsort).
  - right. injection H as <-. exists best. split; [| done].
    eapply elem_of_sorted. rewrite Hsort. by left.
Qed.

(** The three cases of the last step of [resolve_asset_for_text]. *)
Lemma dot_slash_spec (rel : string) :
  (Py.startswith rel "../" = true → dot_slash rel = rel)
  ∧ (Py.startswith rel "./" = false → Py.startswith rel "../" = false →
     Py.startswith rel "/" = false → Py.contains "/" rel = true →
     dot_slash rel = "./" +:+ rel)
  ∧ (Py.contains "/" rel = false → dot_slash rel = rel).
Proof.
  unfold dot_slash. repeat split.
  - intros ->. by rewrite orb_true_r.
  - by intros -> -> -> ->.
  - intros ->. by rewrite andb_false_r.
Qed.

(** C7, as stated, fails at its own example: the image [assets/img.png],
    referred to from [notes/sub/a.md], gets the path with two steps up and
    no dot in front. *)
Lemma asset_example_two_levels_up :
  resolve_asset_for_text Examples.asset_R Examples.asset_vault Examples.asset_note
    "assets/img.png" = Ok "../../assets/img.png"
  ∧ resolve_asset_for_text Examples.asset_R Examples.asset_vault Examples.asset_note
      "assets/img.png" ≠ Ok "./../assets/img.png".
Proof. split; vm_compute; [reflexivity | discriminate]. Qed.

(** C7 (amended). For a target that is not empty, attachment resolution
    returns the bare name that was typed when no regular file below the
    root has that name, and otherwise the path, relative to the directory
    of the current file, of the best-ranked file that has it: a regular
    file below the root with the typed name (followed by an attachment
    extension when the name has no dot) before which no other such file
    ranks. That relative path is returned as it is when it starts with
    ["../"] or has no slash, and with ["./"] in front when it has a slash
    and starts with none of ["./"], ["../"] and ["/"]. *)
Theorem resolve_asset_relative_to_note
    (R : Resolver) (fs : FS) (current_file : AbsPath) (raw r : string) :
  let target := Py.strip (Py.split1 "|" raw).1 in
  let base := parent current_file in
  let nm := name (parse target) in
  target ≠ "" →
  resolve_asset_for_text R fs current_file raw = Ok r →
  (r = nm ∧ asset_candidates R fs nm = Ok [] ∧ ∀ p, ¬ asset_match R fs nm p)
  ∨ ∃ best rel,
      asset_match R fs nm best
      ∧ (∀ p, asset_match R fs nm p →
              rank_ltb (rank base p) (rank base best) = false)
      ∧ rel = to_rel base best
      ∧ r = dot_slash rel
      ∧ (Py.startswith rel "../" = true → r = rel)
      ∧ (Py.startswith rel "./" = false → Py.startswith rel "../" = false →
         Py.startswith rel "/" = false → Py.contains "/" rel = true →
         r = "./" +:+ rel)
      ∧ (Py.contains "/" rel = false → r = rel).
Proof.
  intros target base nm Hne H.
  destruct (resolve_asset_cases R fs current_file raw r Hne H)
    as (candidates & Hc & [[-> ->]|(best & Hin & Hmin & ->)]).
  - left. split; [done |]. split; [done |]. intros p Hp.
    apply (asset_candidates_match _ _ _ _ p Hc) in Hp. by apply elem_of_nil in Hp.
  - right. exists best, (to_rel base best).
    split; [by apply (asset_candidates_match _ _ _ _ best Hc) |].
    split.
    { intros p Hp. apply Hmin. by apply (asset_candidates_match _ _ _ _ p Hc). }
    destruct (dot_slash_spec (to_rel base best)) as (H1 & H2 & H3).
    repeat split; done.
Qed.

(** C7 (amended), at the image [assets/img.png] seen from [notes/sub/a.md]. *)
Lemma resolve_asset_relative_to_note_witness :
  ("../../assets/img.png" = "img.png"
   ∧ asset_candidates Examples.asset_R Examples.asset_vault "img.png" = Ok []
   ∧ ∀ p, ¬ asset_match Examples.asset_R Examples.asset_vault "img.png" p)
  ∨ ∃ best rel,
      asset_match Examples.asset_R Examples.asset_vault "img.png" best
      ∧ (∀ p, asset_match Examples.asset_R Examples.asset_vault "img.png" p →
              rank_ltb (rank ["v"; "notes"; "sub"] p) (rank ["v"; "notes"; "sub"] best)
              = false)
      ∧ rel = to_rel ["v"; "notes"; "sub"] best
      ∧ "../../assets/img.png" = dot_slash rel
      ∧ (Py.startswith rel "../" = true → "../../assets/img.png" = rel)
      ∧ (Py.startswith rel "./" = false → Py.startswith rel "../" = false →
         Py.startswith rel "/" = false → Py.contains "/" rel = true →
         "../../assets/img.png" = "./" +:+ rel)
      ∧ (Py.contains "/" rel = false → "../../assets/img.png" = rel).
Proof.
  apply (resolve_asset_relative_to_note Examples.asset_R Examples.asset_vault
           Examples.asset_note "assets/img.png" "../../assets/img.png").
  - vm_compute. discriminate.
  - vm_compute. reflexivity.
Defined.
End Attachments.

(** ** The resolver of a scanned vault *)

Section ScannedVault.
Import Pathlib Fs Links Props.

Lemma setdefault_append_elem (k k' : string) (p q : AbsPath)
    (index : gmap string (list AbsPath)) :
  q ∈ default [] (setdefault_append k p index !! k')
  ↔ (k = k' ∧ q = p) ∨ q ∈ default [] (index !! k').
Proof.
  unfold setdefault_append. destruct (decide (k = k')) as [->|Hne].
  - rewrite lookup_insert_eq. simpl. rewrite elem_of_app, list_elem_of_singleton. tauto.
  - rewrite lookup_insert_ne by done. tauto.
Qed.

(** The basename index: under a key are the scanned files that have the
    key as their name or as their stem. *)
Lemma build_index_elem (all_md : list AbsPath) (k : string) (q : AbsPath) :
  q ∈ default [] (build_index all_md !! k)
  ↔ q ∈ all_md ∧ (abs_name q = k ∨ abs_stem q = k).
Proof.
  unfold build_index.
  assert (Hgen : ∀ index,
            q ∈ default [] (foldl (λ index p,
                   setdefault_append (abs_stem p) p
                     (setdefault_append (abs_name p) p index)) index all_md !! k)
            ↔ (q ∈ all_md ∧ (abs_name q = k ∨ abs_stem q = k))
              ∨ q ∈ default [] (index !! k)).
  { induction all_md as [|p l IH]; intros index; simpl.
    - split; [by right | intros [[?%elem_of_nil _]|?]; done].
    - rewrite IH, !setdefault_append_elem, elem_of_cons. split.
      + intros [[? ?]|[[<- ->]|[[<- ->]|?]]]; auto.
      + intros [[[->|?] [?|?]]|?]; auto. }
  rewrite Hgen, lookup_empty. simpl. split; [| by left].
  intros [?|?%elem_of_nil]; done.
Qed.

Lemma elem_of_ALL_MD (fs : FS) (root : AbsPath) (shortest_mode : Mode) (p : AbsPath) :
  p ∈ ALL_MD (init fs root shortest_mode)
  ↔ strict_prefix root p = true ∧ is_file fs p = true ∧ is_md p = true.
Proof.
  unfold init. simpl. rewrite elem_of_sorted, list_elem_of_In, filter_In.
  unfold rglob_files. rewrite filter_In, <- list_elem_of_In.
  unfold is_file. rewrite bool_decide_eq_true. tauto.
Qed.

(** The files of the index are the regular Markdown files below the root
    with the key as name or stem. *)
Lemma index_get_init (fs : FS) (root : AbsPath) (shortest_mode : Mode)
    (k : string) (p : AbsPath) :
  p ∈ index_get (init fs root shortest_mode) k
  ↔ (strict_prefix root p = true ∧ is_file fs p = true ∧ is_md p = true)
    ∧ (abs_name p = k ∨ abs_stem p = k).
Proof.
  unfold index_get. rewrite <- (elem_of_ALL_MD fs root shortest_mode p).
  unfold init. simpl. apply build_index_elem.
Qed.

(** When no scanned note has the name of the candidate, with or without its
    Markdown extension, as its name or stem, the index finds nothing. *)
Lemma basename_matches_none (fs : FS) (root : AbsPath) (shortest_mode : Mode)
    (candidate : PurePath) :
  (∀ p, p ∈ ALL_MD (init fs root shortest_mode) →
        abs_name p ≠ name candidate ∧ abs_stem p ≠ name candidate
        ∧ abs_name p ≠ strip_md_ext (name candidate)
        ∧ abs_stem p ≠ strip_md_ext (name candidate)) →
  basename_matches (init fs root shortest_mode) candidate = [].
Proof.
  intros Hnone. unfold basename_matches.
  destruct (Py.fromkeys _) as [|p l] eqn:Hk; [done |]. exfalso.
  assert (Hp : p ∈ Py.fromkeys
                 (index_get (init fs root shortest_mode) (name candidate)
                  ++ index_get (init fs root shortest_mode)
                       (strip_md_ext (name candidate))))
    by (rewrite Hk; by left).
  apply elem_of_fromkeys, elem_of_app in Hp.
  destruct Hp as [Hp|Hp]; apply index_get_init in Hp as [Hmd Hkey];
    apply (elem_of_ALL_MD fs root shortest_mode p) in Hmd;
    destruct (Hnone p Hmd) as (? & ? & ? & ?);
    destruct Hkey; done.
Qed.

Lemma rel_noext_below (R : Resolver) (p : AbsPath) :
  strict_prefix (ROOT R) p = true → ∃ s, rel_noext R p = Ok s.
Proof.
  unfold strict_prefix, rel_noext, rel_from_root, relative_to.
  intros [-> _]%andb_prop. simpl. eauto.
Qed.

Lemma mapM_total {A B} (f : A → result B) (l : list A) :
  (∀ x, x ∈ l → ∃ y, f x = Ok y) → ∃ k, mapM f l = Ok k.
Proof.
  induction l as [|x l IH]; intros H; simpl; [by eexists |].
  destruct (H x) as [y ->]; [by left |].
  destruct IH as [k ->]; [intros x' ?; apply H; by right |].
  simpl. by eexists.
Qed.

Lemma conflict_noext_total (fs : FS) (root : AbsPath) (shortest_mode : Mode)
    (stem : string) :
  ∃ l, conflict_noext (init fs root shortest_mode) stem = Ok l.
Proof.
  unfold conflict_noext.
  destruct (mapM_total (rel_noext (init fs root shortest_mode))
              (_collect_conflicts (init fs root shortest_mode) stem)) as [k ->].
  - intros p Hp. apply rel_noext_below.
    unfold _collect_conflicts in Hp.
    apply elem_of_fromkeys, elem_of_app in Hp as [Hp|Hp];
      by apply index_get_init in Hp as [[? _] _].
  - simpl. by eexists.
Qed.

(** For the resolver of a scanned vault, the vault mode returns a reference
    for every target path that has a segment. *)
Lemma shortest_suffix_total (fs : FS) (root : AbsPath) (shortest_mode : Mode)
    (t : string) :
  parts (parse t) ≠ [] →
  ∃ s, _shortest_suffix_from_vault (init fs root shortest_mode) t = Ok s.
Proof.
  intros Hparts. unfold _shortest_suffix_from_vault.
  destruct (conflict_noext_total fs root shortest_mode (name (parse t))) as [l ->].
  simpl. destruct (Nat.eqb (length (parts (parse t))) 1) eqn:Hlen; [by eexists |].
  destruct (suffix_candidates (parts (parse t))) as [|c0 rest] eqn:Hc.
  - exfalso. unfold suffix_candidates in Hc.
    apply sorted_nil_inv, fmap_nil_inv in Hc.
    destruct (parts (parse t)) as [|a [|b l']]; simpl in *; done.
  - destruct (unique l t c0); [by eexists |].
    destruct (List.find (unique l t) rest); by eexists.
Qed.

(** A target path without a segment has no candidate suffix: the reference
    [.] in a note of the root makes the vault mode raise. *)
Lemma dot_reference_raises :
  resolve_target_for_text_and_meta Examples.lone_R Examples.lone_vault
    Examples.lone_cur "." = Raise IndexError.
Proof. vm_compute. reflexivity. Qed.

(** A reference to an existing place above the root makes [find_target_path]
    raise. *)
Lemma parent_reference_raises :
  find_target_path Examples.lone_R Examples.lone_vault Examples.lone_cur ".."
  = Raise ValueError.
Proof. vm_compute. reflexivity. Qed.
End ScannedVault.

(** ** Idempotence of the two passes *)

Section Idempotence.
Import Pathlib Fs Links Indexer Examples.

(** C1. Where a folder [d/x] lies next to the note [d/cur.md] and the note
    [x.md] lies in the root, the two passes turn the body [see [[x]]] into
    [see [[d/x]]], and that normalized body back into [see [[x]]]: a second
    run does not leave the output of the first as it is. The same holds for
    whole runs over the files. *)
Theorem normalize_twice_differs :
  normalize_body folder_R folder_vault folder_cur "see [[x]]" = Ok "see [[d/x]]"
  ∧ normalize_body folder_R folder_vault folder_cur "see [[d/x]]" = Ok "see [[x]]"
  ∧ (r1 ← build_metadata folder_vault ["v"] Vault;
     r2 ← build_metadata r1.2 ["v"] Vault;
     Ok (read_text r1.2 folder_cur, read_text r2.2 folder_cur))
    = Ok ("see [[d/x]]", "see [[x]]").
Proof. vm_compute. done. Qed.

(** Without any folder: a Markdown link inside the url of another one is
    rewritten once more by a second run. *)
Lemma normalize_twice_differs_nested_link :
  normalize_body lone_R lone_vault lone_cur "[a]([b](c))" = Ok "[[[b](c]])"
  ∧ normalize_body lone_R lone_vault lone_cur "[[[b](c]])" = Ok "[[c]]]]".
Proof. vm_compute. done. Qed.

(** A body without an opening bracket has no link, and both passes leave it
    as it is. *)
Lemma sub_go_no_bracket {M : Type} (matcher : string → option M) (whole : M → string)
    (repl : M → result string) (s : string) :
  (∀ t, Py.contains "[" t = false → matcher t = None) →
  Py.contains "[" s = false →
  Re.sub_go matcher whole repl 0 s = Ok s.
Proof.
  intros Hm. induction s as [|c s IH]; simpl; [done |].
  intros Hs. rewrite (Hm (String c s)) by done.
  apply orb_false_iff in Hs as [_ Hs]. by rewrite (IH Hs).
Qed.

(** A character that is not an opening bracket starts neither pattern. *)
Ltac not_a_bracket c :=
  destruct (Ascii.eqb_spec "[" c) as [<-|?]; [done |]; char_cases c.

Lemma md_link_match_no_bracket (t : string) :
  Py.contains "[" t = false → Re.md_link_match t = None.
Proof.
  unfold Re.md_link_match, Re.md_link_after_bang, Re.opt_bang.
  destruct t as [|c t]; [done |]. simpl. intros [Hc Ht]%orb_false_iff.
  destruct (Ascii.eqb_spec c "!") as [->|Hne].
  - destruct t as [|d t]; [done |]. simpl in Ht.
    apply orb_false_iff in Ht as [Hd _]. not_a_bracket d.
  - not_a_bracket c.
Qed.

Lemma wiki_link_match_no_bracket (t : string) :
  Py.contains "[" t = false → Re.wiki_link_match t = None.
Proof.
  unfold Re.wiki_link_match, Re.wiki_link_after_bang, Re.opt_bang.
  destruct t as [|c t]; [done |]. simpl. intros [Hc Ht]%orb_false_iff.
  destruct (Ascii.eqb_spec c "!") as [->|Hne].
  - destruct t as [|d t]; [done |]. simpl in Ht.
    apply orb_false_iff in Ht as [Hd _]. not_a_bracket d.
  - not_a_bracket c.
Qed.

Lemma normalize_body_no_link (R : Resolver) (fs : FS) (p : AbsPath) (body : string) :
  Py.contains "[" body = false → normalize_body R fs p body = Ok body.
Proof.
  intros H. unfold normalize_body, normalize_md_links_to_wikilinks,
    normalize_wikilinks_in_text, Re.sub.
  rewrite sub_go_no_bracket by (done || apply md_link_match_no_bracket). simpl.
  by rewrite sub_go_no_bracket by (done || apply wiki_link_match_no_bracket).
Qed.
End Idempotence.

(** ** Bodies that the passes leave as they are *)

Lemma str_app_cons (x : ascii) (a b : string) : String x a +:+ b = String x (a +:+ b).
Proof. reflexivity. Qed.

Lemma str_app_nil (b : string) : "" +:+ b = b.
Proof. reflexivity. Qed.

Lemma str_app_assoc (a b c : string) : (a +:+ b) +:+ c = a +:+ b +:+ c.
Proof.
  induction a as [|x a IH]; [done |]. by rewrite !str_app_cons, IH.
Qed.

Create Rewrite HintDb str.
#[local] Hint Rewrite str_app_assoc str_app_cons str_app_nil : str.

Lemma drop_app_length (a b : string) : Py.drop (String.length a) (a +:+ b) = b.
Proof. induction a as [|x a IH]; simpl; [by destruct b | done]. Qed.

Lemma startswith_app (s p : string) :
  Py.startswith s p = true → ∃ rest, s = p +:+ rest.
Proof.
  revert s. induction p as [|a p IH]; intros s; simpl; [by exists s |].
  destruct s as [|b s]; [done |].
  intros [->%Ascii.eqb_eq [rest ->]%IH]%andb_prop. by exists rest.
Qed.

Lemma span_app (f : ascii → bool) (s : string) :
  s = (Re.span f s).1 +:+ (Re.span f s).2.
Proof.
  induction s as [|c s IH]; simpl; [done |].
  destruct (f c); [| done].
  destruct (Re.span f s) as [a b]. simpl in *. by rewrite str_app_cons, <- IH.
Qed.

Lemma opt_bang_app (s : string) : s = (Re.opt_bang s).1 +:+ (Re.opt_bang s).2.
Proof.
  unfold Re.opt_bang. destruct s as [|c s]; [done |].
  char_cases c.
Qed.

(** A match of [MD_LINK] is the text at the start of the subject, and is
    not empty. *)
Lemma md_link_after_bang_prefix (bang s1 : string) (m : Re.MdMatch) :
  Re.md_link_after_bang bang s1 = Some m →
  (∃ rest, bang +:+ s1 = Re.md_all m +:+ rest) ∧ Re.md_all m ≠ "".
Proof.
  unfold Re.md_link_after_bang.
  destruct s1 as [|c1 s2]; [done |].
  destruct (Ascii.eqb_spec c1 "[") as [->|Hc1];
    [| char_cases c1].
  pose proof (span_app (λ c, negb (Ascii.eqb c "]")) s2) as Hs2.
  destruct (Re.span _ s2) as [text s3]. simpl in Hs2. subst s2.
  destruct s3 as [|c3 [|c4 s4]]; [done | char_cases c3 |].
  destruct (Ascii.eqb_spec c3 "]") as [->|Hc3];
    [| char_cases c3].
  destruct (Ascii.eqb_spec c4 "(") as [->|Hc4];
    [| char_cases c4].
  pose proof (span_app (λ c, negb (Ascii.eqb c ")")) s4) as Hs4.
  destruct (Re.span _ s4) as [url s5]. simpl in Hs4. subst s4.
  destruct s5 as [|c5 s6]; [done |].
  destruct (Ascii.eqb_spec c5 ")") as [->|Hc5];
    [| char_cases c5].
  destruct (String.eqb url ""); [done |].
  intros [= <-]. simpl. split.
  - exists s6. by autorewrite with str.
  - by destruct bang.
Qed.

Lemma md_link_match_prefix (s : string) (m : Re.MdMatch) :
  Re.md_link_match s = Some m →
  (∃ rest, s = Re.md_all m +:+ rest) ∧ Re.md_all m ≠ "".
Proof.
  unfold Re.md_link_match. pose proof (opt_bang_app s) as Hs.
  destruct (Re.opt_bang s) as [bang s1]. simpl in Hs. subst s.
  apply md_link_after_bang_prefix.
Qed.

Lemma lazy_body_prefix (s body : string) :
  Re.lazy_body s = Some body → ∃ rest, s = body +:+ "]]" +:+ rest.
Proof.
  revert body. induction s as [|c s IH]; intros body; [done |].
  change (Re.lazy_body (String c s))
    with (if Ascii.eqb c "010" then None
          else if Py.startswith s "]]" then Some (String c EmptyString)
          else String c <$> Re.lazy_body s).
  destruct (Ascii.eqb c "010"); [done |].
  destruct (Py.startswith s "]]") eqn:Hs.
  - intros [= <-]. apply startswith_app in Hs as [rest ->]. by exists rest.
  - destruct (Re.lazy_body s) as [b|]; [| done].
    intros [= <-]. destruct (IH b eq_refl) as [rest ->]. by exists rest.
Qed.

(** A match of [WIKI_LINK] is the text at the start of the subject, and
    is not empty. *)
Lemma wiki_link_after_bang_prefix (bang s1 : string) (m : Re.WikiMatch) :
  Re.wiki_link_after_bang bang s1 = Some m →
  (∃ rest, bang +:+ s1 = Re.wiki_all m +:+ rest) ∧ Re.wiki_all m ≠ "".
Proof.
  unfold Re.wiki_link_after_bang.
  destruct s1 as [|c1 [|c2 s2]]; [done | char_cases c1 |].
  destruct (Ascii.eqb_spec c1 "[") as [->|Hc1];
    [| char_cases c1].
  destruct (Ascii.eqb_spec c2 "[") as [->|Hc2];
    [| char_cases c2].
  destruct (Re.lazy_body s2) as [body|] eqn:Hb; [| done].
  intros [= <-]. simpl. apply lazy_body_prefix in Hb as [rest ->]. split.
  - exists rest. by autorewrite with str.
  - by destruct bang.
Qed.

Lemma wiki_link_match_prefix (s : string) (m : Re.WikiMatch) :
  Re.wiki_link_match s = Some m →
  (∃ rest, s = Re.wiki_all m +:+ rest) ∧ Re.wiki_all m ≠ "".
Proof.
  unfold Re.wiki_link_match. pose proof (opt_bang_app s) as Hs.
  destruct (Re.opt_bang s) as [bang s1]. simpl in Hs. subst s.
  apply wiki_link_after_bang_prefix.
Qed.

Section Stable.
Context {M : Type}.
Variable matcher : string → option M.
Variable whole : M → string.
Variable repl : M → result string.
Hypothesis matcher_prefix :
  ∀ s m, matcher s = Some m → (∃ rest, s = whole m +:+ rest) ∧ whole m ≠ "".

(** A substitution whose replacement returns every match as it found it
    returns the subject. *)
Lemma sub_go_stable (s : string) (skip : nat) :
  Forall (λ m, repl m = Ok (whole m)) (Re.finditer_go matcher whole skip s) →
  Re.sub_go matcher whole repl skip s = Ok (Py.drop skip s).
Proof.
  revert skip. induction s as [|c s IH]; intros skip; simpl.
  - by destruct skip.
  - destruct skip as [|k]; [| apply IH].
    destruct (matcher (String c s)) as [m|] eqn:Hm.
    + intros [Hrepl Hrest]%Forall_cons. rewrite Hrepl. simpl.
      rewrite (IH _ Hrest). simpl.
      destruct (matcher_prefix _ _ Hm) as [[rest Hs] Hne].
      destruct (whole m) as [|w0 w]; [done |].
      simpl in Hs. injection Hs as -> ->. simpl.
      unfold Py.len. simpl. rewrite Nat.sub_0_r.
      by rewrite drop_app_length.
    + intros Hrest. by rewrite (IH _ Hrest).
Qed.

Lemma sub_stable (s : string) :
  Forall (λ m, repl m = Ok (whole m)) (Re.finditer matcher whole s) →
  Re.sub matcher whole repl s = Ok s.
Proof. intros H. unfold Re.sub. by rewrite (sub_go_stable s 0 H). Qed.
End Stable.

Section StableBody.
Import Pathlib Fs Links.

(** A body in which the first pass leaves every Markdown link as it is
    (anchors and external urls) and the second pass finds, for every
    wikilink, the target that is already written, is the result of both
    passes. *)
Lemma normalize_body_stable (R : Resolver) (fs : FS) (p : AbsPath) (body : string) :
  Forall (λ m, md_repl R fs p m = Ok (Re.md_all m))
         (Re.finditer Re.md_link_match Re.md_all body) →
  Forall (λ m, wiki_repl R fs p m = Ok (Re.wiki_all m))
         (Re.finditer Re.wiki_link_match Re.wiki_all body) →
  normalize_body R fs p body = Ok body.
Proof.
  intros Hmd Hwiki.
  unfold normalize_body, normalize_md_links_to_wikilinks, normalize_wikilinks_in_text.
  rewrite sub_stable; [simpl | apply md_link_match_prefix | done].
  apply sub_stable; [apply wiki_link_match_prefix | done].
Qed.
End StableBody.

(** The worked example after its first run: the body of [Root.md] is
    stable. *)
Example normalize_body_stable_worked :
  Links.normalize_body (Links.init Examples.worked_vault ["v"] Links.Vault)
    Examples.worked_vault ["v"; "Root.md"] "[[Sub/Child]]" = Ok "[[Sub/Child]]".
Proof.
  apply normalize_body_stable.
  - replace (Re.finditer Re.md_link_match Re.md_all "[[Sub/Child]]")
      with (@nil Re.MdMatch) by (vm_compute; reflexivity).
    constructor.
  - replace (Re.finditer Re.wiki_link_match Re.wiki_all "[[Sub/Child]]")
      with [Re.mkWiki "" "Sub/Child" "[[Sub/Child]]"] by (vm_compute; reflexivity).
    constructor; [vm_compute; reflexivity | constructor].
Qed.

(** ** Rewriting a note in place *)

Section Rewrite.
Import Pathlib Fs Links Indexer Examples.

Lemma take_app_length (a b : string) : Py.take (String.length a) (a +:+ b) = a.
Proof. induction a as [|c a IH]; simpl; [by destruct b | by rewrite IH]. Qed.

Lemma length_app (a b : string) :
  String.length (a +:+ b) = String.length a + String.length b.
Proof. induction a as [|c a IH]; simpl; [done | by rewrite IH]. Qed.

(** [process_file] leaves the file system as it is when the two passes
    leave the body as it is, and writes the rebuilt text otherwise. *)
Lemma process_file_writes (R : Resolver) (fs fs' : FS) (p : AbsPath) (it : Item) :
  process_file R fs p = Ok (it, fs') →
  let original := read_text fs p in
  let parsed := Parse.parse_frontmatter_and_tags original in
  ∃ norm, normalize_body R fs p (Parse.body parsed) = Ok norm
    ∧ fs' = if String.eqb norm (Parse.body parsed) then fs
            else write_text fs p (rebuilt_text original parsed norm).
Proof.
  intros H original parsed. unfold process_file in H. unfold normalize_body.
  apply bind_Ok in H as (rel & _ & H).
  apply bind_Ok in H as (stage1 & Hs1 & H).
  apply bind_Ok in H as (norm & Hnorm & H).
  apply bind_Ok in H as (links & _ & H).
  injection H as _ <-. exists norm. fold original parsed in Hs1, Hnorm |- *.
  rewrite Hs1. simpl. split; [done |].
  by destruct (String.eqb norm (Parse.body parsed)).
Qed.

Lemma process_file_unchanged (R : Resolver) (fs fs' : FS) (p : AbsPath) (it : Item) :
  process_file R fs p = Ok (it, fs') →
  normalize_body R fs p (Parse.body (Parse.parse_frontmatter_and_tags (read_text fs p)))
  = Ok (Parse.body (Parse.parse_frontmatter_and_tags (read_text fs p))) →
  fs' = fs.
Proof.
  intros H Hn. apply process_file_writes in H as (norm & Hnorm & ->).
  rewrite Hn in Hnorm. injection Hnorm as <-. by rewrite String.eqb_refl.
Qed.

(** When the body that the parser returns is the very end of the file, the
    rebuilt text is the text in front of it and the normalized body. *)
Lemma rebuilt_text_suffix (head norm : string) (parsed : Parse.Parsed) :
  Parse.body_is_new parsed = true →
  rebuilt_text (head +:+ Parse.body parsed) parsed norm = head +:+ norm.
Proof.
  intros Hnew. unfold rebuilt_text. rewrite Hnew. unfold Py.len.
  rewrite length_app.
  replace (String.length head + String.length (Parse.body parsed)
           - String.length (Parse.body parsed)) with (String.length head) by lia.
  by rewrite take_app_length.
Qed.

(** C4. A note with a frontmatter block, the body [[x](y)] and a final
    newline: the parser returns the body without the final newline, the two
    passes turn it into [[[y]]], and the file that [process_file] writes is
    the frontmatter block, the first character of the old body, and the
    normalized body; it is not the block followed by the normalized body. *)
Theorem rewrite_keeps_one_character_of_old_body :
  Parse.body (Parse.parse_frontmatter_and_tags fm_text) = "[x](y)"
  ∧ normalize_body fm_R fm_vault fm_note "[x](y)" = Ok "[[y]]"
  ∧ (r ← process_file fm_R fm_vault fm_note; Ok (read_text r.2 fm_note))
    = Ok (fm_header +:+ "[" +:+ "[[y]]")
  ∧ fm_header +:+ "[" +:+ "[[y]]" ≠ fm_header +:+ "[[y]]".
Proof. vm_compute. done. Qed.
End Rewrite.

(** ** The link entries of a note *)

Section LinkEntries.
Import Pathlib Fs Links Indexer Props Examples.

Lemma resolve_meta_md (R : Resolver) (fs : FS) (p : AbsPath) (raw t meta : string) :
  resolve_target_for_text_and_meta R fs p raw = Ok (t, Some meta) →
  ∃ c, meta = c +:+ ".md".
Proof.
  unfold resolve_target_for_text_and_meta.
  destruct (Py.split1 "#" (Py.split1 "|" raw).1) as [target anchor].
  destruct (String.eqb (Py.strip target) ""); [discriminate |].
  intros H. apply bind_Ok in H as (abs_no_ext & _ & H).
  apply bind_Ok in H as (shortest & _ & H). injection H as _ <-. eauto.
Qed.

(** The guard of the loop over the wikilinks: an entry comes from a wikilink
    without ["!"], its path ends in [.md], and the root joined with it
    exists. *)
Lemma wiki_entry_guard (R : Resolver) (fs : FS) (p : AbsPath) (m : Re.WikiMatch)
    (e : LinkEntry) :
  wiki_entry R fs p m = Ok (Some e) →
  Re.wiki_bang m ≠ "!"
  ∧ meta_exists R fs (relativePath e) = Ok true
  ∧ ∃ c, relativePath e = c +:+ ".md".
Proof.
  unfold wiki_entry.
  destruct (String.eqb_spec (Re.wiki_bang m) "!") as [|Hbang]; [discriminate |].
  destruct (Py.split1 "|" (Re.wiki_body m)) as [target_part display].
  intros H. apply bind_Ok in H as ([t meta] & Hres & H).
  destruct meta as [meta|]; [| discriminate].
  destruct (meta_exists R fs meta) as [[]|] eqn:Hex; simpl in H; try discriminate.
  apply resolve_meta_md in Hres.
  destruct (Py.split1 "#" target_part) as [? [a|]]; injection H as <-; done.
Qed.

Lemma elem_of_dedup_links (seen : list (string * string * option string))
    (links : list LinkEntry) (e : LinkEntry) :
  e ∈ dedup_links seen links → e ∈ links.
Proof.
  revert seen. induction links as [|L rest IH]; intros seen; simpl; [done |].
  case_bool_decide as Hseen.
  - intros He%IH. by right.
  - intros [->|He%IH]%elem_of_cons; [by left | by right].
Qed.

Lemma anchor_entry_path (rel : string) (m : Re.MdMatch) (e : LinkEntry) :
  anchor_entry rel m = Some e → relativePath e = rel.
Proof.
  unfold anchor_entry.
  destruct (Py.startswith (Py.strip (Re.md_url m)) "#"); [| discriminate].
  by intros [= <-].
Qed.

(** Every link entry of a note passed the guard of the loop over the
    wikilinks, or is an anchor entry that points to the note itself. *)
Lemma collect_links_guard (R : Resolver) (fs : FS) (p : AbsPath) (rel norm : string)
    (links : list LinkEntry) (e : LinkEntry) :
  collect_links R fs p rel norm = Ok links → e ∈ links →
  (meta_exists R fs (relativePath e) = Ok true ∧ ∃ c, relativePath e = c +:+ ".md")
  ∨ relativePath e = rel.
Proof.
  unfold collect_links. intros H He.
  apply bind_Ok in H as (wiki & Hwiki & [= <-]).
  apply elem_of_dedup_links, elem_of_app in He as [He|He].
  - left. apply list_elem_of_omap in He as (o & Ho & Hid). simpl in Hid. subst o.
    apply (mapM_Ok_elem _ _ _ _ Hwiki) in Ho as (m & _ & Hm).
    by apply wiki_entry_guard in Hm as (_ & ? & ?).
  - right. apply list_elem_of_omap in He as (m & _ & Hm).
    by eapply anchor_entry_path.
Qed.

(** C6. A note in the root of the vault that refers to [../x], where a file
    [x.md] lies next to the vault: the run emits a link entry with the
    path [../x.md], which names the file [/x.md] outside the root. And
    where [B.md] is a folder of the vault, the reference [[B]] gets an
    entry whose path names that folder, not a note. *)
Theorem link_entry_outside_root :
  (r ← build_metadata outside_vault ["v"] Vault; Ok (link_lists r.1))
  = Ok [Some [mkLink "x" "../x.md" None None]]
  ∧ named_path (init outside_vault ["v"] Vault) "../x.md" = ["x.md"]
  ∧ names_note_under_root (init outside_vault ["v"] Vault) outside_vault "../x.md" = false
  ∧ (r ← build_metadata folder_md_vault ["v"] Vault; Ok (link_lists r.1))
    = Ok [Some [mkLink "B" "B.md" None None]]
  ∧ is_file folder_md_vault ["v"; "B.md"] = false
  ∧ names_note_under_root (init folder_md_vault ["v"] Vault) folder_md_vault "B.md" = false.
Proof. vm_compute. done. Qed.
End LinkEntries.

(** ** The order of the items *)

Section ItemOrder.
Import Pathlib Fs Links Indexer Props Examples.

Lemma process_file_path (R : Resolver) (fs fs' : FS) (p : AbsPath) (it : Item) :
  process_file R fs p = Ok (it, fs') →
  rel_from_root R p = Ok (item_relativePath it) ∧ fileName it = abs_stem p.
Proof.
  unfold process_file. intros H.
  apply bind_Ok in H as (rel & Hrel & H).
  repeat (apply bind_Ok in H as (? & _ & H)).
  by injection H as <- _.
Qed.

Lemma process_all_paths (R : Resolver) (all_md : list AbsPath)
    (fs fs' : FS) (items : list Item) :
  process_all R fs all_md = Ok (items, fs') →
  Forall2 (λ p it, rel_from_root R p = Ok (item_relativePath it)) all_md items.
Proof.
  revert fs items. induction all_md as [|p l IH]; intros fs items; simpl.
  - intros [= <- _]. constructor.
  - intros H. apply bind_Ok in H as ([it fs1] & Hp & H).
    apply bind_Ok in H as ([its fs2] & Hl & H). injection H as <- <-.
    constructor; [by apply process_file_path in Hp as [? _] | by eapply IH].
Qed.

Lemma add_backlinks_path (forward : gmap string (list string)) (it : Item) :
  item_relativePath (add_backlinks forward it) = item_relativePath it.
Proof. unfold add_backlinks. by destruct (default [] (forward !! item_relativePath it)). Qed.

(** One item for every Markdown file below the root, in the order of the
    directory walk. *)
Lemma build_metadata_one_item_per_note (fs fs' : FS) (root : AbsPath)
    (shortest_mode : Mode) (items : list Item) :
  build_metadata fs root shortest_mode = Ok (items, fs') →
  Forall2 (λ p it, rel_from_root (init fs root shortest_mode) p = Ok (item_relativePath it))
          (List.filter is_md (rglob_files fs root)) items.
Proof.
  unfold build_metadata. intros H.
  apply bind_Ok in H as ([items0 fs0] & Hall & H). injection H as <- _.
  apply process_all_paths in Hall. unfold invert.
  apply Forall2_fmap_r. eapply Forall2_impl; [exact Hall |].
  intros p it Hp. unfold compose. cbn beta in *. by rewrite add_backlinks_path.
Qed.

(** C8. In a vault whose directory walk yields [b.md] before [a.md], the
    resolver has the two notes in sorted order, and the item list of
    [build_metadata] has them in the order of the walk, which is not
    sorted. *)
Theorem items_follow_walk_order :
  ALL_MD (init unsorted_vault ["v"] Vault) = [["v"; "a.md"]; ["v"; "b.md"]]
  ∧ (r ← build_metadata unsorted_vault ["v"] Vault; Ok (item_paths r.1))
    = Ok ["b.md"; "a.md"]
  ∧ is_sorted [["v"; "b.md"]; ["v"; "a.md"]] = false.
Proof. vm_compute. done. Qed.
End ItemOrder.

(** ** Inline tags *)

Section InlineTags.
Import Parse.

(** C9. A hashtag inside an inline code span, and one inside a fenced code
    block, are collected as tags: [parse_frontmatter_and_tags] blanks out
    links, not code, before it scans. *)
Theorem tags_inside_code_are_collected :
  tags (parse_frontmatter_and_tags "use `#foo` here") = ["foo"]
  ∧ tags (parse_frontmatter_and_tags ("```" +:+ nl +:+ "#bar" +:+ nl +:+ "```" +:+ nl))
    = ["bar"].
Proof. vm_compute. done. Qed.

(** What the scan does blank out: a hashtag inside a link. *)
Lemma tags_inside_links_are_skipped :
  tags (parse_frontmatter_and_tags "[[note#sec]] [t](#a) #kept") = ["kept"].
Proof. vm_compute. done. Qed.
End InlineTags.

(** ** The deploy webhook *)

Section WebhookProps.
Import Webhook.
Variable hmac_sha256_hexdigest : string → string → string.
Variable popen : list string → result unit.

(** The script is started exactly when [verify] returns [True] for the
    header and the data of the request, and the process starts. *)
Lemma webhook_launch_iff (env_secret : option string) (r : Request) :
  launched (webhook hmac_sha256_hexdigest env_secret popen r) = [DEPLOY]
  ↔ verify hmac_sha256_hexdigest env_secret (req_signature r) (request_data r) = Ok true
    ∧ is_ok (popen [DEPLOY]) = true.
Proof.
  unfold webhook.
  destruct (verify hmac_sha256_hexdigest env_secret (req_signature r) (request_data r))
    as [[]|e]; simpl.
  - destruct (popen [DEPLOY]); simpl; split; try done. by intros [_ ?].
  - split; [done | by intros [? _]].
  - split; [done | by intros [? _]].
Qed.

(** [verify] returns [True] exactly for a secret that is set and a header
    that is the ASCII text [sha256=] followed by the digest of the body. *)
Lemma verify_true_iff (env_secret sig : option string) (data : string) :
  let digest := "sha256=" +:+ hmac_sha256_hexdigest (SECRET env_secret) data in
  verify hmac_sha256_hexdigest env_secret sig data = Ok true
  ↔ SECRET env_secret ≠ "" ∧ sig = Some digest ∧ is_ascii digest = true.
Proof.
  intros digest. unfold verify. fold digest. unfold Py.truthy.
  destruct (String.eqb_spec (SECRET env_secret) "") as [He|Hne]; cbn [negb].
  { split; [discriminate | by intros [? _]]. }
  destruct sig as [s|]; [| split; [discriminate | by intros (_ & [=] & _)]].
  destruct (String.eqb_spec s "") as [->|Hs]; cbn [negb orb].
  { split; [discriminate | by intros (_ & [=] & _)]. }
  destruct (Py.startswith s "sha256=") eqn:Hpre; cbn [negb orb].
  - unfold compare_digest.
    destruct (is_ascii digest) eqn:Hd; cbn [andb].
    + destruct (is_ascii s) eqn:Hsa.
      * destruct (String.eqb_spec digest s) as [<-|Hds].
        -- split; [done | by intros _].
        -- split; [discriminate | intros (_ & [= ->] & _); done].
      * split; [discriminate | intros (_ & [= ->] & _); congruence].
    + split; [discriminate | by intros (_ & _ & [=])].
  - split; [discriminate |]. intros (_ & [= ->] & _).
    assert (Py.startswith digest "sha256=" = true) by reflexivity. congruence.
Qed.

(** Without a secret, every request is answered 403 and starts nothing. *)
Lemma webhook_no_secret (env_secret : option string) (r : Request) :
  SECRET env_secret = "" →
  webhook hmac_sha256_hexdigest env_secret popen r = mkOutcome 403 [].
Proof. intros H. unfold webhook, verify. by rewrite H. Qed.

(** [verify] raises nothing when the header and the digest are ASCII
    text. *)
Lemma verify_ascii (env_secret sig : option string) (data : string) :
  (∀ s, sig = Some s → is_ascii s = true) →
  (∀ k m, is_ascii (hmac_sha256_hexdigest k m) = true) →
  ∃ b, verify hmac_sha256_hexdigest env_secret sig data = Ok b.
Proof.
  intros Hsig Hhex. unfold verify, compare_digest.
  destruct (negb (Py.truthy (SECRET env_secret))); [by eexists |].
  destruct sig as [s|]; [| by eexists].
  destruct (negb (Py.truthy s) || negb (Py.startswith s "sha256=")); [by eexists |].
  rewrite (Hsig s eq_refl), andb_true_r.
  replace (is_ascii ("sha256=" +:+ hmac_sha256_hexdigest (SECRET env_secret) data))
    with true by (symmetry; apply (Hhex (SECRET env_secret) data)).
  by eexists.
Qed.

(** A request that does not verify and whose header, if it has the prefix,
    is ASCII text like the digest, is answered 403 and starts nothing. *)
Lemma webhook_forbidden (env_secret : option string) (r : Request) :
  (∀ s, req_signature r = Some s → is_ascii s = true) →
  (∀ k m, is_ascii (hmac_sha256_hexdigest k m) = true) →
  verify hmac_sha256_hexdigest env_secret (req_signature r) (request_data r) ≠ Ok true →
  webhook hmac_sha256_hexdigest env_secret popen r = mkOutcome 403 [].
Proof.
  intros Hsig Hhex Hv. unfold webhook.
  destruct (verify_ascii env_secret (req_signature r) (request_data r) Hsig Hhex)
    as [b Hb].
  rewrite Hb in Hv |- *. by destruct b.
Qed.

(** C10. With a secret set, a request whose header is [sha256=] followed by
    a character outside ASCII does not verify, and starts nothing, but it
    is not answered 403: the comparison of the digests raises, and the
    answer has status 500. *)
Theorem webhook_non_ascii_signature (form : bool) (data : string) :
  verify hmac_sha256_hexdigest (Some "s3cret") (Some Examples.latin_sig) data
  = Raise TypeError
  ∧ webhook hmac_sha256_hexdigest (Some "s3cret") popen
      (mkRequest (Some Examples.latin_sig) form data)
    = mkOutcome 500 [].
Proof.
  assert (Hv : ∀ d, verify hmac_sha256_hexdigest (Some "s3cret")
                      (Some Examples.latin_sig) d = Raise TypeError).
  { intros d. unfold verify, compare_digest. simpl.
    replace (is_ascii Examples.latin_sig) with false by reflexivity.
    by rewrite andb_false_r. }
  split; [apply Hv |]. unfold webhook. simpl. by rewrite Hv.
Qed.
End WebhookProps.

(** * Further properties *)

(** ** Strings *)

Section Strings.

Lemma rev_app_spec (s t : string) : String.rev_app s t = String.rev s +:+ t.
Proof.
  unfold String.rev. revert t. induction s as [|a s IH]; intros t; simpl; [done |].
  rewrite (IH (String a t)), (IH (String a "")). by rewrite str_app_assoc.
Qed.

Lemma rev_cons (a : ascii) (s : string) :
  String.rev (String a s) = String.rev s +:+ String a "".
Proof. unfold String.rev at 1. simpl. apply rev_app_spec. Qed.

Lemma str_app_nil_r (s : string) : s +:+ "" = s.
Proof. induction s as [|a s IH]; [done |]. by rewrite str_app_cons, IH. Qed.

Lemma rev_app (a b : string) : String.rev (a +:+ b) = String.rev b +:+ String.rev a.
Proof.
  induction a as [|x a IH].
  - by rewrite str_app_nil, str_app_nil_r.
  - by rewrite str_app_cons, !rev_cons, IH, str_app_assoc.
Qed.

Lemma rev_involutive (s : string) : String.rev (String.rev s) = s.
Proof.
  induction s as [|a s IH]; [done |].
  by rewrite rev_cons, rev_app, IH.
Qed.

Lemma lstrip_with_cons (f : ascii → bool) (c : ascii) (s : string) :
  Py.lstrip_with f (String c s) = if f c then Py.lstrip_with f s else String c s.
Proof. reflexivity. Qed.

Lemma lstrip_with_idem (f : ascii → bool) (s : string) :
  Py.lstrip_with f (Py.lstrip_with f s) = Py.lstrip_with f s.
Proof.
  induction s as [|c s IH]; simpl; [done |].
  destruct (f c) eqn:Hc; [done |]. simpl. by rewrite Hc.
Qed.

Lemma lstrip_with_app_single (f : ascii → bool) (w : string) (c : ascii) :
  Py.lstrip_with f (w +:+ String c "")
  = match Py.lstrip_with f w with
    | EmptyString => if f c then EmptyString else String c EmptyString
    | r => r +:+ String c ""
    end.
Proof.
  induction w as [|d w IH].
  - rewrite str_app_nil. simpl. by destruct (f c).
  - rewrite str_app_cons. simpl. destruct (f d); [done |]. by rewrite str_app_cons.
Qed.

(** [rstrip] from the front: the first character stays unless all is
    stripped. *)
Lemma rstrip_with_cons (f : ascii → bool) (c : ascii) (s : string) :
  Py.rstrip_with f (String c s)
  = match Py.rstrip_with f s with
    | EmptyString => if f c then EmptyString else String c EmptyString
    | r => String c r
    end.
Proof.
  unfold Py.rstrip_with. rewrite rev_cons, lstrip_with_app_single.
  destruct (Py.lstrip_with f (String.rev s)) as [|d r] eqn:Hr.
  - by destruct (f c).
  - rewrite rev_app. change (String.rev (String c "")) with (String c "").
    rewrite str_app_cons, str_app_nil.
    destruct (String.rev (String d r)) eqn:Hrev; [| done].
    apply (f_equal String.rev) in Hrev. rewrite rev_involutive in Hrev. done.
Qed.

Lemma lstrip_rstrip_fixed (f : ascii → bool) (s : string) :
  Py.lstrip_with f s = s → Py.lstrip_with f (Py.rstrip_with f s) = Py.rstrip_with f s.
Proof.
  destruct s as [|c s]; [done |]. simpl.
  destruct (f c) eqn:Hc.
  - intros H. exfalso.
    assert (Hlen : ∀ t, String.length (Py.lstrip_with f t) ≤ String.length t).
    { clear. induction t as [|d t IH]; simpl; [lia |]. destruct (f d); simpl; lia. }
    specialize (Hlen s). rewrite H in Hlen. simpl in Hlen. lia.
  - intros _. rewrite rstrip_with_cons.
    destruct (Py.rstrip_with f s); rewrite ?Hc; simpl; by rewrite Hc.
Qed.

Lemma rstrip_with_idem (f : ascii → bool) (s : string) :
  Py.rstrip_with f (Py.rstrip_with f s) = Py.rstrip_with f s.
Proof. unfold Py.rstrip_with. by rewrite rev_involutive, lstrip_with_idem. Qed.

(** [strip] returns a text that [strip] leaves as it is. *)
Lemma strip_idem (s : string) : Py.strip (Py.strip s) = Py.strip s.
Proof.
  unfold Py.strip, Py.lstrip, Py.rstrip.
  rewrite (lstrip_rstrip_fixed _ (Py.lstrip_with Py.isspace s)) by apply lstrip_with_idem.
  apply rstrip_with_idem.
Qed.

Lemma truthy_ne (s : string) : Py.truthy s = true ↔ s ≠ "".
Proof.
  unfold Py.truthy. destruct (String.eqb_spec s ""); split; try done.
Qed.

Lemma span_all_stop (f : ascii → bool) (a rest : string) :
  Cases.str_all f a = true →
  match rest with String c _ => f c = false | EmptyString => True end →
  Re.span f (a +:+ rest) = (a, rest).
Proof.
  intros Ha Hrest. induction a as [|x a IH].
  - rewrite str_app_nil. destruct rest as [|c rest]; simpl; [done |]. by rewrite Hrest.
  - simpl in Ha. apply andb_prop in Ha as [Hx Ha].
    rewrite str_app_cons. simpl. by rewrite Hx, (IH Ha).
Qed.

Lemma all_space_str_all (s : string) :
  Parse.all_space s = true ↔ Cases.str_all Py.isspace s = true.
Proof.
  unfold Parse.all_space, Py.lstrip. induction s as [|c s IH]; simpl; [done |].
  destruct (Py.isspace c); simpl; [done |]. split; done.
Qed.

End Strings.

(** ** The scan of the vault *)

Section ScanProps.
Import Pathlib Fs Links Props Cases.

Lemma path_le_trans (a b c : AbsPath) : path_le a b → path_le b c → path_le a c.
Proof.
  unfold path_le. revert b c.
  induction a as [|x a IH]; intros [|y b] [|z c]; simpl; try done.
  destruct (String.eqb_spec y x) as [Hyx|Hyx], (String.eqb_spec z y) as [Hzy|Hzy].
  - subst. rewrite String.eqb_refl. apply IH.
  - subst. destruct (String.eqb_spec z x) as [->|_]; done.
  - subst. destruct (String.eqb_spec y x); done.
  - rewrite !str_ltb_false. intros Hxy Hyz.
    destruct (String.eqb_spec z x) as [->|_].
    + destruct Hyx. by apply (anti_symm String.le).
    + apply str_ltb_false. by etrans.
Qed.

Lemma path_ltb_asym (a b : AbsPath) : path_ltb a b = true → path_le a b.
Proof.
  unfold path_le. revert b. induction a as [|x a IH]; intros [|y b]; simpl; try done.
  destruct (String.eqb_spec x y) as [->|Hxy].
  - destruct (String.eqb_spec y y); [apply IH | done].
  - destruct (String.eqb_spec y x) as [->|_]; [done |].
    unfold Py.str_ltb. rewrite (String.compare_antisym x y).
    by destruct (String.compare y x).
Qed.

Lemma insert_sorted_path_le (x : AbsPath) (l : list AbsPath) :
  StronglySorted path_le l → StronglySorted path_le (Py.insert_sorted path_ltb x l).
Proof.
  induction 1 as [|y l Hl IH Hy]; simpl; [repeat constructor |].
  destruct (path_ltb y x) eqn:Hyx.
  - constructor; [done |]. apply Forall_forall. intros z Hz.
    apply elem_of_insert_sorted in Hz as [->|Hz]; [by apply path_ltb_asym |].
    rewrite Forall_forall in Hy. by apply Hy.
  - constructor; [by constructor |]. constructor; [done |].
    eapply Forall_impl; [exact Hy |]. intros z Hz. by eapply path_le_trans.
Qed.

Lemma sorted_path_le (l : list AbsPath) : StronglySorted path_le (Py.sorted path_ltb l).
Proof.
  unfold Py.sorted. induction l as [|x l IH]; simpl; [constructor |].
  by apply insert_sorted_path_le.
Qed.

Lemma insert_sorted_perm {A} (ltb : A → A → bool) (x : A) (l : list A) :
  Py.insert_sorted ltb x l ≡ₚ x :: l.
Proof.
  induction l as [|y l IH]; simpl; [done |].
  destruct (ltb y x); [| done]. rewrite IH. apply Permutation_swap.
Qed.

Lemma sorted_perm {A} (ltb : A → A → bool) (l : list A) : Py.sorted ltb l ≡ₚ l.
Proof.
  unfold Py.sorted. induction l as [|x l IH]; simpl; [done |].
  by rewrite insert_sorted_perm, IH.
Qed.

(** X1. The list [ALL_MD] of a resolver holds the regular Markdown files
    below the root, each as often as the directory walk yields it, in
    the order of [sorted]: no path is followed by one that is below it. *)
Theorem scanned_notes_are_sorted (fs : FS) (root : AbsPath) (shortest_mode : Mode) :
  let R := init fs root shortest_mode in
  StronglySorted path_le (ALL_MD R)
  ∧ ALL_MD R ≡ₚ List.filter is_md (rglob_files fs root)
  ∧ ∀ p, p ∈ ALL_MD R ↔ scanned fs root p.
Proof.
  simpl. split; [apply sorted_path_le |]. split; [apply sorted_perm |].
  intros p. apply (elem_of_ALL_MD fs root shortest_mode p).
Qed.

(** X2. The basename index of a resolver has, under a key, exactly the
    scanned notes that have the key as their file name or as their stem;
    under any other key it has nothing. *)
Theorem basename_index_holds_names_and_stems
    (fs : FS) (root : AbsPath) (shortest_mode : Mode) (k : string) (p : AbsPath) :
  p ∈ index_get (init fs root shortest_mode) k
  ↔ scanned fs root p ∧ (abs_name p = k ∨ abs_stem p = k).
Proof. apply index_get_init. Qed.

Lemma elem_of_basename_matches (fs : FS) (root : AbsPath) (shortest_mode : Mode)
    (candidate : PurePath) (p : AbsPath) :
  p ∈ basename_matches (init fs root shortest_mode) candidate
  ↔ answers fs root candidate p.
Proof.
  unfold basename_matches, answers.
  rewrite elem_of_fromkeys, elem_of_app, !index_get_init. unfold scanned. tauto.
Qed.

(** X3. A target that is not empty and has no null character, with
    nothing at its place next to the current file, that place being
    within the limits of the operating system, and whose name, with or
    without its Markdown extension, is the name or the stem of exactly
    one scanned note, resolves to the path of that note below the root,
    without its Markdown extension, and with the anchor attached
    again. *)
Theorem unique_name_resolves_to_its_note
    (fs : FS) (root : AbsPath) (shortest_mode : Mode)
    (current_file : AbsPath) (raw : string) (p : AbsPath) :
  let R := init fs root shortest_mode in
  let typed := Py.strip (Py.split1 "#" raw).1 in
  let anchor := (Py.split1 "#" raw).2 in
  let candidate := candidate_of typed in
  let abs_path := join_resolve (parent current_file) candidate in
  typed ≠ "" →
  existsb has_nul (segs candidate) = false →
  present fs abs_path = false →
  within_limits abs_path = true →
  answers fs root candidate p →
  (∀ q, answers fs root candidate q → q = p) →
  find_target_path R fs current_file raw
  = Ok (with_anchor
          (strip_md_ext (as_posix (mkPath "" (drop (length root) p)))) anchor).
Proof.
  intros R typed anchor candidate abs_path Hne Hnul Hp0 Hlim Hp Hall.
  assert (Huniq : basename_matches R candidate = [p]).
  { apply NoDup_all_equal.
    - apply NoDup_fromkeys.
    - by apply (elem_of_basename_matches fs root shortest_mode candidate p).
    - intros q Hq. apply Hall.
      by apply (elem_of_basename_matches fs root shortest_mode candidate q). }
  rewrite find_target_path_steps by done. fold typed anchor candidate.
  unfold resolve. rewrite Hnul. simpl.
  rewrite (exists_within fs (parent current_file) candidate Hlim Hp0). simpl.
  rewrite Huniq.
  destruct Hp as [(Hpre & _ & _) _].
  unfold rel_noext, rel_from_root, relative_to. simpl.
  unfold strict_prefix in Hpre. apply andb_prop in Hpre as [-> _]. done.
Qed.

(** X3, at the link [[Child#Intro]] in the worked vault. *)
Lemma unique_name_resolves_to_its_note_witness :
  find_target_path (init Examples.worked_vault ["v"] Vault) Examples.worked_vault
    ["v"; "Root.md"] "Child#Intro" = Ok "Sub/Child#Intro".
Proof.
  apply (unique_name_resolves_to_its_note Examples.worked_vault ["v"] Vault
           ["v"; "Root.md"] "Child#Intro" ["v"; "Sub"; "Child.md"]).
  - done.
  - vm_compute. reflexivity.
  - vm_compute. reflexivity.
  - vm_compute. reflexivity.
  - repeat split; try (vm_compute; reflexivity). right. left. vm_compute. reflexivity.
  - intros q [(Hpre & Hfile & Hmd) Hname].
    apply bool_decide_eq_true in Hfile.
    vm_compute in Hfile.
    repeat (apply elem_of_cons in Hfile as [->|Hfile]); try by apply elem_of_nil in Hfile.
    + vm_compute in Hname. destruct Hname as [?|[?|[?|?]]]; discriminate.
    + vm_compute in Hname. destruct Hname as [?|[?|[?|?]]]; discriminate.
    + done.
Defined.

End ScanProps.

(** ** Targets that exist, and targets without a segment *)

Section Targets.
Import Pathlib Fs Links Props Cases.

(** The first branch of [find_target_path]: the target exists. *)
Lemma find_target_path_existing
    (R : Resolver) (fs : FS) (current_file : AbsPath) (raw : string) :
  let typed := Py.strip (Py.split1 "#" raw).1 in
  let anchor := (Py.split1 "#" raw).2 in
  let abs_path := join_resolve (parent current_file) (candidate_of typed) in
  typed ≠ "" →
  exists_ fs abs_path = Ok true →
  find_target_path R fs current_file raw
  = if existsb has_nul (segs (candidate_of typed)) then Raise ValueError
    else if is_prefix (ROOT R) abs_path
    then Ok (with_anchor
               (strip_md_ext (as_posix (mkPath "" (drop (length (ROOT R)) abs_path))))
               anchor)
    else Raise ValueError.
Proof.
  intros typed anchor abs_path Hne Hex.
  rewrite find_target_path_steps by done. fold typed anchor.
  unfold resolve. destruct (existsb has_nul (segs (candidate_of typed))); [done |].
  simpl. fold abs_path. rewrite Hex. simpl.
  unfold rel_noext, rel_from_root, relative_to.
  by destruct (is_prefix (ROOT R) abs_path).
Qed.

(** X4. A target that is not empty and names an existing file or folder,
    seen from the directory of the current file, resolves to the path of
    that place below the root, without a Markdown extension and with the
    anchor attached again; when the place is not below the root,
    [find_target_path] raises [ValueError], as it does when the typed
    path has a null character in a segment that its resolution drops. *)
Theorem existing_target_resolves_from_current_directory
    (R : Resolver) (fs : FS) (current_file : AbsPath) (raw : string) :
  let typed := Py.strip (Py.split1 "#" raw).1 in
  let anchor := (Py.split1 "#" raw).2 in
  let abs_path := join_resolve (parent current_file) (candidate_of typed) in
  typed ≠ "" →
  exists_ fs abs_path = Ok true →
  find_target_path R fs current_file raw
  = if existsb has_nul (segs (candidate_of typed)) then Raise ValueError
    else if is_prefix (ROOT R) abs_path
    then Ok (with_anchor
               (strip_md_ext (as_posix (mkPath "" (drop (length (ROOT R)) abs_path))))
               anchor)
    else Raise ValueError.
Proof. apply find_target_path_existing. Qed.

(** X4, at the reference [..] in a note of the root, which names
    the folder above the vault. *)
Lemma existing_target_resolves_from_current_directory_witness :
  find_target_path Examples.lone_R Examples.lone_vault Examples.lone_cur ".."
  = Raise ValueError.
Proof.
  apply (existing_target_resolves_from_current_directory
           Examples.lone_R Examples.lone_vault Examples.lone_cur "..").
  - done.
  - vm_compute. reflexivity.
Defined.

(** The vault mode on the resolver of a scanned vault: the segments of
    the target decide whether it raises. *)
Lemma shortest_suffix_outcome
    (fs : FS) (root : AbsPath) (shortest_mode : Mode) (t : string) :
  match _shortest_suffix_from_vault (init fs root shortest_mode) t with
  | Ok _ => parts (parse t) ≠ []
  | Raise e => e = IndexError ∧ parts (parse t) = []
  end.
Proof.
  destruct (parts (parse t)) as [|a l] eqn:Hparts.
  - unfold _shortest_suffix_from_vault.
    destruct (conflict_noext_total fs root shortest_mode (name (parse t))) as [k ->].
    simpl. rewrite Hparts. done.
  - destruct (shortest_suffix_total fs root shortest_mode t) as [s ->]; [| done].
    by rewrite Hparts.
Qed.

(** X5. For the resolver of a scanned vault, the vault mode computes a
    reference for every target path that has a segment, and raises
    [IndexError] for a path without one (the empty path and [.]): its
    list of candidate suffixes is empty. *)
Theorem vault_reference_raises_only_without_segment
    (fs : FS) (root : AbsPath) (shortest_mode : Mode) (t : string) :
  match _shortest_suffix_from_vault (init fs root shortest_mode) t with
  | Ok _ => parts (parse t) ≠ []
  | Raise e => e = IndexError ∧ parts (parse t) = []
  end.
Proof. apply shortest_suffix_outcome. Qed.

Lemma is_prefix_refl (l : list string) : is_prefix l l = true.
Proof. induction l as [|x l IH]; simpl; [done |]. by rewrite String.eqb_refl. Qed.

Lemma is_prefix_app (l k : list string) : is_prefix l (l ++ k) = true.
Proof. induction l as [|x l IH]; simpl; [done |]. by rewrite String.eqb_refl. Qed.

Lemma strict_prefix_snoc (l : list string) (x : string) : strict_prefix l (l ++ [x]) = true.
Proof.
  unfold strict_prefix. rewrite is_prefix_app, List.length_app. simpl.
  apply negb_true_iff, Nat.eqb_neq. lia.
Qed.

(** X6. In vault mode, the reference [.] in a note that lies directly in
    the root of the vault makes the resolution raise [IndexError]: the
    root exists, its path below itself has no segment, and the vault mode
    has no candidate for it. *)
Theorem dot_reference_in_root_note_raises
    (fs : FS) (root : AbsPath) (n : string) :
  normalize root = root →
  is_file fs (root ++ [n]) = true →
  resolve_target_for_text_and_meta (init fs root Vault) fs (root ++ [n]) "."
  = Raise IndexError.
Proof.
  intros Hroot Hfile.
  assert (Hex : exists_ fs root = Ok true).
  { unfold exists_. replace (present fs root) with true; [done |]. symmetry.
    unfold present, is_dir. apply orb_true_iff. right.
    apply orb_true_iff. left. apply orb_true_iff. right.
    apply existsb_exists. exists (root ++ [n]). split; [| apply strict_prefix_snoc].
    apply in_or_app. left. apply list_elem_of_In.
    unfold is_file in Hfile. by apply bool_decide_eq_true in Hfile. }
  assert (Hfind : find_target_path (init fs root Vault) fs (root ++ [n]) "." = Ok ".").
  { rewrite find_target_path_existing.
    - change (Py.strip (Py.split1 "#" ".").1) with ".".
      change (candidate_of ".") with (mkPath "" []).
      unfold join_resolve, parent. simpl.
      rewrite removelast_last, app_nil_r, Hroot, is_prefix_refl, drop_all. done.
    - done.
    - change (Py.strip (Py.split1 "#" ".").1) with ".".
      change (candidate_of ".") with (mkPath "" []).
      unfold join_resolve, parent. simpl.
      by rewrite removelast_last, app_nil_r, Hroot. }
  change (resolve_target_for_text_and_meta (init fs root Vault) fs (root ++ [n]) ".")
    with (abs_no_ext ← find_target_path (init fs root Vault) fs (root ++ [n]) ".";
          shortest ← _shortest_suffix_from_vault (init fs root Vault)
                       (Py.split1 "#" abs_no_ext).1;
          Ok (with_anchor shortest None, Some ((Py.split1 "#" abs_no_ext).1 +:+ ".md"))).
  rewrite Hfind. simpl.
  pose proof (shortest_suffix_outcome fs root Vault ".") as H.
  destruct (_shortest_suffix_from_vault (init fs root Vault) ".") as [s|e].
  - by destruct H.
  - by destruct H as [-> _].
Qed.

(** X6, at the note [cur.md] in the root of a vault. *)
Lemma dot_reference_in_root_note_raises_witness :
  resolve_target_for_text_and_meta Examples.lone_R Examples.lone_vault
    Examples.lone_cur "." = Raise IndexError.
Proof.
  apply (dot_reference_in_root_note_raises Examples.lone_vault ["v"] "cur.md").
  - reflexivity.
  - reflexivity.
Defined.

Lemma find_target_path_with_mode (R : Resolver) (m : Mode) (fs : FS)
    (current_file : AbsPath) (raw : string) :
  find_target_path (with_mode R m) fs current_file raw
  = find_target_path R fs current_file raw.
Proof. reflexivity. Qed.

(** In vault mode, the reference [.] in a note of the root raises, and in
    relative mode it returns. *)
Example relative_mode_returns_for_dot :
  resolve_target_for_text_and_meta (with_mode Examples.lone_R Vault)
    Examples.lone_vault Examples.lone_cur "." = Raise IndexError
  ∧ is_ok (resolve_target_for_text_and_meta (with_mode Examples.lone_R Relative)
             Examples.lone_vault Examples.lone_cur ".") = true.
Proof. vm_compute. done. Qed.

(** X7. For one link of one note, the two modes compare as follows.
    Where the vault mode returns, the relative mode returns as well, with
    the same metadata path. What the relative mode raises is raised by
    [find_target_path], and the vault mode raises it too. Where the
    relative mode returns and the vault mode raises, it is the
    computation of the shortest suffix that raises. *)
Theorem relative_mode_returns_where_vault_mode_does
    (R : Resolver) (fs : FS) (current_file : AbsPath) (raw : string) :
  let target := Py.strip (Py.split1 "#" (Py.split1 "|" raw).1).1 in
  let vault := resolve_target_for_text_and_meta (with_mode R Vault) fs current_file raw in
  let relative :=
    resolve_target_for_text_and_meta (with_mode R Relative) fs current_file raw in
  (∀ t1 meta, vault = Ok (t1, meta) → ∃ t2, relative = Ok (t2, meta))
  ∧ (∀ e, relative = Raise e →
          vault = Raise e ∧ find_target_path R fs current_file target = Raise e)
  ∧ (∀ t2 meta e, relative = Ok (t2, meta) → vault = Raise e →
       ∃ a, find_target_path R fs current_file target = Ok a
            ∧ _shortest_suffix_from_vault R (Py.split1 "#" a).1 = Raise e).
Proof.
  intros target vault relative. subst target vault relative.
  unfold resolve_target_for_text_and_meta.
  destruct (Py.split1 "#" (Py.split1 "|" raw).1) as [target anchor]. simpl.
  destruct (String.eqb_spec (Py.strip target) "") as [He|Hne].
  { repeat split; try done. intros t1 meta H. injection H as <- <-. by exists raw. }
  rewrite !find_target_path_with_mode.
  destruct (find_target_path R fs current_file (Py.strip target)) as [a|e0]; simpl.
  - change (_shortest_suffix_from_vault (with_mode R Vault) (Py.split1 "#" a).1)
      with (_shortest_suffix_from_vault R (Py.split1 "#" a).1).
    destruct (_shortest_suffix_from_vault R (Py.split1 "#" a).1) as [s|e1] eqn:Hs;
      simpl.
    + repeat split; try done. intros t1 meta H. injection H as <- <-. eauto.
    + repeat split; try done. intros t2 meta e _ [= <-]. by exists a.
  - repeat split; try done; congruence.
Qed.

End Targets.

(** ** Alias and anchor of a wikilink *)

Section AliasAnchor.
Import Pathlib Fs Links Props Cases.

Lemma split1_Some (c : ascii) (s a b : string) :
  Py.split1 c s = (a, Some b) → s = a +:+ String c b.
Proof.
  revert a. induction s as [|d s IH]; intros a; simpl; [done |].
  destruct (Ascii.eqb_spec c d) as [->|_]; [by intros [= <- <-] |].
  destruct (Py.split1 c s) as [a' b']. intros [= <- ->].
  by rewrite str_app_cons, <- (IH a' eq_refl).
Qed.

Lemma split1_None (c : ascii) (s a : string) : Py.split1 c s = (a, None) → s = a.
Proof.
  revert a. induction s as [|d s IH]; intros a; simpl; [by intros [= <-] |].
  destruct (Ascii.eqb c d); [done |].
  destruct (Py.split1 c s) as [a' b']. intros [= <- ->]. by rewrite (IH a' eq_refl).
Qed.

(** The text is the target part and what shows the alias. *)
Lemma split1_alias (body : string) :
  body = (Py.split1 "|" body).1 +:+ alias_suffix (Py.split1 "|" body).2.
Proof.
  destruct (Py.split1 "|" body) as [tp [a|]] eqn:H; simpl.
  - by apply split1_Some in H.
  - apply split1_None in H. by rewrite str_app_nil_r.
Qed.

Lemma wiki_link_match_shape (s : string) (m : Re.WikiMatch) :
  Re.wiki_link_match s = Some m →
  (Re.wiki_bang m = "" ∨ Re.wiki_bang m = "!")
  ∧ Re.wiki_all m = Re.wiki_bang m +:+ "[[" +:+ Re.wiki_body m +:+ "]]".
Proof.
  unfold Re.wiki_link_match.
  assert (Hb : (Re.opt_bang s).1 = "" ∨ (Re.opt_bang s).1 = "!").
  { unfold Re.opt_bang. destruct s as [|c s]; [by left |]. char_cases c; auto. }
  destruct (Re.opt_bang s) as [bang s1]. simpl in Hb.
  unfold Re.wiki_link_after_bang.
  destruct s1 as [|c1 [|c2 s2]]; [done | char_cases c1 |].
  destruct (Ascii.eqb_spec c1 "[") as [->|Hc1]; [| char_cases c1].
  destruct (Ascii.eqb_spec c2 "[") as [->|Hc2]; [| char_cases c2].
  destruct (Re.lazy_body s2) as [body|]; [| done].
  intros [= <-]. simpl. done.
Qed.

Lemma resolve_text_shape (R : Resolver) (fs : FS) (p : AbsPath) (raw tt : string)
    (meta : option string) :
  resolve_target_for_text_and_meta R fs p raw = Ok (tt, meta) →
  tt = raw
  ∨ ∃ shortest, tt = with_anchor shortest (Py.split1 "#" (Py.split1 "|" raw).1).2.
Proof.
  unfold resolve_target_for_text_and_meta.
  destruct (Py.split1 "#" (Py.split1 "|" raw).1) as [target anchor]. simpl.
  destruct (String.eqb (Py.strip target) ""); [intros [= <- _]; by left |].
  intros H. apply bind_Ok in H as (a & _ & H).
  apply bind_Ok in H as (shortest & _ & [= <- _]). right. by exists shortest.
Qed.

(** X8. The second pass keeps the alias and the anchor of every wikilink:
    what it returns for a match is the ["!"] of the match, two opening
    brackets, a target, the alias of the match behind its bar, and two
    closing brackets; for a note link, a non-empty anchor of the typed
    target ends the new target. *)
Theorem wikilink_keeps_alias_and_anchor
    (R : Resolver) (fs : FS) (current_file : AbsPath) (s : string)
    (m : Re.WikiMatch) (out : string) :
  Re.wiki_link_match s = Some m →
  wiki_repl R fs current_file m = Ok out →
  ∃ target,
    out = Re.wiki_bang m +:+ "[[" +:+ target
          +:+ alias_suffix (Py.split1 "|" (Re.wiki_body m)).2 +:+ "]]"
    ∧ (Re.wiki_bang m = "" →
       ∀ a, (Py.split1 "#" (Py.split1 "|" (Re.wiki_body m)).1).2 = Some a → a ≠ "" →
            ∃ pre, target = pre +:+ "#" +:+ a).
Proof.
  intros [Hbang Hall]%wiki_link_match_shape. unfold wiki_repl.
  pose proof (split1_alias (Re.wiki_body m)) as Hbody.
  destruct (Py.split1 "|" (Re.wiki_body m)) as [target_part alias] eqn:Hsplit.
  simpl in Hbody. simpl.
  destruct Hbang as [Hb|Hb]; rewrite Hb in *; simpl.
  - intros H. apply bind_Ok in H as ([tt meta] & Hres & H).
    apply resolve_text_shape in Hres. rewrite Hsplit in Hres. simpl in Hres.
    destruct (negb (Py.truthy tt) || String.eqb (Py.strip tt) (Py.strip (Re.wiki_body m)))
      eqn:Hsame.
    + injection H as <-. exists target_part. split.
      * rewrite Hall, Hbody. by autorewrite with str.
      * intros _ a Ha _. destruct (Py.split1 "#" target_part) as [pre anchor] eqn:Hsp.
        simpl in Ha. subst anchor. apply split1_Some in Hsp. by exists pre.
    + exists tt. split.
      * destruct alias; injection H as <-; simpl; by autorewrite with str.
      * intros _ a Ha Hne. destruct Hres as [->|[shortest ->]].
        { rewrite String.eqb_refl, orb_true_r in Hsame. done. }
        rewrite Ha. simpl. apply truthy_ne in Hne. rewrite Hne. by exists shortest.
  - intros H. apply bind_Ok in H as (asset_rel & _ & H).
    exists asset_rel. split; [| done].
    destruct alias; injection H as <-; simpl; by autorewrite with str.
Qed.

(** X8, at the link [[Child#Intro|the child]] in the worked vault. *)
Lemma wikilink_keeps_alias_and_anchor_witness :
  ∃ target,
    "[[Sub/Child#Intro|the child]]"
    = "" +:+ "[[" +:+ target +:+ alias_suffix (Some "the child") +:+ "]]"
    ∧ ("" = "" →
       ∀ a, Some "Intro" = Some a → a ≠ "" → ∃ pre, target = pre +:+ "#" +:+ a).
Proof.
  apply (wikilink_keeps_alias_and_anchor (init Examples.worked_vault ["v"] Vault)
           Examples.worked_vault ["v"; "Root.md"] "[[Child#Intro|the child]] and more"
           (Re.mkWiki "" "Child#Intro|the child" "[[Child#Intro|the child]]")
           "[[Sub/Child#Intro|the child]]").
  - vm_compute. reflexivity.
  - vm_compute. reflexivity.
Defined.

End AliasAnchor.

(** ** Attachments next to the note, and names that no pattern takes *)

Section NearAttachments.
Import Pathlib Fs Links Props Cases.

Lemma insert_sorted_head_least {A} (ltb : A → A → bool) (key : A → nat) (x : A) (l : list A) :
  (∀ a b, ltb a b = true → key a ≤ key b) →
  (∀ a b, ltb a b = false → key b ≤ key a) →
  match l with [] => True | h :: _ => Forall (λ z, key h ≤ key z) l end →
  match Py.insert_sorted ltb x l with
  | [] => True
  | h :: _ => Forall (λ z, key h ≤ key z) (Py.insert_sorted ltb x l)
  end.
Proof.
  intros Hlt Hge. destruct l as [|y l]; simpl; [by repeat constructor |].
  intros Hy. destruct (ltb y x) eqn:Hyx.
  - apply Forall_forall. intros z Hz.
    apply elem_of_cons in Hz as [->|Hz]; [done |].
    apply elem_of_insert_sorted in Hz as [->|Hz]; [by apply Hlt |].
    rewrite Forall_forall in Hy. apply Hy. by right.
  - constructor; [done |]. eapply Forall_impl; [exact Hy |].
    intros z Hz. simpl in Hz. specialize (Hge _ _ Hyx). lia.
Qed.

Lemma sorted_head_least {A} (ltb : A → A → bool) (key : A → nat) (l : list A) :
  (∀ a b, ltb a b = true → key a ≤ key b) →
  (∀ a b, ltb a b = false → key b ≤ key a) →
  match Py.sorted ltb l with
  | [] => True
  | h :: _ => Forall (λ z, key h ≤ key z) (Py.sorted ltb l)
  end.
Proof.
  intros Hlt Hge. unfold Py.sorted. induction l as [|x l IH]; simpl; [done |].
  by apply insert_sorted_head_least.
Qed.

Lemma common_prefix_len_app (l k : list string) : common_prefix_len l (l ++ k) = length l.
Proof.
  induction l as [|x l IH]; simpl; [by destruct k |]. by rewrite String.eqb_refl, IH.
Qed.

Lemma removelast_abs_name (p : AbsPath) : p ≠ [] → p = removelast p ++ [abs_name p].
Proof.
  unfold abs_name. induction p as [|x p IH]; [done |]. intros _.
  destruct p as [|y p]; [done |].
  change (removelast (x :: y :: p)) with (x :: removelast (y :: p)).
  change (last (x :: y :: p)) with (last (y :: p)).
  simpl. f_equal. by apply IH.
Qed.

(** The path of a file, seen from its own directory, is its name. *)
Lemma to_rel_child (base : AbsPath) (n : string) :
  to_rel base (base ++ [n]) = Py.replace_char "\" "/" n.
Proof.
  unfold to_rel, relpath.
  by rewrite common_prefix_len_app, Nat.sub_diag, list.drop_app_length.
Qed.

Lemma to_rel_same_directory (p : AbsPath) :
  p ≠ [] → to_rel (parent p) p = Py.replace_char "\" "/" (abs_name p).
Proof.
  intros Hp. unfold parent.
  rewrite (removelast_abs_name p Hp) at 2. apply to_rel_child.
Qed.

(** X9. When one of the files that match the name of an attachment lies
    in the directory of the note, the reference that is written names a
    file of that directory, by its file name. *)
Theorem attachment_next_to_note_wins
    (R : Resolver) (fs : FS) (current_file : AbsPath) (raw r : string)
    (candidates : list AbsPath) (c : AbsPath) :
  let target := Py.strip (Py.split1 "|" raw).1 in
  target ≠ "" →
  asset_candidates R fs (name (parse target)) = Ok candidates →
  c ∈ candidates →
  parent c = parent current_file →
  resolve_asset_for_text R fs current_file raw = Ok r →
  ∃ best, best ∈ candidates ∧ parent best = parent current_file
          ∧ r = dot_slash (Py.replace_char "\" "/" (abs_name best)).
Proof.
  intros target Hne Hc Hin Hpar. unfold resolve_asset_for_text. fold target.
  destruct (String.eqb_spec target "") as [|_]; [done |]. rewrite Hc. simpl.
  set (base := parent current_file) in *.
  set (key := λ p : AbsPath, if bool_decide (parent p = base) then 0 else 1).
  pose proof (sorted_head_least (λ p q, rank_ltb (rank base p) (rank base q))
                key candidates) as Hleast.
  destruct (Py.sorted _ candidates) as [|best rest] eqn:Hsort.
  { apply sorted_nil_inv in Hsort. subst. by apply elem_of_nil in Hin. }
  intros [= <-].
  assert (Hbest : best ∈ candidates).
  { eapply elem_of_sorted. rewrite Hsort. by left. }
  assert (Hc' : c ∈ best :: rest).
  { rewrite <- Hsort. by apply elem_of_sorted. }
  assert (Hkey : key best ≤ key c).
  { assert (HF : Forall (λ z, key best ≤ key z) (best :: rest)).
    { apply Hleast.
      - intros a b. unfold rank, rank_ltb, key.
        destruct (bool_decide (parent a = base)), (bool_decide (parent b = base));
          simpl; intros; lia || done.
      - intros a b. unfold rank, rank_ltb, key.
        destruct (bool_decide (parent a = base)), (bool_decide (parent b = base));
          simpl; intros; lia || done. }
    rewrite Forall_forall in HF. by apply HF. }
  unfold key in Hkey. rewrite (bool_decide_eq_true_2 _ Hpar) in Hkey.
  destruct (bool_decide (parent best = base)) eqn:Hb; [| lia].
  apply bool_decide_eq_true in Hb.
  exists best. split; [done |]. split; [done |].
  assert (Hne' : best ≠ []).
  { destruct (asset_candidates_spec _ _ _ _ _ Hc Hbest) as [_ Hpre].
    intros ->. unfold strict_prefix in Hpre. by destruct (ROOT R). }
  by rewrite <- Hb, to_rel_same_directory.
Qed.

(** X9, at an image next to the note and one in [assets]. *)
Lemma attachment_next_to_note_wins_witness :
  ∃ best, best ∈ [["v"; "assets"; "img.png"]; ["v"; "n"; "img.png"]]
          ∧ parent best = parent near_note
          ∧ "img.png" = dot_slash (Py.replace_char "\" "/" (abs_name best)).
Proof.
  apply (attachment_next_to_note_wins near_R near_vault near_note "img.png" "img.png"
           [["v"; "assets"; "img.png"]; ["v"; "n"; "img.png"]] ["v"; "n"; "img.png"]).
  - done.
  - vm_compute. reflexivity.
  - apply list_elem_of_further, list_elem_of_here.
  - reflexivity.
  - vm_compute. reflexivity.
Defined.

Lemma has_double_star_cons (c : ascii) (s : string) :
  Glob.has_double_star s = true → Glob.has_double_star (String c s) = true.
Proof.
  intros H. destruct (Ascii.eqb_spec c "*") as [->|Hc].
  - destruct s as [|d s]; [done |].
    destruct (Ascii.eqb_spec d "*") as [->|Hd]; [done |].
    revert H. char_cases d.
  - revert H. char_cases c.
Qed.

Lemma has_double_star_app (a b : string) :
  Glob.has_double_star a = true → Glob.has_double_star (a +:+ b) = true.
Proof.
  induction a as [|c a IH]; [done |]. rewrite str_app_cons.
  destruct (Ascii.eqb_spec c "*") as [->|Hc].
  - destruct a as [|d a]; [done |].
    destruct (Ascii.eqb_spec d "*") as [->|Hd]; [done |].
    intros H. apply has_double_star_cons, IH. revert H. char_cases d.
  - intros H. apply has_double_star_cons, IH. revert H. char_cases c.
Qed.

(** X10. An attachment whose name has two stars in a row is searched with a
    pattern that [rglob] refuses: the resolution raises [ValueError]. *)
Theorem attachment_with_two_stars_raises
    (R : Resolver) (fs : FS) (current_file : AbsPath) (raw : string) :
  let target := Py.strip (Py.split1 "|" raw).1 in
  target ≠ "" →
  Glob.has_double_star (name (parse target)) = true →
  resolve_asset_for_text R fs current_file raw = Raise ValueError.
Proof.
  intros target Hne Hstar. unfold resolve_asset_for_text. fold target.
  destruct (String.eqb_spec target "") as [|_]; [done |].
  assert (Hraise : ∀ pat, pat ∉ [""; "."; ".."; "**"] →
                          Glob.has_double_star pat = true →
                          Glob.rglob fs (ROOT R) pat = Raise ValueError).
  { intros pat Hnot Hpat. unfold Glob.rglob.
    by rewrite (bool_decide_eq_false_2 _ Hnot), Hpat. }
  unfold asset_candidates.
  destruct (Py.contains "." (name (parse target))) eqn:Hdot.
  - rewrite Hraise; [done | | done].
    intros Hin. repeat (apply elem_of_cons in Hin as [Hin|Hin]);
      try (by apply elem_of_nil in Hin); rewrite Hin in Hstar, Hdot; done.
  - unfold ASSET_EXTS, IMG_EXTS. cbn [app mapM].
    rewrite (Hraise (name (parse target) +:+ ".png"));
      [done | | by apply has_double_star_app].
    intros Hin.
    assert (Hlen : 4 ≤ String.length (name (parse target) +:+ ".png"))
      by (rewrite length_app; simpl; lia).
    repeat (apply elem_of_cons in Hin as [Hin|Hin]);
      try (by apply elem_of_nil in Hin); rewrite Hin in Hlen; simpl in Hlen; lia.
Qed.

(** X10, at the embed of [a**b.png]. *)
Lemma attachment_with_two_stars_raises_witness :
  resolve_asset_for_text Examples.asset_R Examples.asset_vault Examples.asset_note
    "a**b.png" = Raise ValueError.
Proof.
  apply (attachment_with_two_stars_raises Examples.asset_R Examples.asset_vault
           Examples.asset_note "a**b.png"); done.
Defined.

End NearAttachments.

(** ** The search for an attachment by its name *)

Section NameSearch.
Import Pathlib Fs Links Props Cases.

Lemma fnmatch_go_literal_step (fuel : nat) (p : ascii) (pat name : list ascii) :
  is_literal p = true →
  Glob.fnmatch_go (S fuel) (p :: pat) name
  = match name with
    | c :: name' => Ascii.eqb p c && Glob.fnmatch_go fuel pat name'
    | [] => false
    end.
Proof. char_cases p. Qed.

Lemma fnmatch_go_literal (fuel : nat) (pat name : list ascii) :
  forallb is_literal pat = true → length pat < fuel →
  Glob.fnmatch_go fuel pat name = bool_decide (pat = name).
Proof.
  revert pat name. induction fuel as [|fuel IH]; intros pat name Hlit Hfuel; [lia |].
  destruct pat as [|p pat].
  - by destruct name.
  - simpl in Hlit. apply andb_prop in Hlit as [Hp Hlit].
    rewrite (fnmatch_go_literal_step _ _ _ _ Hp).
    destruct name as [|c name]; [done |].
    rewrite (IH pat name Hlit) by (simpl in Hfuel; lia).
    destruct (Ascii.eqb_spec p c) as [->|Hpc]; simpl.
    + apply bool_decide_ext. split; [by intros -> | by intros [= ->]].
    + symmetry. apply bool_decide_eq_false. by intros [= ? _].
Qed.

Lemma str_all_forallb (f : ascii → bool) (s : string) :
  str_all f s = forallb f (String.list_ascii_of_string s).
Proof. induction s as [|c s IH]; simpl; [done | by rewrite IH]. Qed.

Lemma list_ascii_inj (a b : string) :
  String.list_ascii_of_string a = String.list_ascii_of_string b → a = b.
Proof.
  revert b. induction a as [|c a IH]; intros [|d b]; simpl; try done.
  intros [= -> H]. by rewrite (IH b H).
Qed.

(** [fnmatch] with a pattern without wildcards is equality. *)
Lemma fnmatch_literal (pat name : string) :
  literal pat = true → Glob.fnmatch pat name = bool_decide (pat = name).
Proof.
  intros Hlit. unfold Glob.fnmatch, literal in *. rewrite str_all_forallb in Hlit.
  rewrite fnmatch_go_literal by (done || lia).
  apply bool_decide_ext. split; [apply list_ascii_inj | by intros ->].
Qed.

Lemma literal_no_double_star (s : string) :
  literal s = true → Glob.has_double_star s = false.
Proof.
  unfold literal. induction s as [|c s IH]; [done |].
  intros [Hc Hs]%andb_prop. specialize (IH Hs).
  destruct (Ascii.eqb_spec c "*") as [->|Hne]; [done |].
  revert IH. clear -Hne. char_cases c.
Qed.

Lemma literal_app (a b : string) :
  literal a = true → literal b = true → literal (a +:+ b) = true.
Proof.
  unfold literal. intros Ha Hb. induction a as [|c a IH]; [done |].
  simpl in Ha. apply andb_prop in Ha as [Hc Ha].
  rewrite str_app_cons. simpl. by rewrite Hc, (IH Ha).
Qed.

Lemma contains_cons (c d : ascii) (s : string) :
  Py.contains c (String d s) = Ascii.eqb c d || Py.contains c s.
Proof. reflexivity. Qed.

Lemma literal_no_wildcard (s : string) :
  literal s = true → Glob.is_wildcard s = false.
Proof.
  unfold literal, Glob.is_wildcard. induction s as [|c s IH]; [done |].
  intros [Hc Hs]%andb_prop. specialize (IH Hs).
  apply orb_false_iff in IH as [[H1 H2]%orb_false_iff H3].
  rewrite !contains_cons, H1, H2, H3, !orb_false_r.
  unfold is_literal in Hc.
  apply andb_prop in Hc as [[Ha Hb]%andb_prop Hd].
  apply negb_true_iff in Ha, Hb, Hd.
  rewrite (Ascii.eqb_sym "*" c), (Ascii.eqb_sym "?" c), (Ascii.eqb_sym "[" c).
  by rewrite Ha, Hb, Hd.
Qed.

Lemma mapM_is_Ok {A B} (f : A → result B) (l : list A) :
  Forall (λ x, ∃ y, f x = Ok y) l → ∃ k, mapM f l = Ok k.
Proof.
  induction 1 as [|x l [y Hy] _ [k Hk]]; simpl; [by eexists |].
  rewrite Hy, Hk. by eexists.
Qed.

(** Within the limits, the existence test raises nothing. *)
Lemma exists_is_Ok (fs : FS) (p : AbsPath) :
  within_limits p = true → ∃ b, exists_ fs p = Ok b.
Proof.
  intros Hlim. unfold exists_. destruct (present fs p); [by eexists |].
  by apply stat_exists_within.
Qed.

Lemma rglob_literal (fs : FS) (root : AbsPath) (pat : string) :
  literal pat = true →
  pat ∉ [""; "."; ".."] →
  searchable fs root pat →
  ∃ l, Glob.rglob fs root pat = Ok l
       ∧ ∀ p, p ∈ l ↔ is_file fs p = true ∧ strict_prefix root p = true ∧ abs_name p = pat.
Proof.
  intros Hlit Hnot Hlim. unfold Glob.rglob.
  rewrite bool_decide_eq_false_2.
  2:{ intros [->|[->|[->|[->|[]%elem_of_nil]%elem_of_cons]%elem_of_cons]%elem_of_cons]%elem_of_cons;
        try done; apply Hnot; set_solver. }
  rewrite (literal_no_double_star _ Hlit), (literal_no_wildcard _ Hlit).
  destruct (mapM_is_Ok (λ d, exists_ fs (d ++ [pat])) (dirs_from fs root)) as [k ->].
  { eapply Forall_impl; [exact Hlim |]. intros d Hd. by apply exists_is_Ok. }
  simpl. eexists. split; [done |]. intros p.
  rewrite list_elem_of_In, filter_In, <- list_elem_of_In.
  unfold rglob_files, is_file.
  rewrite list_elem_of_In, filter_In, <- list_elem_of_In, bool_decide_eq_true.
  rewrite String.eqb_eq.
  split; [intros [[? ?] ?] | intros (? & ? & ?)]; by repeat split.
Qed.

(** X11. For an attachment name without a wildcard character and without
    a slash, other than [.] and [..], and such that no lookup of the
    name, alone or followed by an attachment extension, in a directory
    of the vault leaves the limits of the operating system, the search
    raises nothing, and finds exactly the regular files below the root
    that have that name when it has a dot, and that name followed by one
    of the attachment extensions when it has none. *)
Theorem attachment_search_finds_exact_names
    (R : Resolver) (fs : FS) (n : string) :
  literal n = true →
  Py.contains "/" n = false →
  n ≠ "." → n ≠ ".." →
  (∀ ext, ext ∈ "" :: ASSET_EXTS → searchable fs (ROOT R) (n +:+ ext)) →
  ∃ candidates,
    asset_candidates R fs n = Ok candidates
    ∧ ∀ p, p ∈ candidates
           ↔ is_file fs p = true ∧ strict_prefix (ROOT R) p = true
             ∧ if Py.contains "." n then abs_name p = n
               else ∃ ext, ext ∈ ASSET_EXTS ∧ abs_name p = n +:+ ext.
Proof.
  intros Hlit _ Hdot Hdots Hlim. unfold asset_candidates.
  destruct (Py.contains "." n) eqn:Hcontains.
  - apply rglob_literal; [done | |].
    + intros [->|[->|[->|[]%elem_of_nil]%elem_of_cons]%elem_of_cons]%elem_of_cons; done.
    + rewrite <- (str_app_nil_r n). apply Hlim. by left.
  - assert (Hexts : ∀ exts, forallb literal exts = true →
              Forall (λ ext, 4 ≤ String.length ext) exts →
              exts ⊆ ASSET_EXTS →
              ∃ ll : list (list AbsPath),
                mapM (λ ext, Glob.rglob fs (ROOT R) (n +:+ ext)) exts = Ok ll
                    ∧ ∀ p, p ∈ mjoin ll
                           ↔ is_file fs p = true ∧ strict_prefix (ROOT R) p = true
                             ∧ ∃ ext, ext ∈ exts ∧ abs_name p = n +:+ ext).
    { induction exts as [|ext exts IH]; simpl.
      - intros _ _ _. exists []. split; [done |]. intros p. split.
        + by intros ?%elem_of_nil.
        + by intros (_ & _ & ? & ?%elem_of_nil & _).
      - intros [Hext Hexts]%andb_prop [Hlen Hlens]%Forall_cons Hsub.
        destruct (rglob_literal fs (ROOT R) (n +:+ ext)) as (l & -> & Hl).
        { by apply literal_app. }
        { assert (Hl4 : 4 ≤ String.length (n +:+ ext)) by (rewrite length_app; lia).
          intros [Hin|[Hin|[Hin|[]%elem_of_nil]%elem_of_cons]%elem_of_cons]%elem_of_cons;
            rewrite Hin in Hl4; simpl in Hl4; lia. }
        { apply Hlim. right. apply Hsub. by left. }
        destruct (IH Hexts Hlens) as (ll & -> & Hll).
        { intros x Hx. apply Hsub. by right. }
        simpl.
        exists (l :: ll). split; [done |]. intros p. simpl.
        rewrite elem_of_app, Hl, Hll. split.
        + intros [(? & ? & ?)|(? & ? & ext' & ? & ?)].
          * repeat split; try done. exists ext. split; [by left | done].
          * repeat split; try done. exists ext'. split; [by right | done].
        + intros (? & ? & ext' & [->|?]%elem_of_cons & ?).
          * by left.
          * right. repeat split; try done. by exists ext'. }
    destruct (Hexts ASSET_EXTS) as (ll & -> & Hll); [reflexivity | | done |].
    { repeat constructor. }
    simpl. by eexists.
Qed.

(** X11, at the search for [img.png] in the vault with two of
    them. *)
Lemma attachment_search_finds_exact_names_witness :
  ∃ candidates,
    asset_candidates near_R near_vault "img.png" = Ok candidates
    ∧ ∀ p, p ∈ candidates
           ↔ is_file near_vault p = true ∧ strict_prefix (ROOT near_R) p = true
             ∧ if Py.contains "." "img.png" then abs_name p = "img.png"
               else ∃ ext, ext ∈ ASSET_EXTS ∧ abs_name p = "img.png" +:+ ext.
Proof.
  apply (attachment_search_finds_exact_names near_R near_vault "img.png").
  - reflexivity.
  - reflexivity.
  - discriminate.
  - discriminate.
  - intros ext Hext. unfold searchable.
    replace (dirs_from near_vault (ROOT near_R))
      with [["v"]; ["v"; "n"]; ["v"; "assets"]; ["v"; "n"]] by (vm_compute; reflexivity).
    repeat (apply elem_of_cons in Hext as [->|Hext]);
      try (by apply elem_of_nil in Hext); repeat constructor.
Defined.

End NameSearch.

(** ** Relative paths, written and read back *)

Section RoundTrip.
Import Pathlib Fs Links Props Cases.

Lemma split_cons (c d : ascii) (s : string) :
  Py.split c (String d s)
  = if Ascii.eqb c d then EmptyString :: Py.split c s
    else match Py.split c s with
         | [] => [String d EmptyString]
         | x :: xs => String d x :: xs
         end.
Proof. reflexivity. Qed.

Lemma split_no_sep (c : ascii) (x : string) :
  Py.contains c x = false → Py.split c x = [x].
Proof.
  induction x as [|d x IH]; [done |].
  rewrite contains_cons, split_cons. intros [-> Hx]%orb_false_iff. by rewrite (IH Hx).
Qed.

Lemma split_app_sep (c : ascii) (x rest : string) :
  Py.contains c x = false →
  Py.split c (x +:+ String c rest) = x :: Py.split c rest.
Proof.
  induction x as [|d x IH].
  - intros _. rewrite str_app_nil, split_cons. by rewrite Ascii.eqb_refl.
  - rewrite contains_cons, str_app_cons, split_cons.
    intros [-> Hx]%orb_false_iff. by rewrite (IH Hx).
Qed.

Lemma join_cons2 (sep x y : string) (l : list string) :
  Py.join sep (x :: y :: l) = x +:+ sep +:+ Py.join sep (y :: l).
Proof. reflexivity. Qed.

Lemma split_join (l : list string) :
  l ≠ [] → forallb (λ x, negb (Py.contains "/" x)) l = true →
  Py.split "/" (Py.join "/" l) = l.
Proof.
  induction l as [|x l IH]; [done |]. intros _ Hl.
  apply andb_prop in Hl as [Hx%negb_true_iff Hl].
  destruct l as [|y l]; [by apply split_no_sep |].
  rewrite join_cons2. change ("/" +:+ Py.join "/" (y :: l))
    with (String "/" (Py.join "/" (y :: l))).
  rewrite (split_app_sep _ _ _ Hx), IH; done.
Qed.

Lemma join_head (x : string) (l : list string) :
  ∃ rest, Py.join "/" (x :: l) = x +:+ rest.
Proof.
  destruct l as [|y l]; [exists ""; by rewrite str_app_nil_r |].
  rewrite join_cons2. by eexists.
Qed.

Lemma segment_ok_filter (l : list string) :
  forallb segment_ok l = true →
  List.filter (λ x, negb (String.eqb x "") && negb (String.eqb x ".")) l = l.
Proof.
  induction l as [|x l IH]; [done |]. simpl.
  intros [Hx Hl]%andb_prop. unfold segment_ok in Hx.
  apply andb_prop in Hx as [Hx _]. by rewrite Hx, (IH Hl).
Qed.

Lemma segment_ok_no_slash (l : list string) :
  forallb segment_ok l = true → forallb (λ x, negb (Py.contains "/" x)) l = true.
Proof.
  induction l as [|x l IH]; [done |]. simpl.
  intros [Hx Hl]%andb_prop. unfold segment_ok in Hx.
  apply andb_prop in Hx as [_ Hx]. by rewrite Hx, (IH Hl).
Qed.

(** A relative path that is written with slashes between its segments is
    read back as those segments. *)
Lemma parse_join (l : list string) :
  l ≠ [] → forallb segment_ok l = true → parse (Py.join "/" l) = mkPath "" l.
Proof.
  intros Hne Hl. unfold parse.
  assert (Hstrip : Py.lstrip_char "/" (Py.join "/" l) = Py.join "/" l).
  { destruct l as [|x l]; [done |]. destruct (join_head x l) as [rest ->].
    simpl in Hl. apply andb_prop in Hl as [Hx _]. unfold segment_ok in Hx.
    apply andb_prop in Hx as [[Hx _]%andb_prop Hslash].
    destruct x as [|c x]; [done |]. rewrite str_app_cons.
    apply negb_true_iff in Hslash. rewrite contains_cons in Hslash.
    apply orb_false_iff in Hslash as [Hc _].
    unfold Py.lstrip_char. rewrite lstrip_with_cons. by rewrite Hc. }
  rewrite Hstrip, Nat.sub_diag.
  rewrite split_join by (done || by apply segment_ok_no_slash).
  by rewrite segment_ok_filter.
Qed.

Lemma parse_dot_slash_join (l : list string) :
  l ≠ [] → forallb segment_ok l = true →
  parse ("./" +:+ Py.join "/" l) = mkPath "" l.
Proof.
  intros Hne Hl. unfold parse.
  change ("./" +:+ Py.join "/" l) with (String "." (String "/" (Py.join "/" l))).
  unfold Py.lstrip_char. rewrite lstrip_with_cons.
  change (Ascii.eqb "/" ".") with false. cbv iota. rewrite Nat.sub_diag.
  rewrite split_cons. change (Ascii.eqb "/" ".") with false. cbv iota.
  rewrite split_cons, Ascii.eqb_refl.
  rewrite split_join by (done || by apply segment_ok_no_slash).
  cbn [List.filter String.eqb Ascii.eqb Bool.eqb negb andb Nat.eqb].
  by rewrite segment_ok_filter.
Qed.

Lemma contains_app (c : ascii) (a b : string) :
  Py.contains c (a +:+ b) = Py.contains c a || Py.contains c b.
Proof.
  induction a as [|d a IH]; [done |].
  by rewrite str_app_cons, !contains_cons, IH, orb_assoc.
Qed.

Lemma contains_join (c : ascii) (l : list string) :
  Ascii.eqb c "/" = false →
  forallb (λ x, negb (Py.contains c x)) l = true →
  Py.contains c (Py.join "/" l) = false.
Proof.
  intros Hc. induction l as [|x l IH]; [done |]. simpl forallb.
  intros [Hx%negb_true_iff Hl]%andb_prop.
  destruct l as [|y l]; [done |].
  rewrite join_cons2, !contains_app, Hx, (IH Hl), orb_false_r.
  change (Py.contains c "/") with (Ascii.eqb c "/" || false). by rewrite Hc.
Qed.

Lemma replace_char_absent (a b : ascii) (s : string) :
  Py.contains a s = false → Py.replace_char a b s = s.
Proof.
  induction s as [|c s IH]; [done |]. rewrite contains_cons.
  intros [Hc Hs]%orb_false_iff. simpl. rewrite Ascii.eqb_sym, Hc. by rewrite (IH Hs).
Qed.

Lemma forallb_drop {A} (f : A → bool) (n : nat) (l : list A) :
  forallb f l = true → forallb f (drop n l) = true.
Proof.
  revert n. induction l as [|x l IH]; intros [|n]; simpl; try done.
  intros [_ Hl]%andb_prop. by apply IH.
Qed.

Lemma plain_segment_ok (x : string) : plain_segment x = true → segment_ok x = true.
Proof. unfold plain_segment. by intros [[? _]%andb_prop _]%andb_prop. Qed.

Lemma rel_segments_ok (p start : AbsPath) :
  plain_path p = true →
  forallb segment_ok (rel_segments p start) = true
  ∧ forallb (λ x, negb (Py.contains "\" x)) (rel_segments p start) = true.
Proof.
  intros Hp. unfold rel_segments. rewrite !forallb_app. split.
  - apply andb_true_intro. split.
    + induction (length start - common_prefix_len start p) as [|k IH]; [done |].
      simpl. exact IH.
    + apply forallb_drop. unfold plain_path in Hp.
      apply forallb_forall. intros x Hx. rewrite forallb_forall in Hp.
      by apply plain_segment_ok, Hp.
  - apply andb_true_intro. split.
    + induction (length start - common_prefix_len start p) as [|k IH]; [done |].
      simpl. exact IH.
    + apply forallb_drop. unfold plain_path in Hp.
      apply forallb_forall. intros x Hx. rewrite forallb_forall in Hp.
      specialize (Hp x Hx).
      unfold plain_segment in Hp. by apply andb_prop in Hp as [_ ?].
Qed.

(** The relative path that is written, with or without a dot in front,
    is read back as its segments. *)
Lemma parse_to_rel (base p : AbsPath) :
  plain_path p = true →
  parse (to_rel base p) = mkPath "" (rel_segments p base)
  ∧ parse (dot_slash (to_rel base p)) = mkPath "" (rel_segments p base).
Proof.
  intros Hp. destruct (rel_segments_ok p base Hp) as [Hok Hback].
  unfold to_rel, relpath. fold (rel_segments p base).
  destruct (rel_segments p base) as [|x l] eqn:Hrel; [done |].
  rewrite replace_char_absent by (by apply contains_join).
  assert (Hparse : parse (Py.join "/" (x :: l)) = mkPath "" (x :: l))
    by (by apply parse_join).
  split; [done |]. unfold dot_slash.
  destruct (negb _ && _ && negb _); [by apply parse_dot_slash_join | done].
Qed.

Lemma normalize_foldl_plain (acc l : list string) :
  plain_path l = true →
  foldl (λ acc s, if String.eqb s ".." then removelast acc else acc ++ [s]) acc l
  = acc ++ l.
Proof.
  revert acc. induction l as [|x l IH]; intros acc; simpl.
  - intros _. by rewrite app_nil_r.
  - intros [Hx Hl]%andb_prop. unfold plain_segment in Hx.
    apply andb_prop in Hx as [[_ Hx]%andb_prop _]. apply negb_true_iff in Hx.
    rewrite Hx, (IH _ Hl), <- app_assoc. done.
Qed.

Lemma removelast_take (l : list string) : removelast l = take (length l - 1) l.
Proof.
  induction l as [|x l IH]; [done |]. destruct l as [|y l]; [done |].
  change (removelast (x :: y :: l)) with (x :: removelast (y :: l)).
  rewrite IH. simpl. by rewrite Nat.sub_0_r.
Qed.

Lemma normalize_foldl_up (acc : list string) (k : nat) :
  foldl (λ acc s, if String.eqb s ".." then removelast acc else acc ++ [s]) acc
        (replicate k "..")
  = take (length acc - k) acc.
Proof.
  revert acc. induction k as [|k IH]; intros acc; simpl.
  - by rewrite Nat.sub_0_r, firstn_all.
  - rewrite IH, removelast_take, take_take, length_take. f_equal. lia.
Qed.

Lemma common_prefix_take (a b : list string) :
  take (common_prefix_len a b) a = take (common_prefix_len a b) b
  ∧ common_prefix_len a b ≤ length a.
Proof.
  revert b. induction a as [|x a IH]; intros [|y b]; simpl; try (split; [done | lia]).
  destruct (String.eqb_spec x y) as [->|_]; [| split; [done | lia]].
  destruct (IH b) as [Ht ?]. simpl. rewrite Ht. split; [done | lia].
Qed.

(** The relative path from a directory to a file, followed from that
    directory, ends at the file. *)
Lemma relative_path_leads_back (base p : AbsPath) :
  plain_path base = true → plain_path p = true →
  normalize (base ++ rel_segments p base) = p.
Proof.
  intros Hbase Hp. unfold normalize, rel_segments. rewrite !foldl_app.
  rewrite (normalize_foldl_plain [] base Hbase). simpl.
  rewrite normalize_foldl_up.
  destruct (common_prefix_take base p) as [Htake Hle].
  replace (length base - (length base - common_prefix_len base p))
    with (common_prefix_len base p) by lia.
  rewrite normalize_foldl_plain.
  - by rewrite Htake, take_drop.
  - by apply forallb_drop.
Qed.

(** X12. In a vault whose paths have plain segments (no slash or backslash
    inside, none empty, none [.] or [..]), the reference that is written
    for an attachment, followed from the directory of the note, ends at
    the file that was chosen for it: a regular file below the root that
    has the typed name, and before which no other such file ranks. When
    no file has the typed name, the bare name is written. *)
Theorem written_attachment_path_leads_to_the_file
    (R : Resolver) (fs : FS) (current_file : AbsPath) (raw r : string) :
  let target := Py.strip (Py.split1 "|" raw).1 in
  let base := parent current_file in
  let nm := name (parse target) in
  target ≠ "" →
  plain_path base = true →
  (∀ p, is_file fs p = true → plain_path p = true) →
  resolve_asset_for_text R fs current_file raw = Ok r →
  (r = nm ∧ asset_candidates R fs nm = Ok [] ∧ ∀ p, ¬ asset_match R fs nm p)
  ∨ ∃ best,
      asset_match R fs nm best
      ∧ (∀ p, asset_match R fs nm p →
              rank_ltb (rank base p) (rank base best) = false)
      ∧ join_resolve base (parse r) = best.
Proof.
  intros target base nm Hne Hbase Hfiles H.
  destruct (resolve_asset_cases R fs current_file raw r Hne H)
    as (candidates & Hc & [[-> ->]|(best & Hin & Hmin & ->)]).
  - left. split; [done |]. split; [done |]. intros p Hp.
    apply (asset_candidates_match _ _ _ _ p Hc) in Hp. by apply elem_of_nil in Hp.
  - right. exists best.
    pose proof (proj1 (asset_candidates_match _ _ _ _ best Hc) Hin) as Hbest.
    split; [done |]. split.
    { intros p Hp. apply Hmin. by apply (asset_candidates_match _ _ _ _ p Hc). }
    destruct Hbest as (Hf & _ & _).
    destruct (parse_to_rel (parent current_file) best (Hfiles best Hf)) as [_ ->].
    unfold join_resolve. simpl.
    by apply relative_path_leads_back; [| apply Hfiles].
Qed.

(** X12, at the image [assets/img.png] seen from [notes/sub/a.md]. *)
Lemma written_attachment_path_leads_to_the_file_witness :
  ("../../assets/img.png" = name (parse "img.png")
   ∧ asset_candidates Examples.asset_R Examples.asset_vault (name (parse "img.png"))
     = Ok []
   ∧ ∀ p, ¬ asset_match Examples.asset_R Examples.asset_vault (name (parse "img.png")) p)
  ∨ ∃ best,
      asset_match Examples.asset_R Examples.asset_vault (name (parse "img.png")) best
      ∧ (∀ p, asset_match Examples.asset_R Examples.asset_vault
                (name (parse "img.png")) p →
              rank_ltb (rank (parent Examples.asset_note) p)
                       (rank (parent Examples.asset_note) best) = false)
      ∧ join_resolve (parent Examples.asset_note) (parse "../../assets/img.png")
        = best.
Proof.
  apply (written_attachment_path_leads_to_the_file Examples.asset_R
           Examples.asset_vault Examples.asset_note "img.png" "../../assets/img.png").
  - done.
  - reflexivity.
  - intros p Hp. apply bool_decide_eq_true in Hp.
    change (file_paths Examples.asset_vault)
      with [["v"; "notes"; "sub"; "a.md"]; ["v"; "assets"; "img.png"]] in Hp.
    repeat (apply elem_of_cons in Hp as [->|Hp]); try by apply elem_of_nil in Hp.
    + reflexivity.
    + reflexivity.
  - vm_compute. reflexivity.
Defined.

End RoundTrip.

(** ** The relative mode *)

Section RelativeMode.
Import Pathlib Fs Links Props Cases.

Lemma join_cons_more (sep x : string) (l : list string) :
  l ≠ [] → Py.join sep (x :: l) = x +:+ sep +:+ Py.join sep l.
Proof. by destruct l. Qed.

Lemma join_snoc_app (l : list string) (n x : string) :
  Py.join "/" (l ++ [n]) +:+ x = Py.join "/" (l ++ [n +:+ x]).
Proof.
  induction l as [|y l IH]; [done |].
  rewrite <- !app_comm_cons.
  rewrite !join_cons_more by (by destruct l).
  by rewrite !str_app_assoc, IH.
Qed.

Lemma join_snoc_length (l : list string) (n : string) :
  String.length n ≤ String.length (Py.join "/" (l ++ [n])).
Proof.
  induction l as [|y l IH]; [done |].
  rewrite <- app_comm_cons, join_cons_more by (by destruct l).
  rewrite !length_app. lia.
Qed.

Lemma rfind_from_md (i : nat) (a : string) :
  Py.rfind_from i "." (a +:+ ".md") = Some (i + String.length a).
Proof.
  revert i. induction a as [|d a IH]; intros i.
  - rewrite str_app_nil. simpl. f_equal. lia.
  - rewrite str_app_cons.
    change (Py.rfind_from i "." (String d (a +:+ ".md")))
      with (match Py.rfind_from (S i) "." (a +:+ ".md") with
            | Some j => Some j
            | None => if Ascii.eqb "." d then Some i else None
            end).
    rewrite IH. simpl. f_equal. lia.
Qed.

(** The stem of a name with [.md] behind it is the name. *)
Lemma name_stem_md (n : string) : n ≠ "" → name_stem (n +:+ ".md") = n.
Proof.
  intros Hn. unfold name_stem, Py.rfind. rewrite rfind_from_md. simpl.
  unfold Py.len. rewrite length_app. simpl.
  destruct n as [|c n]; [done |]. simpl String.length.
  replace (Nat.ltb 0 (S (String.length n))) with true by done.
  replace (Nat.ltb (S (String.length n)) (S (String.length n) + 3 - 1)) with true
    by (symmetry; apply Nat.ltb_lt; lia).
  simpl. by rewrite take_app_length.
Qed.

Lemma eqb_length_ne (a b : string) :
  String.length a ≠ String.length b → String.eqb a b = false.
Proof. intros H. destruct (String.eqb_spec a b) as [->|]; done. Qed.

Lemma plain_segment_md (n : string) :
  plain_segment n = true → plain_segment (n +:+ ".md") = true.
Proof.
  unfold plain_segment, segment_ok. intros H.
  apply andb_prop in H as [[[_ Hslash]%andb_prop _]%andb_prop Hback].
  apply negb_true_iff in Hslash, Hback.
  rewrite !contains_app, Hslash, Hback.
  rewrite !eqb_length_ne by (rewrite length_app; simpl; lia). done.
Qed.

Lemma common_prefix_full (a b : list string) :
  common_prefix_len a b = length b → is_prefix b a = true.
Proof.
  revert b. induction a as [|x a IH]; intros [|y b]; simpl; try done.
  destruct (String.eqb_spec x y) as [->|_]; [| done].
  intros [= H]. by rewrite String.eqb_refl, (IH b H).
Qed.

Lemma common_prefix_len_le (a b : list string) : common_prefix_len a b ≤ length b.
Proof.
  revert b. induction a as [|x a IH]; intros [|y b]; simpl; try lia.
  destruct (String.eqb x y); [| lia]. specialize (IH b). lia.
Qed.

Lemma snoc_ne_nil {A} (l : list A) (x : A) : l ++ [x] ≠ [].
Proof. by destruct l. Qed.

Lemma last_snoc_default (l : list string) (x : string) : default "" (last (l ++ [x])) = x.
Proof. by rewrite last_snoc. Qed.

(** X13. In relative mode, for a vault whose paths have plain segments, the
    reference that is written for the note with the path [d/n] below the
    root, read from the directory of the current file with [.md] behind
    it, names that note, unless the note is a folder above the current
    file. *)
Theorem relative_reference_leads_to_the_note
    (R : Resolver) (current_file : AbsPath) (d : list string) (n : string) :
  plain_path (ROOT R) = true →
  plain_path (parent current_file) = true →
  plain_path (d ++ [n]) = true →
  is_prefix (ROOT R ++ d ++ [n +:+ ".md"]) (parent current_file) = false →
  join_resolve (parent current_file)
    (parse (_shortest_relative_from_current R current_file (Py.join "/" (d ++ [n]))
            +:+ ".md"))
  = ROOT R ++ d ++ [n +:+ ".md"].
Proof.
  intros Hroot Hbase Hdn Hnot.
  set (base := parent current_file) in *.
  set (nm := n +:+ ".md") in *.
  set (P := ROOT R ++ d ++ [nm]) in *.
  assert (Hn : plain_segment n = true).
  { unfold plain_path in Hdn. rewrite forallb_app in Hdn.
    apply andb_prop in Hdn as [_ Hn]. simpl in Hn. by rewrite andb_true_r in Hn. }
  assert (Hd : plain_path d = true).
  { unfold plain_path in Hdn. rewrite forallb_app in Hdn.
    by apply andb_prop in Hdn as [? _]. }
  assert (Hnne : n ≠ "").
  { intros ->. done. }
  assert (HP : plain_path P = true).
  { unfold P, plain_path. rewrite !forallb_app. cbn [forallb].
    unfold plain_path in Hroot, Hd. rewrite Hroot, Hd. unfold nm.
    by rewrite (plain_segment_md n Hn). }
  assert (Hdnm : forallb segment_ok (d ++ [nm]) = true).
  { rewrite forallb_app. cbn [forallb]. rewrite andb_true_r. apply andb_true_intro. split.
    - apply forallb_forall. intros x Hx. unfold plain_path in Hd.
      rewrite forallb_forall in Hd. by apply plain_segment_ok, Hd.
    - by apply plain_segment_ok, plain_segment_md. }
  unfold _shortest_relative_from_current. fold base.
  rewrite join_snoc_app. fold nm.
  rewrite parse_join by (done || apply snoc_ne_nil).
  unfold joinpath. simpl.
  replace (normalize (ROOT R ++ d ++ [nm])) with P.
  2:{ unfold normalize. fold P. by rewrite (normalize_foldl_plain [] P HP). }
  destruct (parse_to_rel base P HP) as [-> _].
  destruct (rel_segments_ok P base HP) as [Hok _].
  destruct (common_prefix_take base P) as [_ Hle].
  assert (Hlt : common_prefix_len base P ≤ length (ROOT R ++ d)).
  { destruct (decide (common_prefix_len base P = length P)) as [Heq|Hneq].
    - apply common_prefix_full in Heq. congruence.
    - pose proof (common_prefix_len_le base P).
      unfold P in *. rewrite !List.length_app in *. simpl in *. lia. }
  assert (Hrel : rel_segments P base
                 = (replicate (length base - common_prefix_len base P) ".."
                    ++ drop (common_prefix_len base P) (ROOT R ++ d)) ++ [nm]).
  { unfold rel_segments. rewrite <- app_assoc. f_equal.
    rewrite <- (drop_app_le (ROOT R ++ d) [nm] _ Hlt). f_equal.
    unfold P. by rewrite app_assoc. }
  set (pre := replicate (length base - common_prefix_len base P) ".."
              ++ drop (common_prefix_len base P) (ROOT R ++ d)) in *.
  rewrite Hrel. unfold with_suffix_empty, name. simpl segs.
  rewrite last_snoc_default.
  destruct (String.eqb_spec nm "") as [He|_].
  { unfold nm in He. by destruct n. }
  unfold drop_suffix, name. simpl segs. simpl root.
  rewrite last_snoc_default.
  change (name_stem nm) with (name_stem (n +:+ ".md")). rewrite (name_stem_md n Hnne).
  destruct (pre ++ [nm]) as [|x0 l0] eqn:Hpre; [by apply snoc_ne_nil in Hpre |].
  rewrite <- ?Hpre. rewrite <- ?Hpre in Hrel. rewrite removelast_last. unfold as_posix. simpl root. simpl segs.
  rewrite str_app_nil.
  destruct (String.eqb_spec (Py.join "/" (pre ++ [n])) "") as [He|_].
  { exfalso. pose proof (join_snoc_length pre n) as Hlen. rewrite He in Hlen.
    destruct n; [done | simpl in Hlen; lia]. }
  rewrite join_snoc_app. fold nm.
  rewrite parse_join; [| apply snoc_ne_nil | by rewrite <- Hrel].
  unfold join_resolve. simpl. rewrite <- Hrel.
  by apply relative_path_leads_back.
Qed.

(** X13, at the note [d/a/x] seen from [cur.md] in the root. *)
Lemma relative_reference_leads_to_the_note_witness :
  join_resolve (parent ["v"; "cur.md"])
    (parse (_shortest_relative_from_current (with_mode Examples.twin_R Relative)
              ["v"; "cur.md"] (Py.join "/" (["d"; "a"] ++ ["x"]))
            +:+ ".md"))
  = ROOT (with_mode Examples.twin_R Relative) ++ ["d"; "a"] ++ ["x" +:+ ".md"].
Proof.
  apply (relative_reference_leads_to_the_note (with_mode Examples.twin_R Relative)
           ["v"; "cur.md"] ["d"; "a"] "x"); reflexivity.
Defined.

End RelativeMode.

(** ** A run over a vault that is already normalized *)

Section StableRun.
Import Pathlib Fs Links Indexer Props Cases.

Lemma wiki_entry_of_repl (R : Resolver) (fs : FS) (p : AbsPath) (m : Re.WikiMatch)
    (out : string) :
  wiki_repl R fs p m = Ok out →
  (∀ t meta, resolve_target_for_text_and_meta R fs p (Re.wiki_body m) = Ok (t, Some meta) →
             within_limits (entry_path R meta) = true) →
  ∃ e, wiki_entry R fs p m = Ok e.
Proof.
  unfold wiki_repl, wiki_entry.
  destruct (Py.split1 "|" (Re.wiki_body m)) as [target_part alias].
  destruct (String.eqb (Re.wiki_bang m) "!"); [by eexists |].
  intros H Hlim. apply bind_Ok in H as ([tt meta] & Hres & _).
  rewrite Hres. simpl.
  destruct meta as [meta|]; [| by eexists].
  unfold meta_exists, exists_unresolved.
  destruct (stat_exists_within fs _ (Hlim tt meta Hres)) as [b Hb].
  unfold entry_path in Hb. rewrite Hb. simpl.
  destruct b; simpl; [| by eexists].
  destruct (Py.split1 "#" target_part) as [? [a|]]; by eexists.
Qed.

(** A note below the root whose body both passes leave as it is: it is
    processed without an exception and without a write. *)
Lemma process_file_stable (R : Resolver) (fs : FS) (p : AbsPath) :
  is_prefix (ROOT R) p = true →
  stable_body R fs p (note_body fs p) →
  links_within_limits R fs p (note_body fs p) →
  ∃ it, process_file R fs p = Ok (it, fs).
Proof.
  intros Hpre [Hmd Hwiki] Hlim. unfold process_file, links_within_limits, note_body in *.
  unfold rel_from_root, relative_to. rewrite Hpre. simpl.
  set (body0 := Parse.body (Parse.parse_frontmatter_and_tags (read_text fs p))) in *.
  unfold normalize_md_links_to_wikilinks, normalize_wikilinks_in_text.
  rewrite (sub_stable _ _ _ md_link_match_prefix body0 Hmd). simpl.
  rewrite (sub_stable _ _ _ wiki_link_match_prefix body0 Hwiki). simpl.
  rewrite String.eqb_refl. simpl. unfold collect_links.
  destruct (mapM_total (wiki_entry R fs p)
              (Re.finditer Re.wiki_link_match Re.wiki_all body0)) as [wiki ->].
  - intros m Hm. rewrite Forall_forall in Hwiki, Hlim.
    eapply wiki_entry_of_repl; [by apply Hwiki | by apply Hlim].
  - simpl. by eexists.
Qed.

Lemma process_all_stable (R : Resolver) (fs : FS) (all_md : list AbsPath) :
  (∀ p, p ∈ all_md → is_prefix (ROOT R) p = true
                     ∧ stable_body R fs p (note_body fs p)
                     ∧ links_within_limits R fs p (note_body fs p)) →
  ∃ items, process_all R fs all_md = Ok (items, fs).
Proof.
  induction all_md as [|p l IH]; intros H; simpl; [by eexists |].
  destruct (H p) as (Hpre & Hst & Hlim); [by left |].
  destruct (process_file_stable R fs p Hpre Hst Hlim) as [it ->]. simpl.
  destruct IH as [items ->]; [intros q Hq; apply H; by right |].
  simpl. by eexists.
Qed.

Lemma elem_of_notes (fs : FS) (root p : AbsPath) :
  p ∈ List.filter is_md (rglob_files fs root) ↔ scanned fs root p.
Proof.
  unfold scanned, rglob_files, is_file.
  rewrite list_elem_of_In, !filter_In, <- list_elem_of_In, bool_decide_eq_true. tauto.
Qed.

(** X14. A run over a vault in which both passes leave the body of every
    scanned note as it is (every Markdown link is an anchor or external,
    and every wikilink already carries the target that the resolver
    computes for it), and in which the metadata path of every wikilink,
    joined with the root, is within the limits of the operating system,
    raises nothing and rewrites no file. *)
Theorem run_over_stable_vault_changes_nothing
    (fs : FS) (root : AbsPath) (shortest_mode : Mode) :
  (∀ p, scanned fs root p →
        stable_body (init fs root shortest_mode) fs p (note_body fs p)
        ∧ links_within_limits (init fs root shortest_mode) fs p (note_body fs p)) →
  ∃ items, build_metadata fs root shortest_mode = Ok (items, fs).
Proof.
  intros H. unfold build_metadata.
  destruct (process_all_stable (init fs root shortest_mode) fs
              (List.filter is_md (rglob_files fs root))) as [items ->].
  - intros p Hp%elem_of_notes. split; [| by apply H].
    destruct Hp as [Hpre _]. unfold strict_prefix in Hpre.
    by apply andb_prop in Hpre as [? _].
  - simpl. by eexists.
Qed.

(** The first run over the worked vault leaves [settled_vault]. *)
Lemma settled_vault_is_first_run :
  (r ← build_metadata Examples.worked_vault ["v"] Vault; Ok r.2) = Ok settled_vault.
Proof. vm_compute. reflexivity. Qed.

(** X14, at the worked vault after its first run. *)
Lemma run_over_stable_vault_changes_nothing_witness :
  ∃ items, build_metadata settled_vault ["v"] Vault = Ok (items, settled_vault).
Proof.
  apply (run_over_stable_vault_changes_nothing settled_vault ["v"] Vault).
  intros p (_ & Hfile & Hmd). apply bool_decide_eq_true in Hfile.
  vm_compute in Hfile. unfold links_within_limits.
  repeat (apply elem_of_cons in Hfile as [->|Hfile]); try by apply elem_of_nil in Hfile.
  - replace (Re.finditer Re.md_link_match Re.md_all (note_body settled_vault ["v"; "Notes"; "A.md"]))
      with [Re.mkMd "" "text" "#Intro" "[text](#Intro)"] by (vm_compute; reflexivity).
    replace (Re.finditer Re.wiki_link_match Re.wiki_all (note_body settled_vault ["v"; "Notes"; "A.md"]))
      with (@nil Re.WikiMatch) by (vm_compute; reflexivity).
    split; [split |]; repeat constructor.
  - replace (Re.finditer Re.md_link_match Re.md_all (note_body settled_vault ["v"; "Root.md"]))
      with (@nil Re.MdMatch) by (vm_compute; reflexivity).
    replace (Re.finditer Re.wiki_link_match Re.wiki_all (note_body settled_vault ["v"; "Root.md"]))
      with [Re.mkWiki "" "Sub/Child" "[[Sub/Child]]"] by (vm_compute; reflexivity).
    split; [split |].
    + constructor.
    + constructor; [vm_compute; reflexivity | constructor].
    + constructor; [| constructor]. intros t meta Hres.
      assert (Hmeta : meta = "Sub/Child.md").
      { revert Hres.
        replace (resolve_target_for_text_and_meta (init settled_vault ["v"] Vault)
                   settled_vault ["v"; "Root.md"]
                   (Re.wiki_body (Re.mkWiki "" "Sub/Child" "[[Sub/Child]]")))
          with (@Ok (string * option string) ("Sub/Child", Some "Sub/Child.md"))
          by (vm_compute; reflexivity).
        by intros [= _ <-]. }
      rewrite Hmeta. vm_compute. reflexivity.
  - replace (Re.finditer Re.md_link_match Re.md_all (note_body settled_vault ["v"; "Sub"; "Child.md"]))
      with (@nil Re.MdMatch) by (vm_compute; reflexivity).
    replace (Re.finditer Re.wiki_link_match Re.wiki_all (note_body settled_vault ["v"; "Sub"; "Child.md"]))
      with (@nil Re.WikiMatch) by (vm_compute; reflexivity).
    split; [split |]; constructor.
Defined.

End StableRun.

(** ** What a run leaves alone *)

Section Frame.
Import Pathlib Fs Links Indexer Props Cases.

Lemma file_paths_write_text (fs : FS) (p : AbsPath) (t : string) :
  file_paths (write_text fs p t) = file_paths fs.
Proof.
  unfold file_paths, write_text. simpl.
  rewrite <- list_fmap_compose. apply list_fmap_ext.
  intros i [q c] _. simpl. by destruct (bool_decide (q = p)).
Qed.

Lemma read_text_write_text_ne (fs : FS) (p q : AbsPath) (t : string) :
  q ≠ p → read_text (write_text fs p t) q = read_text fs q.
Proof.
  intros Hne. unfold read_text, write_text. simpl.
  induction (files fs) as [|[r c] l IH]; [done |].
  rewrite fmap_cons. destruct (decide (r = p)) as [->|Hrp].
  - rewrite (bool_decide_eq_true_2 (p = p)) by done.
    cbn [List.find fst]. rewrite (bool_decide_eq_false_2 (p = q)) by done. exact IH.
  - rewrite (bool_decide_eq_false_2 (r = p)) by done.
    cbn [List.find fst]. destruct (bool_decide (r = q)); [done | exact IH].
Qed.

Lemma process_file_frame (R : Resolver) (fs fs' : FS) (p : AbsPath) (it : Item) :
  process_file R fs p = Ok (it, fs') →
  file_paths fs' = file_paths fs ∧ dirs fs' = dirs fs
  ∧ ∀ q, q ≠ p → read_text fs' q = read_text fs q.
Proof.
  intros H. apply process_file_writes in H as (norm & _ & ->).
  destruct (String.eqb norm _); [done |].
  split; [apply file_paths_write_text |]. split; [done |].
  intros q Hq. by apply read_text_write_text_ne.
Qed.

Lemma process_all_frame (R : Resolver) (all_md : list AbsPath) (fs fs' : FS)
    (items : list Item) :
  process_all R fs all_md = Ok (items, fs') →
  file_paths fs' = file_paths fs ∧ dirs fs' = dirs fs
  ∧ ∀ q, q ∉ all_md → read_text fs' q = read_text fs q.
Proof.
  revert fs items. induction all_md as [|p l IH]; intros fs items; simpl.
  - by intros [= _ <-].
  - intros H. apply bind_Ok in H as ([it fs1] & Hp & H).
    apply bind_Ok in H as ([its fs2] & Hl & H). injection H as _ <-.
    apply process_file_frame in Hp as (Hp1 & Hp2 & Hp3).
    apply IH in Hl as (Hl1 & Hl2 & Hl3).
    split; [congruence |]. split; [congruence |].
    intros q Hq. apply not_elem_of_cons in Hq as [Hqp Hql].
    by rewrite Hl3, Hp3.
Qed.

(** X15. The rewrites of a run create, remove and rename nothing: the
    files and the directories are the same after them, so that the
    resolver built at the start of the run describes the vault at its end
    as well, and the text of every file that is not a scanned note is
    what it was. *)
Theorem run_rewrites_only_scanned_notes
    (fs fs' : FS) (root : AbsPath) (shortest_mode : Mode) (items : list Item) :
  build_metadata fs root shortest_mode = Ok (items, fs') →
  file_paths fs' = file_paths fs
  ∧ dirs fs' = dirs fs
  ∧ init fs' root shortest_mode = init fs root shortest_mode
  ∧ ∀ q, ¬ scanned fs root q → read_text fs' q = read_text fs q.
Proof.
  unfold build_metadata. intros H.
  apply bind_Ok in H as ([items0 fs0] & Hall & H). injection H as _ <-.
  apply process_all_frame in Hall as (H1 & H2 & H3).
  split; [done |]. split; [done |]. split.
  - unfold init, rglob_files. by rewrite H1.
  - intros q Hq. apply H3. by rewrite elem_of_notes.
Qed.

(** X15, at the run over the vault in which [A.md] links to [B]. *)
Lemma run_rewrites_only_scanned_notes_witness :
  file_paths Examples.twice_run.2 = file_paths Examples.twice_vault
  ∧ dirs Examples.twice_run.2 = dirs Examples.twice_vault
  ∧ init Examples.twice_run.2 ["v"] Vault = init Examples.twice_vault ["v"] Vault
  ∧ ∀ q, ¬ scanned Examples.twice_vault ["v"] q →
         read_text Examples.twice_run.2 q = read_text Examples.twice_vault q.
Proof.
  apply (run_rewrites_only_scanned_notes Examples.twice_vault Examples.twice_run.2
           ["v"] Vault Examples.twice_items).
  vm_compute. reflexivity.
Defined.

End Frame.

(** ** The link list of an item *)

Section LinkList.
Import Pathlib Fs Links Indexer Props Cases.

Lemma dedup_links_keys (seen : list (string * string * option string))
    (links : list LinkEntry) :
  NoDup (link_key <$> dedup_links seen links)
  ∧ ∀ e, e ∈ dedup_links seen links → link_key e ∉ seen.
Proof.
  revert seen. induction links as [|L rest IH]; intros seen; simpl.
  - split; [constructor | by intros e ?%elem_of_nil].
  - case_bool_decide as Hseen; [apply IH |].
    destruct (IH (link_key L :: seen)) as [Hnd Hnot]. split.
    + simpl. constructor; [| done].
      intros (e & He & Hin)%list_elem_of_fmap.
      apply (Hnot e Hin). rewrite <- He. by left.
    + intros e [->|He]%elem_of_cons; [done |].
      intros Hin. apply (Hnot e He). by right.
Qed.

(** X16. The link list of an item, when the item has one, is not empty and
    has no two entries with the same link, path and display text. *)
Theorem link_list_has_no_repeated_entry
    (R : Resolver) (fs fs' : FS) (p : AbsPath) (it : Item) :
  process_file R fs p = Ok (it, fs') →
  match item_links it with
  | Some links => links ≠ [] ∧ NoDup (link_key <$> links) ∧ NoDup links
  | None => True
  end.
Proof.
  unfold process_file. intros H.
  apply bind_Ok in H as (rel & _ & H).
  apply bind_Ok in H as (stage1 & _ & H).
  apply bind_Ok in H as (norm & _ & H).
  apply bind_Ok in H as (links & Hlinks & H). injection H as <- _. simpl.
  destruct links as [|L links]; [done |].
  unfold collect_links in Hlinks.
  apply bind_Ok in Hlinks as (wiki & _ & [= Hl]).
  pose proof (dedup_links_keys [] (omap id wiki ++
     omap (anchor_entry rel) (Re.finditer Re.md_link_match Re.md_all norm))) as [Hnd _].
  rewrite Hl in Hnd. split; [done |]. split; [done |].
  by apply NoDup_fmap_1 in Hnd.
Qed.

(** X16, at the note that links to [B] with and without an alias. *)
Lemma link_list_has_no_repeated_entry_witness :
  [mkLink "B" "B.md" None None; mkLink "B" "B.md" None (Some "the b")] ≠ []
  ∧ NoDup (link_key <$> [mkLink "B" "B.md" None None; mkLink "B" "B.md" None (Some "the b")])
  ∧ NoDup [mkLink "B" "B.md" None None; mkLink "B" "B.md" None (Some "the b")].
Proof.
  apply (link_list_has_no_repeated_entry (init Examples.twice_vault ["v"] Vault)
           Examples.twice_vault Examples.twice_vault ["v"; "A.md"]
           (mkItem "A" "A.md" [] [] ∅
              (Some [mkLink "B" "B.md" None None; mkLink "B" "B.md" None (Some "the b")])
              None)).
  vm_compute. reflexivity.
Defined.

End LinkList.

(** ** Frontmatter and body *)

Section Frontmatter.
Import Pathlib Fs Links Indexer Props Cases Parse.

Lemma take_block_open (i : nat) (lines : list string) :
  existsb fm_end lines = false → take_block i lines = (lines, i + length lines).
Proof.
  revert i. induction lines as [|ln rest IH]; intros i; simpl.
  - intros _. f_equal. lia.
  - intros [-> Hrest]%orb_false_iff. rewrite (IH (S i) Hrest). f_equal. lia.
Qed.

Lemma take_block_closed (i : nat) (block : list string) (cl : string) (more : list string) :
  forallb (λ l, negb (fm_end l)) block = true → fm_end cl = true →
  take_block i (block ++ cl :: more) = (block, i + length block).
Proof.
  revert i. induction block as [|ln rest IH]; intros i; simpl.
  - intros _ ->. f_equal. lia.
  - intros [Hln Hrest]%andb_prop Hcl. apply negb_true_iff in Hln. rewrite Hln.
    rewrite (IH (S i) Hrest Hcl). f_equal. lia.
Qed.

(** X17. A note whose first line opens a frontmatter block that no later
    line closes: the parser returns the whole text as the body, and takes
    every line after the first for a line of the block, so that the
    tags, aliases and keys written anywhere in the note are read as
    frontmatter. *)
Theorem unclosed_block_takes_all_lines (text l0 : string) (rest : list string) :
  Py.splitlines text = l0 :: rest →
  fm_start l0 = true →
  existsb fm_end rest = false →
  let parsed := parse_frontmatter_and_tags text in
  body parsed = text
  ∧ body_is_new parsed = false
  ∧ fm parsed = (foldl block_step (∅, None) rest).1
  ∧ aliases parsed = fm_list (fm parsed) "aliases".
Proof.
  intros Hlines Hstart Hopen. unfold parse_frontmatter_and_tags.
  rewrite Hlines, Hstart, (take_block_open 1 rest Hopen).
  replace (Nat.ltb (1 + length rest) (length (l0 :: rest))) with false
    by (symmetry; apply Nat.ltb_ge; simpl; lia).
  done.
Qed.

(** X17, at a note that starts with a rule and has a [tags:] list
    further down. *)
Lemma unclosed_block_takes_all_lines_witness :
  let text := "---" +:+ nl +:+ "tags:" +:+ nl +:+ "- a" in
  let parsed := parse_frontmatter_and_tags text in
  body parsed = text
  ∧ body_is_new parsed = false
  ∧ fm parsed = (foldl block_step (∅, None) ["tags:"; "- a"]).1
  ∧ aliases parsed = fm_list (fm parsed) "aliases".
Proof.
  apply (unclosed_block_takes_all_lines
           ("---" +:+ nl +:+ "tags:" +:+ nl +:+ "- a") "---" ["tags:"; "- a"]).
  - vm_compute. reflexivity.
  - vm_compute. reflexivity.
  - vm_compute. reflexivity.
Defined.

Lemma splitlines_go_line (cur l s : string) :
  is_line l = true →
  Py.splitlines_go cur (l +:+ nl +:+ s) = (String.rev cur +:+ l) :: Py.splitlines_go "" s.
Proof.
  revert cur. induction l as [|c l IH]; intros cur Hl.
  - rewrite str_app_nil, str_app_nil_r. unfold nl. rewrite str_app_cons, str_app_nil.
    by destruct s.
  - unfold is_line in Hl. simpl in Hl. apply andb_prop in Hl as [Hc Hl].
    apply negb_true_iff in Hc. rewrite str_app_cons.
    change (Py.splitlines_go cur (String c (l +:+ nl +:+ s)))
      with (if Py.is_linebreak c then
              String.rev cur ::
                match l +:+ nl +:+ s with
                | String d s'' =>
                    if Ascii.eqb c "013" && Ascii.eqb d "010"
                    then Py.splitlines_go EmptyString s''
                    else Py.splitlines_go EmptyString (l +:+ nl +:+ s)
                | EmptyString => []
                end
            else Py.splitlines_go (String c cur) (l +:+ nl +:+ s)).
    rewrite Hc, (IH _ Hl), rev_cons. by autorewrite with str.
Qed.

Lemma splitlines_unlines (lines : list string) (s : string) :
  forallb is_line lines = true →
  Py.splitlines (unlines lines +:+ s) = lines ++ Py.splitlines s.
Proof.
  unfold Py.splitlines. induction lines as [|l lines IH]; simpl.
  - intros _. by rewrite str_app_nil.
  - intros [Hl Hlines]%andb_prop. rewrite !str_app_assoc.
    rewrite (splitlines_go_line "" l _ Hl), (IH Hlines). done.
Qed.

(** X18. A frontmatter block that is closed, in a text whose lines up to
    the closing line end with a newline, and whose remainder has newlines
    as its only line boundaries and none at its end: the body is that
    remainder, the dictionary is read from the lines between the two
    fences, and the text that [process_file] writes is the text up to and
    with the closing line, followed by the normalized body. *)
Theorem closed_block_is_kept
    (l0 cl : string) (block : list string) (rest norm : string) :
  forallb is_line (l0 :: block ++ [cl]) = true →
  fm_start l0 = true →
  forallb (λ l, negb (fm_end l)) block = true →
  fm_end cl = true →
  Py.join nl (Py.splitlines rest) = rest →
  let header := unlines (l0 :: block ++ [cl]) in
  let parsed := parse_frontmatter_and_tags (header +:+ rest) in
  body parsed = rest
  ∧ body_is_new parsed = true
  ∧ fm parsed = (foldl block_step (∅, None) block).1
  ∧ rebuilt_text (header +:+ rest) parsed norm = header +:+ norm.
Proof.
  intros Hlines Hstart Hblock Hcl Hrest header parsed.
  assert (Hsplit : Py.splitlines (header +:+ rest)
                   = l0 :: (block ++ cl :: Py.splitlines rest)).
  { unfold header. rewrite (splitlines_unlines _ _ Hlines). simpl.
    by rewrite <- app_assoc. }
  assert (Hparsed : body parsed = rest ∧ body_is_new parsed = true
                    ∧ fm parsed = (foldl block_step (∅, None) block).1).
  { unfold parsed, parse_frontmatter_and_tags.
    rewrite Hsplit, Hstart, (take_block_closed 1 block cl _ Hblock Hcl).
    replace (Nat.ltb (1 + length block)
               (length (l0 :: block ++ cl :: Py.splitlines rest))) with true
      by (symmetry; apply Nat.ltb_lt; simpl; rewrite List.length_app; simpl; lia).
    replace (1 + length block + 1) with (S (S (length block))) by lia.
    cbn [Nat.eqb negb body body_is_new fm drop].
    rewrite (cons_middle cl block), app_assoc.
    rewrite drop_app_length' by (rewrite List.length_app; simpl; lia).
    by rewrite Hrest. }
  destruct Hparsed as (Hbody & Hnew & Hfm). repeat split; try done.
  rewrite <- Hbody at 1. by apply rebuilt_text_suffix.
Qed.

(** X18, at the block of the note [n.md], with the body [[x](y)]
    and no newline at the end. *)
Lemma closed_block_is_kept_witness :
  let header := unlines ("---" :: ["a: b"] ++ ["---"]) in
  let parsed := parse_frontmatter_and_tags (header +:+ "[x](y)") in
  body parsed = "[x](y)"
  ∧ body_is_new parsed = true
  ∧ fm parsed = (foldl block_step (∅, None) ["a: b"]).1
  ∧ rebuilt_text (header +:+ "[x](y)") parsed "[[y]]" = header +:+ "[[y]]".
Proof.
  apply (closed_block_is_kept "---" "---" ["a: b"] "[x](y)" "[[y]]"); reflexivity.
Defined.

End Frontmatter.

(** ** Tags *)

Section Tags.
Import Pathlib Fs Links Indexer Props Cases Parse.

Lemma dedup_go_app_fresh {A} `{EqDecision A} (seen a b : list A) :
  NoDup a → (∀ x, x ∈ a → x ∉ seen) →
  ∃ k, Py.dedup_go seen (a ++ b) = a ++ k.
Proof.
  revert seen. induction a as [|x a IH]; intros seen Hnd Hfresh; simpl.
  - by eexists.
  - apply NoDup_cons in Hnd as [Hx Hnd].
    rewrite bool_decide_eq_false_2 by (apply Hfresh; by left).
    destruct (IH (x :: seen) Hnd) as [k ->].
    + intros y Hy [->|Hin]%elem_of_cons; [done |].
      apply (Hfresh y); [by right | done].
    + by eexists.
Qed.

Lemma mem_elem_of (t : string) (l : list string) : mem t l = true ↔ t ∈ l.
Proof.
  unfold mem. rewrite existsb_exists. split.
  - intros (x & Hx%list_elem_of_In & ->%String.eqb_eq). done.
  - intros Ht. exists t. split; [by apply list_elem_of_In | apply String.eqb_refl].
Qed.

(** The tags that the parser returns: those of the frontmatter, merged
    with those of the scan of the body. *)
Lemma parsed_tags (text : string) :
  let parsed := parse_frontmatter_and_tags text in
  let ft := fm_list (fm parsed) "tags" in
  tags parsed
  = match scan_inline_tags (body parsed) with
    | [] => ft
    | inline => Py.fromkeys (ft ++ List.filter (λ t, negb (mem t ft)) inline)
    end
  ∧ aliases parsed = fm_list (fm parsed) "aliases".
Proof.
  assert (Hempty : ∀ k, fm_list ∅ k = []).
  { intros k. unfold fm_list. by rewrite lookup_empty. }
  unfold parse_frontmatter_and_tags.
  destruct (Py.splitlines text) as [|l0 rest].
  { cbn [fm body tags aliases]. rewrite !Hempty. split; [| done].
    by destruct (scan_inline_tags _). }
  destruct (fm_start l0).
  - destruct (take_block 1 rest) as [block i]. cbn [fm body tags aliases].
    split; [| done]. by destruct (scan_inline_tags _).
  - cbn [fm body tags aliases]. rewrite !Hempty. split; [| done].
    by destruct (scan_inline_tags _).
Qed.

Lemma parsed_tags_elem (text t : string) :
  let parsed := parse_frontmatter_and_tags text in
  t ∈ tags parsed
  ↔ t ∈ fm_list (fm parsed) "tags" ∨ t ∈ scan_inline_tags (body parsed).
Proof.
  intros parsed. destruct (parsed_tags text) as [Htags _]. fold parsed in Htags.
  rewrite Htags. clear Htags.
  set (ft := fm_list (fm parsed) "tags").
  destruct (scan_inline_tags (body parsed)) as [|t0 inline].
  - split; [by left | intros [?|?%elem_of_nil]; done].
  - rewrite elem_of_fromkeys, elem_of_app. split.
    + intros [Ht|Ht]; [by left |].
      apply list_elem_of_In, filter_In in Ht as [Ht%list_elem_of_In _]. by right.
    + intros Ht. destruct (decide (t ∈ ft)) as [Hin|Hnot]; [by left |].
      destruct Ht as [Ht|Ht]; [done |]. right.
      apply list_elem_of_In, filter_In. split; [by apply list_elem_of_In |].
      apply negb_true_iff. destruct (mem t ft) eqn:Hm; [| done].
      by apply mem_elem_of in Hm.
Qed.

(** X19. The tags of a note have no repetition, and neither have its
    aliases; the tags of the frontmatter come first, in their order, and
    a tag is in the list exactly when the frontmatter has it or the scan
    of the body finds it. *)
Theorem tags_are_merged_without_repetition (text : string) :
  let parsed := parse_frontmatter_and_tags text in
  NoDup (tags parsed)
  ∧ NoDup (aliases parsed)
  ∧ fm_list (fm parsed) "tags" `prefix_of` tags parsed
  ∧ ∀ t, t ∈ tags parsed
         ↔ t ∈ fm_list (fm parsed) "tags" ∨ t ∈ scan_inline_tags (body parsed).
Proof.
  intros parsed. destruct (parsed_tags text) as [Htags Hal]. fold parsed in Htags, Hal.
  split; [| split; [| split]].
  - rewrite Htags. destruct (scan_inline_tags (body parsed)); apply NoDup_fromkeys.
  - rewrite Hal. apply NoDup_fromkeys.
  - rewrite Htags. set (ft := fm_list (fm parsed) "tags").
    destruct (scan_inline_tags (body parsed)) as [|t0 inline]; [done |].
    unfold Py.fromkeys.
    destruct (dedup_go_app_fresh [] ft
                (List.filter (λ t, negb (mem t ft)) (t0 :: inline))) as [k ->].
    + apply NoDup_fromkeys.
    + intros x _. apply not_elem_of_nil.
    + by exists k.
  - intros t. apply parsed_tags_elem.
Qed.

Lemma span_fst_all (f : ascii → bool) (s : string) : str_all f (Re.span f s).1 = true.
Proof.
  induction s as [|c s IH]; simpl; [done |].
  destruct (f c) eqn:Hc; [| done].
  destruct (Re.span f s) as [a b]. simpl in *. by rewrite Hc.
Qed.

Lemma inline_tags_go_words (prev : option ascii) (skip : nat) (s : string) :
  Forall (λ t, t ≠ "" ∧ str_all Re.is_tag_char t = true) (Re.inline_tags_go prev skip s).
Proof.
  revert prev skip. induction s as [|c s IH]; intros prev skip; [constructor |].
  change (Re.inline_tags_go prev skip (String c s))
    with (match skip with
          | S k => Re.inline_tags_go (Some c) k s
          | 0 =>
              let tag := (Re.span Re.is_tag_char s).1 in
              if Ascii.eqb c "#" && negb (from_option Py.isword false prev)
                 && Py.truthy tag
              then tag :: Re.inline_tags_go (Some c) (Py.len tag) s
              else Re.inline_tags_go (Some c) 0 s
          end).
  destruct skip as [|k]; [| apply IH]. cbv zeta.
  destruct (Ascii.eqb c "#" && negb (from_option Py.isword false prev)
            && Py.truthy (Re.span Re.is_tag_char s).1) eqn:Hcond; [| apply IH].
  constructor; [| apply IH].
  apply andb_prop in Hcond as [_ Ht]. apply truthy_ne in Ht.
  split; [done | apply span_fst_all].
Qed.

(** X20. Every tag that the scan of a body finds is a non-empty word of the
    tag characters: letters, digits, slash, underscore and dash. A tag of
    a note that is made of other characters comes from its frontmatter. *)
Theorem inline_tags_are_words (text : string) :
  let parsed := parse_frontmatter_and_tags text in
  Forall (λ t, t ≠ "" ∧ str_all Re.is_tag_char t = true) (scan_inline_tags (body parsed))
  ∧ Forall (λ t, t ∈ fm_list (fm parsed) "tags"
                 ∨ (t ≠ "" ∧ str_all Re.is_tag_char t = true))
           (tags parsed).
Proof.
  intros parsed.
  assert (Hscan : ∀ b, Forall (λ t, t ≠ "" ∧ str_all Re.is_tag_char t = true)
                         (scan_inline_tags b)).
  { intros b. apply inline_tags_go_words. }
  split; [apply Hscan |].
  apply Forall_forall. intros t Ht.
  apply parsed_tags_elem in Ht as [Ht|Ht]; [by left | right].
  specialize (Hscan (body parsed)). rewrite Forall_forall in Hscan. by apply Hscan.
Qed.

End Tags.

(** ** Headings *)

Section HeadingProps.
Import Headings Cases.

Lemma atx_with_level (line : string) (h lvl : nat) (text : string) :
  atx_with line h = Some (lvl, text) → 1 ≤ lvl ≤ h.
Proof.
  induction h as [|h IH]; simpl; [done |].
  destruct (text_after_space _ _) as [t|].
  - intros [= <- _]. lia.
  - intros H%IH. lia.
Qed.

Lemma heading_of_well_formed (prev line : string) (h : Heading) :
  heading_of prev line = Some h →
  1 ≤ level h ≤ 6 ∧ heading h ≠ "" ∧ Py.strip (heading h) = heading h.
Proof.
  unfold heading_of.
  destruct (atx_match line) as [[lvl text]|] eqn:Hatx.
  - destruct (Py.truthy (Py.strip text)) eqn:Ht; [| done].
    intros [= <-]. simpl. apply truthy_ne in Ht.
    unfold atx_match in Hatx. apply atx_with_level in Hatx.
    split; [lia |]. split; [done | apply strip_idem].
  - destruct (setext "=" line).
    + destruct (Py.truthy (Py.strip prev)) eqn:Ht; [| done].
      intros [= <-]. simpl. apply truthy_ne in Ht.
      split; [lia |]. split; [done | apply strip_idem].
    + destruct (setext "-" line); [| done].
      destruct (Py.truthy (Py.strip prev)) eqn:Ht; [| done].
      intros [= <-]. simpl. apply truthy_ne in Ht.
      split; [lia |]. split; [done | apply strip_idem].
Qed.

Lemma extract_headings_from_elem (prev : string) (lines : list string) (h : Heading) :
  h ∈ extract_headings_from prev lines →
  ∃ prev' line, line ∈ lines ∧ heading_of prev' line = Some h.
Proof.
  revert prev. induction lines as [|line rest IH]; intros prev; simpl.
  - by intros ?%elem_of_nil.
  - destruct (heading_of prev line) as [h0|] eqn:Hh.
    + intros [->|Hin]%elem_of_cons.
      * exists prev, line. split; [by left | done].
      * destruct (IH _ Hin) as (p & l & ? & ?). exists p, l. split; [by right | done].
    + intros Hin. destruct (IH _ Hin) as (p & l & ? & ?).
      exists p, l. split; [by right | done].
Qed.

(** X21. Every heading that [extract_headings] returns has a level from 1
    to 6 and a text that is not empty and has no white space around it. *)
Theorem extracted_headings_are_well_formed (lines : list string) :
  Forall (λ h, 1 ≤ level h ≤ 6 ∧ heading h ≠ "" ∧ Py.strip (heading h) = heading h)
         (extract_headings lines).
Proof.
  apply Forall_forall. intros h Hh.
  apply extract_headings_from_elem in Hh as (prev & line & _ & Hh).
  by eapply heading_of_well_formed.
Qed.

Lemma length_hashes (k : nat) : String.length (hashes k) = k.
Proof. induction k as [|k IH]; simpl; [done | by rewrite IH]. Qed.

Lemma str_all_hashes (k : nat) : str_all (Ascii.eqb "#") (hashes k) = true.
Proof. induction k as [|k IH]; simpl; done. Qed.

Lemma all_space_cons (c : ascii) (s : string) :
  Parse.all_space (String c s) = Py.isspace c && Parse.all_space s.
Proof.
  unfold Parse.all_space, Py.lstrip. rewrite lstrip_with_cons.
  by destruct (Py.isspace c).
Qed.

Lemma closes_cons (c : ascii) (s : string) :
  closes (String c s)
  = if Py.isspace c then closes s
    else if Ascii.eqb "#" c then Parse.all_space (Py.lstrip_char "#" s)
    else false.
Proof.
  unfold closes, Py.lstrip, Py.lstrip_char. rewrite lstrip_with_cons.
  destruct (Py.isspace c) eqn:Hsp; [done |]. rewrite lstrip_with_cons.
  destruct (Ascii.eqb "#" c); [done |]. by rewrite all_space_cons, Hsp.
Qed.

Lemma closes_tail (c : ascii) (s : string) : closes (String c s) = true → closes s = true.
Proof.
  rewrite closes_cons. destruct (Py.isspace c); [done |].
  destruct (Ascii.eqb "#" c); [| done].
  destruct s as [|d s]; [done |].
  unfold Py.lstrip_char. rewrite lstrip_with_cons, closes_cons.
  destruct (Ascii.eqb "#" d) eqn:Hd.
  - apply Ascii.eqb_eq in Hd as <-. by change (Py.isspace "#") with false.
  - rewrite all_space_cons. intros [Hsp Hs]%andb_prop. rewrite Hsp.
    unfold closes. apply String.eqb_eq in Hs.
    unfold Parse.all_space in *. by rewrite Hs.
Qed.

Lemma closes_plain (c : ascii) (s : string) : is_plain c = true → closes (String c s) = false.
Proof.
  unfold is_plain. intros [Hsp Hc]%andb_prop.
  apply negb_true_iff in Hsp, Hc.
  by rewrite closes_cons, Hsp, Ascii.eqb_sym, Hc.
Qed.

Lemma closes_app_plain (t tail : string) :
  ends_plain t = true → closes (t +:+ tail) = false.
Proof.
  induction t as [|c t IH]; [done |].
  rewrite str_app_cons. destruct t as [|d t].
  - simpl. rewrite str_app_nil. apply closes_plain.
  - intros H. change (ends_plain (String d t) = true) in H.
    destruct (closes (String c (String d t +:+ tail))) eqn:Hcl; [| done].
    apply closes_tail in Hcl. by rewrite (IH H) in Hcl.
Qed.

Lemma lazy_text_plain (t tail : string) :
  Py.contains "010" t = false → ends_plain t = true → closes tail = true →
  lazy_text (t +:+ tail) = Some t.
Proof.
  intros Hnl Hend Htail. induction t as [|c t IH]; [done |].
  rewrite str_app_cons.
  change (Ascii.eqb "010" c || Py.contains "010" t = false) in Hnl.
  apply orb_false_iff in Hnl as [Hc Hnl].
  change (lazy_text (String c (t +:+ tail)))
    with (if Ascii.eqb c "010" then None
          else if closes (t +:+ tail) then Some (String c EmptyString)
          else String c <$> lazy_text (t +:+ tail)).
  rewrite Ascii.eqb_sym, Hc. destruct t as [|d t].
  - rewrite str_app_nil. by rewrite Htail.
  - change (ends_plain (String d t) = true) in Hend.
    rewrite (closes_app_plain _ _ Hend), (IH Hnl Hend). done.
Qed.

Lemma text_after_space_first (r : string) (n : nat) (t : string) :
  lazy_text (Py.drop n r) = Some t → text_after_space r n = Some t.
Proof. intros H. destruct n; simpl; simpl in H; by rewrite H. Qed.

Lemma rstrip_ends_plain (t : string) : ends_plain t = true → Py.rstrip t = t.
Proof.
  unfold Py.rstrip. induction t as [|c t IH]; [done |].
  rewrite rstrip_with_cons. destruct t as [|d t].
  - simpl. unfold is_plain. intros [->%negb_true_iff _]%andb_prop. done.
  - intros H. change (ends_plain (String d t) = true) in H.
    by rewrite (IH H).
Qed.

(** X22. An ATX line: [k] hashes for [k] from 1 to 6, optional white space,
    a text that starts and ends with a plain character, and a closing
    sequence of white space and hashes, is the heading of level [k] with
    that text, whatever the line before it. *)
Theorem atx_line_is_heading (k : nat) (sep t tail prev : string) :
  1 ≤ k ≤ 6 →
  Parse.all_space sep = true →
  plain_text t = true →
  closes tail = true →
  heading_of prev (hashes k +:+ sep +:+ t +:+ tail) = Some (mkHeading t k).
Proof.
  intros Hk Hsep Ht Htail. unfold plain_text in Ht.
  apply andb_prop in Ht as [[Hnl Hfirst]%andb_prop Hend].
  apply negb_true_iff in Hnl. apply all_space_str_all in Hsep.
  destruct t as [|a t']; [done |]. set (t := String a t') in *.
  assert (Ha : Py.isspace a = false ∧ Ascii.eqb "#" a = false).
  { unfold is_plain in Hfirst. apply andb_prop in Hfirst as [H1 H2].
    apply negb_true_iff in H1, H2. by rewrite Ascii.eqb_sym. }
  destruct Ha as [Hasp Hahash].
  assert (Hspan1 : Re.span (Ascii.eqb "#") (hashes k +:+ sep +:+ t +:+ tail)
                   = (hashes k, sep +:+ t +:+ tail)).
  { apply span_all_stop; [apply str_all_hashes |].
    destruct sep as [|s0 sep]; [by rewrite str_app_nil |].
    rewrite str_app_cons. simpl in Hsep. apply andb_prop in Hsep as [Hs0 _].
    destruct (Ascii.eqb_spec "#" s0) as [<-|]; done. }
  assert (Hspan2 : Re.span Py.isspace (sep +:+ t +:+ tail) = (sep, t +:+ tail)).
  { apply span_all_stop; [done |]. unfold t. by rewrite str_app_cons. }
  unfold heading_of, atx_match. rewrite Hspan1. simpl. unfold Py.len.
  rewrite length_hashes. replace (Nat.min k 6) with k by lia.
  destruct k as [|k']; [lia |]. cbn [atx_with].
  pose proof (drop_app_length (hashes (S k')) (sep +:+ t +:+ tail)) as Hdrop.
  rewrite length_hashes in Hdrop. rewrite Hdrop, Hspan2. cbn [fst].
  rewrite (text_after_space_first _ _ t).
  2:{ unfold Py.len. rewrite drop_app_length. by apply lazy_text_plain. }
  assert (Hstrip : Py.strip t = t).
  { unfold Py.strip. replace (Py.lstrip t) with t; [by apply rstrip_ends_plain |].
    unfold t, Py.lstrip. simpl. by rewrite Hasp. }
  rewrite Hstrip. done.
Qed.

(** X22, at the line [## Title ##]. *)
Lemma atx_line_is_heading_witness :
  heading_of "" "## Title ##" = Some (mkHeading "Title" 2).
Proof.
  apply (atx_line_is_heading 2 " " "Title" " ##" ""); [lia | done..].
Defined.

Lemma atx_match_no_hash (line : string) :
  match line with String c _ => Ascii.eqb "#" c = false | EmptyString => True end →
  atx_match line = None.
Proof.
  unfold atx_match. destruct line as [|c s]; [done |]. simpl. by intros ->.
Qed.

Lemma setext_no_hash (c : ascii) (line : string) :
  Ascii.eqb c "#" = false → setext c line = true →
  match line with String d _ => Ascii.eqb "#" d = false | EmptyString => True end.
Proof.
  intros Hc. unfold setext, Py.lstrip. destruct line as [|d s]; [done |].
  destruct (Ascii.eqb_spec "#" d) as [<-|]; [| done].
  simpl. change (Py.isspace "#") with false. simpl.
  rewrite Hc. simpl. done.
Qed.

(** X23. A Setext underline, three or more [=] or [-] between optional
    white space, is never an ATX line: it makes the line before it,
    stripped, a heading of level 1 or 2, and no heading when that line is
    blank. *)
Theorem setext_underline_heads_previous_line (prev line : string) :
  setext "=" line = true ∨ setext "-" line = true →
  heading_of prev line
  = if Py.truthy (Py.strip prev)
    then Some (mkHeading (Py.strip prev) (if setext "=" line then 1 else 2))
    else None.
Proof.
  intros H. unfold heading_of. rewrite atx_match_no_hash.
  - destruct (setext "=" line); [done |].
    destruct H as [H|H]; [done |]. by rewrite H.
  - destruct H as [H|H]; by apply setext_no_hash in H.
Qed.

(** X23, at the underline [===] below [Title]. *)
Lemma setext_underline_heads_previous_line_witness :
  heading_of "Title" "===" = Some (mkHeading "Title" 1).
Proof.
  apply (setext_underline_heads_previous_line "Title" "==="). by left.
Defined.

End HeadingProps.

(** ** The webhook, request by request *)

Section WebhookRequests.
Import Webhook Cases.
Variable hmac_sha256_hexdigest : string → string → string.
Variable popen : list string → result unit.

(** X24. The handler answers 200 and starts the deploy script exactly when
    the secret is set, the header is the ASCII text [sha256=] followed by
    the digest under the secret of [request.data], which is the body as
    it was sent unless the request has form data, and empty when it has,
    and the process can be started; in every other case it starts
    nothing, and it starts nothing but the deploy script. A request that
    verifies while the process cannot be started is answered 500. *)
Theorem deploy_starts_exactly_on_valid_signature
    (env_secret : option string) (r : Request) :
  let data := if req_is_form r then "" else req_body r in
  let digest := "sha256=" +:+ hmac_sha256_hexdigest (SECRET env_secret) data in
  let valid := SECRET env_secret ≠ "" ∧ req_signature r = Some digest
               ∧ is_ascii digest = true in
  let out := webhook hmac_sha256_hexdigest env_secret popen r in
  (out = mkOutcome 200 [DEPLOY] ↔ valid ∧ is_ok (popen [DEPLOY]) = true)
  ∧ (valid ∧ is_ok (popen [DEPLOY]) = false → out = mkOutcome 500 [])
  ∧ (launched out = [DEPLOY] ↔ status out = 200)
  ∧ (launched out = [DEPLOY] ∨ launched out = []).
Proof.
  intros data digest valid out.
  pose proof (verify_true_iff hmac_sha256_hexdigest env_secret (req_signature r) data)
    as Hv.
  cbv zeta in Hv. fold digest in Hv. fold valid in Hv. rewrite <- Hv.
  unfold out, webhook, request_data. fold data.
  destruct (verify hmac_sha256_hexdigest env_secret (req_signature r) data)
    as [[]|e]; simpl.
  - destruct (popen [DEPLOY]); simpl; repeat split; auto; try done.
    + by intros [_ ?].
    + by intros [_ ?].
  - repeat split; auto; try done; by intros [? _].
  - repeat split; auto; try done; by intros [? _].
Qed.

(** X25. A request is answered 403, and starts nothing, whenever the
    secret is unset or empty, the signature header is missing or empty,
    or the header does not start with [sha256=]: the digest is not
    computed for it. *)
Theorem request_without_signature_is_forbidden
    (env_secret sig : option string) (form : bool) (data : string) :
  SECRET env_secret = ""
  ∨ sig = None
  ∨ (∃ s, sig = Some s ∧ Py.startswith s "sha256=" = false) →
  webhook hmac_sha256_hexdigest env_secret popen (mkRequest sig form data)
  = mkOutcome 403 [].
Proof.
  unfold webhook, verify. simpl. intros [H|[H|(s & H & Hs)]].
  - by rewrite H.
  - rewrite H. by destruct (negb (Py.truthy (SECRET env_secret))).
  - rewrite H, Hs, orb_true_r. by destruct (negb (Py.truthy (SECRET env_secret))).
Qed.

(** X26. When the digest function returns ASCII text, as a hexadecimal
    digest is, a request whose header is ASCII text is answered 200
    with the script started, or 403 with nothing started, or, when it
    verifies and the process cannot be started, 500 with nothing
    started: the comparison of the digests raises nothing. *)
Theorem ascii_request_is_verified_without_exception
    (env_secret : option string) (r : Request) :
  (∀ k m, is_ascii (hmac_sha256_hexdigest k m) = true) →
  (∀ s, req_signature r = Some s → is_ascii s = true) →
  let out := webhook hmac_sha256_hexdigest env_secret popen r in
  (∃ b, verify hmac_sha256_hexdigest env_secret (req_signature r) (request_data r)
        = Ok b)
  ∧ (out = mkOutcome 200 [DEPLOY]
     ∨ out = mkOutcome 403 []
     ∨ (out = mkOutcome 500 [] ∧ is_ok (popen [DEPLOY]) = false))
  ∧ (is_ok (popen [DEPLOY]) = true →
     out = mkOutcome 200 [DEPLOY] ∨ out = mkOutcome 403 []).
Proof.
  intros Hhex Hsig out.
  destruct (verify_ascii hmac_sha256_hexdigest env_secret (req_signature r)
              (request_data r) Hsig Hhex) as [b Hb].
  split; [by exists b |]. unfold out, webhook. rewrite Hb.
  destruct b; [| split; [right; by left | intros _; by right]].
  destruct (popen [DEPLOY]); simpl; split; auto.
  intros [=].
Qed.

End WebhookRequests.

Section WebhookWitnesses.
Import Webhook Cases.

(** X25, at a request with the header of another scheme. *)
Lemma request_without_signature_is_forbidden_witness :
  webhook fixed_digest (Some "s3cret") starts
    (mkRequest (Some "sha1=00ff") false "payload")
  = mkOutcome 403 [].
Proof.
  apply (request_without_signature_is_forbidden fixed_digest starts (Some "s3cret")
           (Some "sha1=00ff") false "payload").
  right. right. by exists "sha1=00ff".
Defined.

(** X26, at a request with the right digest, when the script starts. *)
Lemma ascii_request_is_verified_without_exception_witness :
  webhook fixed_digest (Some "s3cret") starts
    (mkRequest (Some "sha256=00ff") false "payload")
  = mkOutcome 200 [DEPLOY]
  ∨ webhook fixed_digest (Some "s3cret") starts
      (mkRequest (Some "sha256=00ff") false "payload")
    = mkOutcome 403 [].
Proof.
  apply (ascii_request_is_verified_without_exception fixed_digest starts (Some "s3cret")
           (mkRequest (Some "sha256=00ff") false "payload")).
  - intros k m. reflexivity.
  - intros s [= <-]. reflexivity.
  - reflexivity.
Defined.

End WebhookWitnesses.
